(** * PulmoScan AI: the diagnosis pipeline

    A shallow embedding of the Node.js backend (the Express handlers
    [POST /api/diagnose], [GET /api/history], [GET /api/analytics],
    [DELETE /api/history/:scanId] and the helper [_inferSeverity]) and of
    the React client's session context and [ProcessingAnimation] effect.

    Conventions of the embedding.
    - A JavaScript value is a [JS.value]; JSON numbers are exact rationals
      ([Qc]), so rounding of IEEE doubles is not modelled.
    - Everything a handler obtains from outside (the upstream answer, the
      generated identifier, the clock, whether MongoDB accepts a write) is a
      field of a [World] record: one handler run is a pure function of the
      request, the world and the server state.
    - The server state is the [ScanRecord] collection in insertion order, the
      console log, and the trace of upstream calls. *)

From Stdlib Require Import ZArith QArith Qcanon Qround Qminmax List String Ascii Bool Lia.
From Stdlib Require Import Permutation Sorted Lqa Qabs Qpower.
Import ListNotations.

#[local] Close Scope Qc_scope.
#[local] Close Scope Q_scope.
#[local] Open Scope string_scope.
#[local] Open Scope list_scope.

(** ** JavaScript values *)

Module JS.

#[local] Unset Elimination Schemes.
Inductive value : Type :=
| VUndefined
| VNull
| VBool (b : bool)
| VNum (q : Qc)
| VStr (s : string)
| VArr (xs : list value)
| VObj (fields : list (string * value)).
#[local] Set Elimination Schemes.

(** Induction over values, through the elements of arrays and the fields of
    objects. *)
Section ValueInduction.
Variable P : value -> Prop.
Hypothesis P_undefined : P VUndefined.
Hypothesis P_null : P VNull.
Hypothesis P_bool : forall b, P (VBool b).
Hypothesis P_num : forall q, P (VNum q).
Hypothesis P_str : forall s, P (VStr s).
Hypothesis P_arr : forall xs, Forall P xs -> P (VArr xs).
Hypothesis P_obj : forall fields, Forall (fun kv => P (snd kv)) fields -> P (VObj fields).

Fixpoint value_ind (v : value) : P v :=
  match v with
  | VUndefined => P_undefined
  | VNull => P_null
  | VBool b => P_bool b
  | VNum q => P_num q
  | VStr s => P_str s
  | VArr xs =>
      P_arr xs
        ((fix all (l : list value) : Forall P l :=
            match l with
            | [] => Forall_nil P
            | x :: rest => Forall_cons x (value_ind x) (all rest)
            end) xs)
  | VObj fields =>
      P_obj fields
        ((fix all (l : list (string * value)) : Forall (fun kv => P (snd kv)) l :=
            match l with
            | [] => Forall_nil _
            | kv :: rest => Forall_cons kv (value_ind (snd kv)) (all rest)
            end) fields)
  end.

End ValueInduction.

(** [ToBoolean]: what [!v], [v || w] and [if (v)] test. *)
Definition truthy (v : value) : bool :=
  match v with
  | VUndefined | VNull => false
  | VBool b => b
  | VNum q => negb (Qc_eq_bool q (Q2Qc 0))
  | VStr s => negb (String.eqb s "")
  | VArr _ | VObj _ => true
  end.

(** [a || b] *)
Definition or_else (a b : value) : value := if truthy a then a else b.

Fixpoint lookup (k : string) (fields : list (string * value)) : option value :=
  match fields with
  | [] => None
  | (k', v) :: rest => if String.eqb k k' then Some v else lookup k rest
  end.

(** Property read [v.k]. [None] is the [TypeError] thrown on [null] and
    [undefined]; a missing property reads as [undefined]. None of the
    property names read by the handlers exists on a primitive or an array. *)
Definition prop (v : value) (k : string) : option value :=
  match v with
  | VUndefined | VNull => None
  | VObj fields =>
      Some (match lookup k fields with Some x => x | None => VUndefined end)
  | _ => Some VUndefined
  end.

(** [v === 'literal'] *)
Definition strict_eq_str (v : value) (s : string) : bool :=
  match v with
  | VStr t => String.eqb t s
  | _ => false
  end.

(** [array.includes(v)] for an array of string literals. *)
Definition includes (lits : list string) (v : value) : bool :=
  existsb (strict_eq_str v) lits.

(** Structural equality of values, the equality [$group] keys are compared
    with. *)
Fixpoint value_eqb (a b : value) {struct a} : bool :=
  match a, b with
  | VUndefined, VUndefined => true
  | VNull, VNull => true
  | VBool x, VBool y => Bool.eqb x y
  | VNum x, VNum y => Qc_eq_bool x y
  | VStr x, VStr y => String.eqb x y
  | VArr xs, VArr ys =>
      (fix go (xs ys : list value) {struct xs} : bool :=
         match xs, ys with
         | [], [] => true
         | x :: xs', y :: ys' => value_eqb x y && go xs' ys'
         | _, _ => false
         end) xs ys
  | VObj fs, VObj gs =>
      (fix go (fs gs : list (string * value)) {struct fs} : bool :=
         match fs, gs with
         | [], [] => true
         | (k, x) :: fs', (k', y) :: gs' =>
             String.eqb k k' && value_eqb x y && go fs' gs'
         | _, _ => false
         end) fs gs
  | _, _ => false
  end.

(** What a promise settles to, and what a [catch] clause receives. *)
Inductive exn : Type :=
| TypeError
| Error (message : string).

Inductive outcome (A : Type) : Type :=
| Resolved (a : A)
| Rejected (message : string).
Arguments Resolved {A} a.
Arguments Rejected {A} message.

End JS.

(** ** The Node.js backend *)

Module Server.
Import JS.

(** The file object Multer attaches to the request ([req.file]). *)
Record File : Type := {
  buffer : string;
  originalname : string;
  mimetype : string;
  size : Z
}.

(** [patientSchema]: the persisted [ScanRecord]. The handler's values are
    kept as it passes them; Mongoose's casting to the declared field types is
    the identity on values of those types and is not modelled otherwise. *)
Module Doc.
Record Result : Type := {
  predictedClass : value;
  confidence : value;
  severity : value;
  probabilities : value;
  affectedRegions : value;
  recommendations : value;
  demoMode : value
}.
Record ImageMeta : Type := {
  originalName : string;
  mimetype : string;
  sizeByes : Z
}.
Record t : Type := {
  scanId : string;
  patient : value;
  result : Result;
  imageMeta : ImageMeta;
  createdAt : Z
}.
End Doc.
Abbreviation ScanRecord := Doc.t.

(** The JSON body of a successful [POST /api/diagnose]. A field holding
    [VUndefined] is absent from the serialised body. *)
Module Resp.
Record t : Type := {
  scanId : string;
  predicted_class : value;
  confidence : value;
  severity : value;
  probabilities : value;
  affected_regions : value;
  recommendations : value;
  demo_mode : value;
  created_at : string
}.
End Resp.
Abbreviation DiagnosisResponse := Resp.t.

(** [res.json(payload)] answers 200; [res.status(n).json({error, detail})]
    answers [n]. *)
Inductive Reply (A : Type) : Type :=
| Ok (payload : A)
| Err (status : Z) (error : string) (detail : option exn).
Arguments Ok {A} payload.
Arguments Err {A} status error detail.

Definition status {A : Type} (r : Reply A) : Z :=
  match r with
  | Ok _ => 200
  | Err n _ _ => n
  end.

Inductive LogLine : Type :=
| AI_call_failed (message : string)
| DB_saved (scanId : string) (name : value)
| DB_persist_failed (e : exn)
| DIAGNOSE_failed (e : exn).

Record State : Type := {
  store : list ScanRecord;
  console : list LogLine;
  upstream_calls : list File
}.

(** Everything one run of the handler obtains from outside. *)
Record World : Type := {
  JSON_parse : string -> option value;
  callPythonAPI : File -> outcome value;
  uuidv4 : string;
  ScanRecord_create : ScanRecord -> outcome unit;
  Date_now : Z;
  toISOString_now : string
}.

Record DiagnoseRequest : Type := {
  file : option File;
  patientData : option string
}.

Definition _inferSeverity (cls : value) : string :=
  if negb (truthy cls) || strict_eq_str cls "Normal" then "Low"
  else if includes ["Tuberculosis"; "COVID-19"] cls then "High"
  else "Medium".

Definition bind {A B : Type} (o : option A) (k : A -> option B) : option B :=
  match o with
  | Some a => k a
  | None => None
  end.
Notation "x <- e ;; k" := (bind e (fun x => k))
  (at level 61, e at next level, right associativity).

(** [let patient = {}; if (req.body.patientData) patient = JSON.parse(...)];
    [None] is the [SyntaxError] answered with 400. *)
Definition parse_patient (w : World) (raw : option string) : option value :=
  match raw with
  | Some s => if truthy (VStr s) then JSON_parse w s else Some (VObj [])
  | None => Some (VObj [])
  end.

(** The argument of [ScanRecord.create]; [None] when reading a property of
    [aiResult] throws. [createdAt] is the schema default [Date.now]. *)
Definition new_record (w : World) (f : File) (patient aiResult : value)
  : option ScanRecord :=
  predicted_class <- prop aiResult "predicted_class" ;;
  confidence <- prop aiResult "confidence" ;;
  severity <- prop aiResult "severity" ;;
  probabilities <- prop aiResult "probabilities" ;;
  affected_regions <- prop aiResult "affected_regions" ;;
  recommendations <- prop aiResult "recommendations" ;;
  demo_mode <- prop aiResult "demo_mode" ;;
  Some {| Doc.scanId := uuidv4 w;
          Doc.patient := patient;
          Doc.result :=
            {| Doc.predictedClass := predicted_class;
               Doc.confidence := confidence;
               Doc.severity := severity;
               Doc.probabilities := probabilities;
               Doc.affectedRegions := affected_regions;
               Doc.recommendations := recommendations;
               Doc.demoMode := demo_mode |};
          Doc.imageMeta :=
            {| Doc.originalName := originalname f;
               Doc.mimetype := mimetype f;
               Doc.sizeByes := size f |};
          Doc.createdAt := Date_now w |}.

Definition log (l : LogLine) (st : State) : State :=
  {| store := store st;
     console := console st ++ [l];
     upstream_calls := upstream_calls st |}.

Definition insert (d : ScanRecord) (st : State) : State :=
  {| store := store st ++ [d];
     console := console st;
     upstream_calls := upstream_calls st |}.

Definition record_call (f : File) (st : State) : State :=
  {| store := store st;
     console := console st;
     upstream_calls := upstream_calls st ++ [f] |}.

(** The inner [try { await ScanRecord.create(...); console.log(...) }
    catch (dbErr) { console.warn(...) }]. *)
Definition persist (w : World) (f : File) (patient aiResult : value)
  (st : State) : State :=
  match new_record w f patient aiResult with
  | None => log (DB_persist_failed TypeError) st
  | Some d =>
      match ScanRecord_create w d with
      | Rejected message => log (DB_persist_failed (Error message)) st
      | Resolved _ =>
          match prop patient "fullName" with
          | None => log (DB_persist_failed TypeError) (insert d st)
          | Some fullName =>
              log (DB_saved (uuidv4 w) (or_else fullName (VStr "anonymous")))
                  (insert d st)
          end
      end
  end.

(** The object handed to the final [res.json]; [None] when reading a
    property of [aiResult] throws. *)
Definition response_body (w : World) (aiResult : value)
  : option DiagnosisResponse :=
  predicted_class <- prop aiResult "predicted_class" ;;
  confidence <- prop aiResult "confidence" ;;
  severity <- prop aiResult "severity" ;;
  probabilities <- prop aiResult "probabilities" ;;
  affected_regions <- prop aiResult "affected_regions" ;;
  recommendations <- prop aiResult "recommendations" ;;
  demo_mode <- prop aiResult "demo_mode" ;;
  Some {| Resp.scanId := uuidv4 w;
          Resp.predicted_class := predicted_class;
          Resp.confidence := confidence;
          Resp.severity :=
            or_else severity (VStr (_inferSeverity predicted_class));
          Resp.probabilities := probabilities;
          Resp.affected_regions := affected_regions;
          Resp.recommendations := recommendations;
          Resp.demo_mode := or_else demo_mode (VBool false);
          Resp.created_at := toISOString_now w |}.

(** [app.post('/api/diagnose', upload.single('image'), async (req, res) => ...)] *)
Definition diagnose (w : World) (req : DiagnoseRequest) (st : State)
  : Reply DiagnosisResponse * State :=
  match file req with
  | None => (Err 400 "Image file is required (field name: image)" None, st)
  | Some f =>
      match parse_patient w (patientData req) with
      | None => (Err 400 "patientData must be valid JSON" None, st)
      | Some patient =>
          let st1 := record_call f st in
          match callPythonAPI w f with
          | Rejected message =>
              (Err 502
                 "AI inference service is unavailable. Please ensure the Python API is running."
                 (Some (Error message)),
               log (AI_call_failed message) st1)
          | Resolved aiResult =>
              let st2 := persist w f patient aiResult st1 in
              match response_body w aiResult with
              | Some r => (Ok r, st2)
              | None =>
                  (Err 500 "Internal server error" (Some TypeError),
                   log (DIAGNOSE_failed TypeError) st2)
              end
          end
      end
  end.

(** *** The store's queries *)

(** Sorting a query's result, descending on an integer key. *)
Section Sort.
Context {A : Type} (key : A -> Z).

(** Modelled from the spec: the order MongoDB's [sort] gives to documents
    with equal keys. The database is not part of this repository and the
    handlers name the sort key and direction only; the store contract of the
    design document has equal keys come out in insertion order. So an element
    goes in front of the first element whose key is not larger, and elements
    with equal keys keep the order they had in the collection. *)
Fixpoint insert_desc (a : A) (l : list A) : list A :=
  match l with
  | [] => [a]
  | x :: rest =>
      if (key x <=? key a)%Z then a :: x :: rest
      else x :: insert_desc a rest
  end.

(** [.sort({ key: -1 })] *)
Fixpoint sort_desc (l : list A) : list A :=
  match l with
  | [] => []
  | a :: rest => insert_desc a (sort_desc rest)
  end.

(** Every element's key is at least the key of each element after it. *)
Definition descending (l : list A) : Prop :=
  StronglySorted (fun a b => (key b <= key a)%Z) l.

End Sort.

(** A JavaScript number that is an integer or not finite; [None] stands for
    [NaN] and the infinities, which [res.json] serialises as [null]. The
    integer is the mathematical one: JavaScript holds its nearest double,
    which is the same number up to 2^53 in size. Signed zero is not
    distinguished. *)
Definition number : Type := option Z.

(** Strings hold their text in UTF-8. The white space [parseInt] and [trim]
    skip is ECMAScript's WhiteSpace and LineTerminator: U+0009 to U+000D and
    U+0020 in one byte, U+00A0 in two, and U+1680, U+2000 to U+200A, U+2028,
    U+2029, U+202F, U+205F, U+3000 and U+FEFF in three. *)
Definition is_space (c : ascii) : bool :=
  let n := nat_of_ascii c in
  (Nat.eqb n 32 || (Nat.leb 9 n && Nat.leb n 13))%bool.

(** U+00A0 is C2 A0. *)
Definition space2 (c0 c1 : ascii) : bool :=
  (Nat.eqb (nat_of_ascii c0) 194 && Nat.eqb (nat_of_ascii c1) 160)%bool.

(** The first byte of a white-space character of three bytes. *)
Definition lead3 (c0 : ascii) : bool :=
  let b0 := nat_of_ascii c0 in
  (Nat.eqb b0 225 || Nat.eqb b0 226 || Nat.eqb b0 227 || Nat.eqb b0 239)%bool.

(** U+1680 is E1 9A 80; U+2000 to U+200A are E2 80 80 to E2 80 8A; U+2028,
    U+2029 and U+202F are E2 80 A8, E2 80 A9 and E2 80 AF; U+205F is
    E2 81 9F; U+3000 is E3 80 80; U+FEFF is EF BB BF. *)
Definition space3 (c0 c1 c2 : ascii) : bool :=
  let b0 := nat_of_ascii c0 in
  let b1 := nat_of_ascii c1 in
  let b2 := nat_of_ascii c2 in
  ((Nat.eqb b0 225 && Nat.eqb b1 154 && Nat.eqb b2 128)
   || (Nat.eqb b0 226 && Nat.eqb b1 128
       && ((Nat.leb 128 b2 && Nat.leb b2 138)
           || Nat.eqb b2 168 || Nat.eqb b2 169 || Nat.eqb b2 175))
   || (Nat.eqb b0 226 && Nat.eqb b1 129 && Nat.eqb b2 159)
   || (Nat.eqb b0 227 && Nat.eqb b1 128 && Nat.eqb b2 128)
   || (Nat.eqb b0 239 && Nat.eqb b1 187 && Nat.eqb b2 191))%bool.

Fixpoint trim_start (s : string) : string :=
  match s with
  | String c0 rest =>
      if is_space c0 then trim_start rest
      else if Nat.eqb (nat_of_ascii c0) 194 then
        match rest with
        | String c1 rest1 => if space2 c0 c1 then trim_start rest1 else s
        | EmptyString => s
        end
      else if lead3 c0 then
        match rest with
        | String c1 (String c2 rest2) =>
            if space3 c0 c1 c2 then trim_start rest2 else s
        | _ => s
        end
      else s
  | EmptyString => s
  end.

Definition digit (c : ascii) : option Z :=
  let n := nat_of_ascii c in
  if (Nat.leb 48 n && Nat.leb n 57)%bool then Some (Z.of_nat (n - 48)) else None.

Fixpoint digits (s : string) (acc : number) : number :=
  match s with
  | String c rest =>
      match digit c with
      | Some d =>
          digits rest
            (Some (10 * match acc with Some a => a | None => 0 end + d)%Z)
      | None => acc
      end
  | EmptyString => acc
  end.

(** [parseInt(s, 10)]: leading white space, an optional sign, then the
    longest run of decimal digits, read as the integer they write; [NaN]
    when there is none. Up to 2^53 in size that integer is the Number
    JavaScript returns; beyond, JavaScript returns the nearest double. *)
Definition parseInt (s : string) : number :=
  match trim_start s with
  | String "-"%char rest => option_map Z.opp (digits rest None)
  | String "+"%char rest => digits rest None
  | t => digits t None
  end.

(** [Math.max(1, x)] and [Math.min(100, x)]: [NaN] in, [NaN] out. *)
Definition Math_max (a : Z) (x : number) : number := option_map (Z.max a) x.
Definition Math_min (a : Z) (x : number) : number := option_map (Z.min a) x.

(** [Math.ceil(total / limit)] for an integer [total]. *)
Definition Math_ceil_div (total : Z) (limit : number) : number :=
  match limit with
  | Some l => if (l =? 0)%Z then None else Some (- ((- total) / l))%Z
  | None => None
  end.

(** [req.query.x || fallback] *)
Definition param_or (x : option string) (fallback : string) : string :=
  match x with
  | Some s => if String.eqb s "" then fallback else s
  | None => fallback
  end.

Record HistoryQuery : Type := {
  q_page : option string;
  q_limit : option string;
  q_class : option string;
  q_dateFrom : option string;
  q_dateTo : option string
}.

(** The Mongo filter built from the query string. A bound is [Some None]
    when [new Date(s)] is an invalid date. *)
Record Filter : Type := {
  predictedClass_is : option string;
  createdAt_gte : option (option Z);
  createdAt_lte : option (option Z)
}.

Definition no_filter : Filter :=
  {| predictedClass_is := None; createdAt_gte := None; createdAt_lte := None |}.

Definition nonempty (x : option string) : option string :=
  match x with
  | Some s => if String.eqb s "" then None else Some s
  | None => None
  end.

(** What the query handlers obtain from outside. [find_irregular] is
    MongoDB's answer to a query the handler does not guard against (a bound
    that is an invalid date, a [skip] that is negative or [NaN], a [limit]
    that is not a positive integer): the driver and the server decide it, not
    this code. *)
Record Mongo : Type := {
  db_error : option string;
  Date_parse : string -> option Z;
  find_irregular :
    Filter -> number -> number -> list ScanRecord ->
    outcome (list ScanRecord * Z);
  now : Z
}.

Definition build_filter (m : Mongo) (q : HistoryQuery) : Filter :=
  {| predictedClass_is := nonempty (q_class q);
     createdAt_gte := option_map (Date_parse m) (nonempty (q_dateFrom q));
     createdAt_lte := option_map (Date_parse m) (nonempty (q_dateTo q)) |}.

Definition matches (flt : Filter) (d : ScanRecord) : bool :=
  match predictedClass_is flt with
  | Some c => strict_eq_str (Doc.predictedClass (Doc.result d)) c
  | None => true
  end
  && match createdAt_gte flt with
     | Some (Some t) => (t <=? Doc.createdAt d)%Z
     | _ => true
     end
  && match createdAt_lte flt with
     | Some (Some t) => (Doc.createdAt d <=? t)%Z
     | _ => true
     end.

Definition valid_bound (b : option (option Z)) : bool :=
  match b with
  | Some None => false
  | _ => true
  end.

Definition regular (flt : Filter) (skip limit : number) : bool :=
  valid_bound (createdAt_gte flt) && valid_bound (createdAt_lte flt)
  && match skip, limit with
     | Some s, Some l => (0 <=? s)%Z && (0 <? l)%Z
     | _, _ => false
     end.

(** [ScanRecord.countDocuments(filter)] *)
Definition countDocuments (flt : Filter) (docs : list ScanRecord) : Z :=
  Z.of_nat (List.length (filter (matches flt) docs)).

(** [ScanRecord.find(filter).sort({ createdAt: -1 })] *)
Definition newest_first (flt : Filter) (docs : list ScanRecord)
  : list ScanRecord :=
  sort_desc Doc.createdAt (filter (matches flt) docs).

(** [ScanRecord.find(filter).sort({ createdAt: -1 }).skip(skip).limit(limit)] *)
Definition find_sorted (flt : Filter) (skip limit : Z)
  (docs : list ScanRecord) : list ScanRecord :=
  firstn (Z.to_nat limit) (skipn (Z.to_nat skip) (newest_first flt docs)).

Record HistoryPage : Type := {
  records : list ScanRecord;
  total : Z;
  page : number;
  limit : number;
  pages : number
}.

(** [Math.max(1, parseInt(req.query.page || '1', 10))] *)
Definition page_of (q : HistoryQuery) : number :=
  Math_max 1 (parseInt (param_or (q_page q) "1")).

(** [Math.min(100, parseInt(req.query.limit || '20', 10))] *)
Definition limit_of (q : HistoryQuery) : number :=
  Math_min 100 (parseInt (param_or (q_limit q) "20")).

(** [app.get('/api/history', ...)] *)
Definition history (m : Mongo) (q : HistoryQuery) (st : State)
  : Reply HistoryPage :=
  let page := page_of q in
  let limit := limit_of q in
  let skip :=
    match page, limit with
    | Some p, Some l => Some ((p - 1) * l)%Z
    | _, _ => None
    end in
  let flt := build_filter m q in
  let found :=
    match db_error m with
    | Some message => Rejected message
    | None =>
        match skip, limit with
        | Some s, Some l =>
            if regular flt skip limit
            then Resolved (find_sorted flt s l (store st),
                           countDocuments flt (store st))
            else find_irregular m flt skip limit (store st)
        | _, _ => find_irregular m flt skip limit (store st)
        end
    end in
  match found with
  | Rejected message => Err 500 message None
  | Resolved (records, total) =>
      Ok {| records := records;
            total := total;
            page := page;
            limit := limit;
            pages := Math_ceil_div total limit |}
  end.

(** *** Analytics *)

(** The [_id] of the [$group] stage: a missing field groups with [null]. *)
Definition group_key (d : ScanRecord) : value :=
  match Doc.predictedClass (Doc.result d) with
  | VUndefined => VNull
  | v => v
  end.

(** The keys of a list, each once, in order of first appearance. *)
Fixpoint distinct (ks : list value) : list value :=
  match ks with
  | [] => []
  | k :: rest => k :: filter (fun k' => negb (value_eqb k' k)) (distinct rest)
  end.

Definition members (k : value) (docs : list ScanRecord) : list ScanRecord :=
  filter (fun d => value_eqb (group_key d) k) docs.

(** [$avg] looks at numeric values only and is [null] when there is none. *)
Definition numeric (vs : list value) : list Qc :=
  flat_map (fun v => match v with VNum q => [q] | _ => [] end) vs.

Definition Qc_sum (qs : list Qc) : Qc := fold_right Qcplus (Q2Qc 0) qs.

Definition Qc_of_nat (n : nat) : Qc := Q2Qc (inject_Z (Z.of_nat n)).

Definition avg (vs : list value) : option Qc :=
  match numeric vs with
  | [] => None
  | qs => Some (Qc_sum qs / Qc_of_nat (List.length qs))%Qc
  end.

Record Group : Type := {
  _id : value;
  count : Z;
  avgConfidence : option Qc
}.

(** [{ $group: { _id: '$result.predictedClass', count: { $sum: 1 },
                 avgConfidence: { $avg: '$result.confidence' } } }] *)
Definition group_stage (docs : list ScanRecord) : list Group :=
  map (fun k =>
         {| _id := k;
            count := Z.of_nat (List.length (members k docs));
            avgConfidence :=
              avg (map (fun d => Doc.confidence (Doc.result d)) (members k docs)) |})
      (distinct (map group_key docs)).

(** [ScanRecord.aggregate([{ $group: ... }, { $sort: { count: -1 } }])] *)
Definition aggregateByClass (docs : list ScanRecord) : list Group :=
  sort_desc count (group_stage docs).

(** The sum of the per-class counts. *)
Definition total_count (groups : list Group) : Z :=
  fold_right (fun g acc => (count g + acc)%Z) 0%Z groups.

(** *** Double-precision arithmetic *)

(** [2 ^ z] *)
Definition pow2 (z : Z) : Q := Qpower 2 z.

(** The binary exponent of a positive rational: [2 ^ e <= a < 2 ^ (e + 1)]. *)
Definition exponent (a : Q) : Z :=
  let e0 := (Z.log2 (Qnum a) - Z.log2 (Zpos (Qden a)))%Z in
  if Qle_bool (pow2 e0) a then e0 else (e0 - 1)%Z.

(** The integer nearest to [m], the even one of two that are equally near. *)
Definition nearest_even (m : Q) : Z :=
  let f := Qfloor m in
  match Qcompare (m - inject_Z f) (1 # 2) with
  | Lt => f
  | Gt => (f + 1)%Z
  | Eq => if Z.even f then f else (f + 1)%Z
  end.

(** The double a real number rounds to (binary64, round to nearest, ties to
    even, with subnormals); [None] is an infinity. *)
Definition round64 (q : Q) : option Q :=
  if Qeq_bool q 0 then Some 0%Q
  else
    let a := Qabs q in
    let ulp := pow2 (Z.max (exponent a) (-1022) - 52) in
    let r := (inject_Z (nearest_even (a / ulp)) * ulp)%Q in
    if Qle_bool (pow2 1024) r then None
    else Some (if Qle_bool 0 q then r else (- r)%Q).

(** [Math.round(y)]: the nearest integer, the larger of two that are equally
    near. *)
Definition Math_round (y : Q) : Z := Qfloor (y + (1 # 2)).

Record ClassStat : Type := {
  class : value;
  class_count : Z;
  class_avgConfidence : option Qc
}.

(** [Math.round(d.avgConfidence * 10000) / 100] in doubles: the average
    arrives as the double that holds it, the product and the quotient are
    rounded; a [null] average multiplies to 0; [None] is a result that is
    not finite, which [res.json] serialises as [null]. *)
Definition percentage (a : option Qc) : option Qc :=
  match a with
  | Some x =>
      d <- round64 x ;;
      y <- round64 (d * (10000 # 1)) ;;
      r <- round64 (inject_Z (Math_round y) / (100 # 1)) ;;
      Some (Q2Qc r)
  | None => Some (Q2Qc 0)
  end.

Record Analytics : Type := {
  totalScans : Z;
  scansThisWeek : Z;
  classDistribution : list ClassStat
}.

Definition since (t : Z) : Filter :=
  {| predictedClass_is := None;
     createdAt_gte := Some (Some t);
     createdAt_lte := None |}.

(** [app.get('/api/analytics', ...)] *)
Definition analytics (m : Mongo) (st : State) : Reply Analytics :=
  match db_error m with
  | Some message => Err 500 message None
  | None =>
      Ok {| totalScans := countDocuments no_filter (store st);
            scansThisWeek :=
              countDocuments (since (now m - 7 * 24 * 3600 * 1000)%Z) (store st);
            classDistribution :=
              map (fun d =>
                     {| class := _id d;
                        class_count := count d;
                        class_avgConfidence := percentage (avgConfidence d) |})
                  (aggregateByClass (store st)) |}
  end.

(** *** Deletion *)

(** [ScanRecord.deleteOne({ scanId })]: the first matching document goes. *)
Fixpoint deleteOne (id : string) (docs : list ScanRecord) : list ScanRecord :=
  match docs with
  | [] => []
  | d :: rest =>
      if String.eqb (Doc.scanId d) id then rest else d :: deleteOne id rest
  end.

(** The records whose identifier is not [id]. *)
Definition without (id : string) (docs : list ScanRecord) : list ScanRecord :=
  filter (fun d => negb (String.eqb (Doc.scanId d) id)) docs.

Record Success : Type := { success : bool }.

(** [app.delete('/api/history/:scanId', ...)] *)
Definition delete_history (m : Mongo) (id : string) (st : State)
  : Reply Success * State :=
  match db_error m with
  | Some message => (Err 500 message None, st)
  | None =>
      (Ok {| success := true |},
       {| store := deleteOne id (store st);
          console := console st;
          upstream_calls := upstream_calls st |})
  end.

End Server.

(** ** The React client *)

Module Client.
Import JS.

Inductive UploadMethod : Type := method_file | method_camera.

(** The browser's [File] object, as far as the client reads it. *)
Record File : Type := {
  name : string;
  type : string;
  size : Z
}.

Record ScanData : Type := {
  file : option File;
  capturedImage : option string;
  uploadMethod : option UploadMethod
}.

(** [DiagnosisApiResult]: the parsed body [submitDiagnosis] resolves with. *)
Record DiagnosisApiResult : Type := {
  api_scanId : value;
  predicted_class : value;
  api_confidence : value;
  api_severity : value;
  api_probabilities : value;
  affected_regions : value;
  api_recommendations : value;
  heatmap_b64 : value;
  demo_mode : value
}.

Record DiagnosisResult : Type := {
  scanId : value;
  disease : value;
  confidence : value;
  severity : value;
  affectedRegions : value;
  recommendations : value;
  probabilities : value;
  heatmapUrl : value;
  demoMode : value
}.

(** [a ?? b] *)
Definition nullish (a b : value) : value :=
  match a with
  | VUndefined | VNull => b
  | _ => a
  end.

(** The object literal [result] built after the [await]. *)
Definition to_result (apiResult : DiagnosisApiResult) : DiagnosisResult :=
  {| scanId := api_scanId apiResult;
     disease := predicted_class apiResult;
     confidence := api_confidence apiResult;
     severity := api_severity apiResult;
     affectedRegions := affected_regions apiResult;
     recommendations := api_recommendations apiResult;
     probabilities := api_probabilities apiResult;
     heatmapUrl := nullish (heatmap_b64 apiResult) (VStr "");
     demoMode := demo_mode apiResult |}.

(** The state [DiagnosisProvider] holds; [PatientData] is kept as the value
    the form submitted. *)
Record Session : Type := {
  patientData : option value;
  scanData : option ScanData;
  diagnosisResult : option DiagnosisResult
}.

Definition empty_session : Session :=
  {| patientData := None; scanData := None; diagnosisResult := None |}.

Definition setPatientData (p : value) (s : Session) : Session :=
  {| patientData := Some p;
     scanData := scanData s;
     diagnosisResult := diagnosisResult s |}.

Definition setScanData (d : ScanData) (s : Session) : Session :=
  {| patientData := patientData s;
     scanData := Some d;
     diagnosisResult := diagnosisResult s |}.

Definition setDiagnosisResult (r : DiagnosisResult) (s : Session) : Session :=
  {| patientData := patientData s;
     scanData := scanData s;
     diagnosisResult := Some r |}.

Definition resetDiagnosis (s : Session) : Session := empty_session.

(** The routes of [App]. *)
Inductive Route : Type :=
| Index
| PatientDetails
| UploadScan
| Processing
| Results
| HowItWorks
| About
| NotFound.

Definition Route_eqb (a b : Route) : bool :=
  match a, b with
  | Index, Index | PatientDetails, PatientDetails | UploadScan, UploadScan
  | Processing, Processing | Results, Results | HowItWorks, HowItWorks
  | About, About | NotFound, NotFound => true
  | _, _ => false
  end.

Definition isSome {A : Type} (o : option A) : bool :=
  match o with
  | Some _ => true
  | None => false
  end.

(** The redirecting effects of the pages: [ScanUploader] sends a visitor
    without patient data to the form, [ProcessingAnimation] one without scan
    data to the upload step, [ResultsDisplay] one without a result or
    without patient data to the landing page. *)
Definition redirect (s : Session) (r : Route) : Route :=
  match r with
  | UploadScan => if isSome (patientData s) then UploadScan else PatientDetails
  | Processing =>
      if isSome (scanData s) then Processing
      else if isSome (patientData s) then UploadScan else PatientDetails
  | Results =>
      if isSome (diagnosisResult s) && isSome (patientData s) then Results
      else Index
  | other => other
  end.

Record Step : Type := { label : string; duration : Z }.

Definition processingSteps : list Step :=
  [ {| label := "Preprocessing image"; duration := 1200 |};
    {| label := "Running AI analysis"; duration := 2200 |};
    {| label := "Generating Grad-CAM"; duration := 1200 |};
    {| label := "Finalizing results"; duration := 800 |} ].

Definition totalDuration : Z :=
  fold_left (fun a s => (a + duration s)%Z) processingSteps 0%Z.

(** One mounted [ProcessingAnimation]: its [useState] cells, [calledRef],
    and the timers its effect started. [instance] tells mounted instances
    apart, as their closures do. *)
Record Animation : Type := {
  instance : nat;
  currentStep : nat;
  progress : Q;
  error : option string;
  calledRef : bool;
  elapsed : Z;
  progressInterval : bool;
  stepTimers : list nat
}.

Record App : Type := {
  session : Session;
  location : Route;
  animation : option Animation;
  calls : list nat;
  navTimers : nat;
  mounts : nat
}.

Definition initial : App :=
  {| session := empty_session;
     location := Index;
     animation := None;
     calls := [];
     navTimers := 0;
     mounts := 0 |}.

(** The body of the second [useEffect] of a freshly mounted instance whose
    [scanData] is present: the timers start, and the request goes out unless
    there is no file, in which case the [catch] and [finally] clauses run at
    once. *)
Definition start (id : nat) (scan : ScanData) : Animation * bool :=
  match file scan with
  | Some _ =>
      ({| instance := id; currentStep := 0; progress := 0; error := None;
          calledRef := true; elapsed := 0; progressInterval := true;
          stepTimers := seq 0 (List.length processingSteps) |}, true)
  | None =>
      ({| instance := id; currentStep := 0; progress := 0;
          error := Some "No scan file available.";
          calledRef := true; elapsed := 0; progressInterval := false;
          stepTimers := [] |}, false)
  end.

(** [navigate(r)] followed by the render it causes: the pages' redirects,
    the clean-up of an instance that unmounts, the effect of one that
    mounts. Timers of [setTimeout(() => navigate('/results'), 500)] and
    requests in flight belong to no clean-up and stay. *)
Definition navigate (r : Route) (a : App) : App :=
  let target := redirect (session a) r in
  match target, location a, scanData (session a) with
  | Processing, Processing, _ => a
  | Processing, _, Some scan =>
      let (anim, called) := start (mounts a) scan in
      {| session := session a;
         location := Processing;
         animation := Some anim;
         calls := if called then calls a ++ [mounts a] else calls a;
         navTimers := navTimers a;
         mounts := S (mounts a) |}
  | _, _, _ =>
      {| session := session a;
         location := target;
         animation := None;
         calls := calls a;
         navTimers := navTimers a;
         mounts := mounts a |}
  end.

Definition with_session (s : Session) (a : App) : App :=
  {| session := s;
     location := location a;
     animation := animation a;
     calls := calls a;
     navTimers := navTimers a;
     mounts := mounts a |}.

Definition with_animation (p : option Animation) (a : App) : App :=
  {| session := session a;
     location := location a;
     animation := p;
     calls := calls a;
     navTimers := navTimers a;
     mounts := mounts a |}.

(** [hasValidScan] *)
Definition hasValidScan (d : ScanData) : bool :=
  match uploadMethod d with
  | Some method_file => isSome (file d)
  | Some method_camera => isSome (capturedImage d)
  | None => false
  end.

(** What can happen next: a user action on the page shown, a timer firing,
    or a request in flight settling. *)
Inductive Event : Type :=
| SubmitPatient (p : value)
| Analyze (d : ScanData)
| NewDiagnosis
| TryAgain
| Go (r : Route)
| Tick
| StepTimer (idx : nat)
| Settle (id : nat) (result : outcome DiagnosisApiResult)
| NavTimer.

Definition remove_id (id : nat) (l : list nat) : list nat :=
  filter (fun x => negb (Nat.eqb x id)) l.

(** The continuation of [await submitDiagnosis(...)] in the instance
    [id], as far as that instance's own state goes; the setters of an
    instance that is no longer mounted do nothing. *)
Definition settle_animation (id : nat) (result : outcome DiagnosisApiResult)
  (p : Animation) : Animation :=
  if Nat.eqb (instance p) id then
    match result with
    | Resolved _ =>
        {| instance := instance p; currentStep := currentStep p;
           progress := 100; error := error p; calledRef := calledRef p;
           elapsed := elapsed p; progressInterval := false; stepTimers := [] |}
    | Rejected message =>
        {| instance := instance p; currentStep := currentStep p;
           progress := progress p; error := Some message;
           calledRef := calledRef p; elapsed := elapsed p;
           progressInterval := false; stepTimers := [] |}
    end
  else p.

(** The callback of [setInterval(..., 50)]. *)
Definition tick (p : Animation) : Animation :=
  if progressInterval p then
    let elapsed' := (elapsed p + 50)%Z in
    {| instance := instance p; currentStep := currentStep p;
       progress := Qmin (inject_Z elapsed' / inject_Z totalDuration * 90) 90;
       error := error p; calledRef := calledRef p;
       elapsed := elapsed'; progressInterval := true;
       stepTimers := stepTimers p |}
  else p.

Definition step_timer (idx : nat) (p : Animation) : Animation :=
  if existsb (Nat.eqb idx) (stepTimers p) then
    {| instance := instance p; currentStep := idx;
       progress := progress p; error := error p; calledRef := calledRef p;
       elapsed := elapsed p; progressInterval := progressInterval p;
       stepTimers := remove_id idx (stepTimers p) |}
  else p.

Definition step (e : Event) (a : App) : App :=
  match e with
  | SubmitPatient p =>
      if Route_eqb (location a) PatientDetails
      then navigate UploadScan (with_session (setPatientData p (session a)) a)
      else a
  | Analyze d =>
      if Route_eqb (location a) UploadScan && hasValidScan d
      then navigate Processing (with_session (setScanData d (session a)) a)
      else a
  | NewDiagnosis =>
      if Route_eqb (location a) Results
      then navigate PatientDetails
             (with_session (resetDiagnosis (session a)) a)
      else a
  | TryAgain =>
      match location a, animation a with
      | Processing, Some p =>
          if isSome (error p) then navigate UploadScan a else a
      | _, _ => a
      end
  | Go r => navigate r a
  | Tick => with_animation (option_map tick (animation a)) a
  | StepTimer idx => with_animation (option_map (step_timer idx) (animation a)) a
  | Settle id result =>
      if existsb (Nat.eqb id) (calls a) then
        let a1 :=
          {| session := session a;
             location := location a;
             animation := option_map (settle_animation id result) (animation a);
             calls := remove_id id (calls a);
             navTimers := navTimers a;
             mounts := mounts a |} in
        match result with
        | Resolved apiResult =>
            {| session := setDiagnosisResult (to_result apiResult) (session a1);
               location := location a1;
               animation := animation a1;
               calls := calls a1;
               navTimers := S (navTimers a1);
               mounts := mounts a1 |}
        | Rejected _ => a1
        end
      else a
  | NavTimer =>
      match navTimers a with
      | O => a
      | S n =>
          navigate Results
            {| session := session a;
               location := location a;
               animation := animation a;
               calls := calls a;
               navTimers := n;
               mounts := mounts a |}
      end
  end.

Definition run (events : list Event) (a : App) : App :=
  fold_left (fun acc e => step e acc) events a.

(** The entry guard of the page shown: the upload step wants patient data,
    the processing step scan data, the results a result and patient data. *)
Definition guarded (a : App) : bool :=
  match location a with
  | UploadScan => isSome (patientData (session a))
  | Processing => isSome (scanData (session a))
  | Results =>
      isSome (diagnosisResult (session a)) && isSome (patientData (session a))
  | _ => true
  end.

(** The indicator shows at most 90, or exactly 100. *)
Definition capped (p : Animation) : Prop :=
  (progress p <= 90)%Q \/ progress p = 100%Q.

End Client.

(** ** What the design document asks of a diagnosis *)

Module Spec.
Import JS.

(** The closed set of labels, in the order [DiseaseClass] lists them. *)
Definition canonical_classes : list string :=
  ["Normal"; "Pneumonia"; "COVID-19"; "Lung Opacity"; "Tuberculosis"].

Fixpoint rank (c : string) (l : list string) : nat :=
  match l with
  | [] => 0
  | x :: rest => if String.eqb x c then 0 else S (rank c rest)
  end.

(** The invariant of a [DiagnosisResult], in the document's words: the
    predicted class is a key of the distribution, no key has a larger
    value, and among the keys with that value it comes first in the
    canonical order. *)
Definition predicted_is_argmax (cls probs : value) : Prop :=
  exists c fields p,
    cls = VStr c /\ probs = VObj fields /\
    lookup c fields = Some (VNum p) /\
    (forall k q, lookup k fields = Some (VNum q) -> (q <= p)%Qc) /\
    (forall k q, lookup k fields = Some (VNum q) -> q = p ->
                 rank c canonical_classes <= rank k canonical_classes).

End Spec.

(** ** Sample runs *)

Module Sample.
Import JS Server.

Definition image : File :=
  {| buffer := "PNG"; originalname := "chest.png";
     mimetype := "image/png"; size := 3 |}.

Definition with_image : DiagnoseRequest :=
  {| file := Some image; patientData := Some "{}" |}.

Definition without_image : DiagnoseRequest :=
  {| file := None; patientData := Some "{}" |}.

Definition fresh : State :=
  {| store := []; console := []; upstream_calls := [] |}.

Definition parse (s : string) : option value :=
  if String.eqb s "{}" then Some (VObj []) else None.

Definition world (answer : outcome value) (db : outcome unit) : World :=
  {| JSON_parse := parse;
     callPythonAPI := fun _ => answer;
     uuidv4 := "7d4a";
     ScanRecord_create := fun _ => db;
     Date_now := 1700000000000;
     toISOString_now := "2023-11-14T22:13:20.000Z" |}.

Definition tenth (n : Z) : value := VNum (Q2Qc (n # 10)).

(** An upstream answer without [severity] whose predicted class is the
    largest entry of its distribution. *)
Definition pneumonia : value :=
  VObj [ ("predicted_class", VStr "Pneumonia");
         ("confidence", tenth 8);
         ("probabilities",
          VObj [("Normal", tenth 1); ("Pneumonia", tenth 8);
                ("COVID-19", tenth 1)]);
         ("affected_regions", VArr [VStr "Right lower lobe"]);
         ("recommendations", VArr [VStr "Consult a pulmonologist"]);
         ("demo_mode", VBool false) ].

(** A well-formed upstream answer whose predicted class is not the largest
    entry of its distribution. *)
Definition inconsistent : value :=
  VObj [ ("predicted_class", VStr "Normal");
         ("confidence", tenth 1);
         ("probabilities",
          VObj [("Normal", tenth 1); ("Pneumonia", tenth 9)]);
         ("affected_regions", VArr []);
         ("recommendations", VArr [VStr "Routine follow-up"]);
         ("demo_mode", VBool false) ].

(** An upstream answer in demo mode that supplies a severity of its own. *)
Definition flagged : value :=
  VObj [ ("predicted_class", VStr "Normal");
         ("confidence", tenth 9);
         ("severity", VStr "High");
         ("probabilities", VObj [("Normal", tenth 9); ("Pneumonia", tenth 1)]);
         ("affected_regions", VArr []);
         ("recommendations", VArr [VStr "Routine follow-up"]);
         ("demo_mode", VBool true) ].

Definition inconsistent_response : DiagnosisResponse :=
  {| Resp.scanId := "7d4a";
     Resp.predicted_class := VStr "Normal";
     Resp.confidence := tenth 1;
     Resp.severity := VStr "Low";
     Resp.probabilities :=
       VObj [("Normal", tenth 1); ("Pneumonia", tenth 9)];
     Resp.affected_regions := VArr [];
     Resp.recommendations := VArr [VStr "Routine follow-up"];
     Resp.demo_mode := VBool false;
     Resp.created_at := "2023-11-14T22:13:20.000Z" |}.

Definition pneumonia_response : DiagnosisResponse :=
  {| Resp.scanId := "7d4a";
     Resp.predicted_class := VStr "Pneumonia";
     Resp.confidence := tenth 8;
     Resp.severity := VStr "Medium";
     Resp.probabilities :=
       VObj [("Normal", tenth 1); ("Pneumonia", tenth 8);
             ("COVID-19", tenth 1)];
     Resp.affected_regions := VArr [VStr "Right lower lobe"];
     Resp.recommendations := VArr [VStr "Consult a pulmonologist"];
     Resp.demo_mode := VBool false;
     Resp.created_at := "2023-11-14T22:13:20.000Z" |}.

(** A database that answers, with a clock and a date parser that knows one
    date. *)
Definition mongo : Mongo :=
  {| db_error := None;
     Date_parse := fun s =>
       if String.eqb s "2023-11-14" then Some 1699920000000%Z else None;
     find_irregular := fun _ _ _ _ => Rejected "irregular query";
     now := 1700000000000 |}.

(** The record stored [i] milliseconds after time 1000. *)
Definition scan (cls : string) (conf : Z) (i : nat) : ScanRecord :=
  {| Doc.scanId := String (ascii_of_nat (64 + i)) "";
     Doc.patient := VObj [];
     Doc.result :=
       {| Doc.predictedClass := VStr cls;
          Doc.confidence := tenth conf;
          Doc.severity := VUndefined;
          Doc.probabilities := VObj [];
          Doc.affectedRegions := VArr [];
          Doc.recommendations := VArr [];
          Doc.demoMode := VBool false |};
     Doc.imageMeta :=
       {| Doc.originalName := "chest.png";
          Doc.mimetype := "image/png";
          Doc.sizeByes := 3 |};
     Doc.createdAt := 1000 + Z.of_nat i |}.

(** Twenty-five records, oldest first. *)
Definition twenty_five : State :=
  {| store := map (scan "Normal" 9) (seq 1 25);
     console := [];
     upstream_calls := [] |}.

Definition second_page_of_ten : HistoryQuery :=
  {| q_page := Some "2"; q_limit := Some "10"; q_class := None;
     q_dateFrom := None; q_dateTo := None |}.

(** A database that reads a limit of 0 as no limit, which is what MongoDB
    documents for [cursor.limit(0)]. *)
Definition unlimited : Mongo :=
  {| db_error := None;
     Date_parse := fun _ => None;
     find_irregular := fun flt skip limit docs =>
       match skip, limit with
       | Some s, Some 0%Z =>
           if (0 <=? s)%Z
           then Resolved (skipn (Z.to_nat s) (newest_first flt docs),
                          countDocuments flt docs)
           else Rejected "irregular query"
       | _, _ => Rejected "irregular query"
       end;
     now := 1700000000000 |}.

(** A hundred and one records, oldest first. *)
Definition hundred_and_one : State :=
  {| store := map (scan "Normal" 9) (seq 1 101);
     console := [];
     upstream_calls := [] |}.

(** [GET /api/history?limit=0] *)
Definition limit_zero : HistoryQuery :=
  {| q_page := None; q_limit := Some "0"; q_class := None;
     q_dateFrom := None; q_dateTo := None |}.

(** Three Pneumonia records and one Normal record. *)
Definition four : State :=
  {| store := [ scan "Pneumonia" 8 1; scan "Normal" 9 2;
                scan "Pneumonia" 6 3; scan "Pneumonia" 7 4 ];
     console := [];
     upstream_calls := [] |}.

(** A visit of the client: a first diagnosis completes; the visitor goes
    back to the processing page, which sends the scan again, forward to the
    results, and starts a new diagnosis while that second request is in
    flight. *)
Definition chest : Client.ScanData :=
  {| Client.file := Some {| Client.name := "chest.png";
                            Client.type := "image/png";
                            Client.size := 3 |};
     Client.capturedImage := None;
     Client.uploadMethod := Some Client.method_file |}.

Definition answer (cls : string) : Client.DiagnosisApiResult :=
  {| Client.api_scanId := VStr "7d4a";
     Client.predicted_class := VStr cls;
     Client.api_confidence := tenth 8;
     Client.api_severity := VStr "Medium";
     Client.api_probabilities := VObj [(cls, tenth 8)];
     Client.affected_regions := VArr [];
     Client.api_recommendations := VArr [VStr "Consult a pulmonologist"];
     Client.heatmap_b64 := VUndefined;
     Client.demo_mode := VBool false |}.

Definition first_patient : value := VObj [("fullName", VStr "Ada")].
Definition second_patient : value := VObj [("fullName", VStr "Grace")].

Definition until_second_request : list Client.Event :=
  [ Client.Go Client.PatientDetails;
    Client.SubmitPatient first_patient;
    Client.Analyze chest;
    Client.Settle 0 (Resolved (answer "Normal"));
    Client.NavTimer;
    Client.Go Client.Processing;
    Client.Go Client.Results ].

Definition until_reset : list Client.Event :=
  until_second_request ++ [Client.NewDiagnosis].

Definition stale_completion : list Client.Event :=
  [ Client.SubmitPatient second_patient;
    Client.Settle 1 (Resolved (answer "Pneumonia"));
    Client.NavTimer ].

End Sample.

(** ** Further parts of the backend *)

(** Text the code builds or takes apart with JavaScript's built-ins. *)
Module Text.

(** The decimal digits of a positive integer, most significant first, put in
    front of [rest]. *)
Fixpoint decimal (fuel : nat) (n : Z) (rest : string) : string :=
  match fuel with
  | O => rest
  | S fuel' =>
      let rest' := String (ascii_of_nat (48 + Z.to_nat (n mod 10))) rest in
      if (n / 10 =? 0)%Z then rest' else decimal fuel' (n / 10) rest'
  end.

(** [String(n)] and [`${n}`] for an integer [n] (below 10^21 in size, where
    JavaScript switches to exponent notation). *)
Definition String_of_Z (z : Z) : string :=
  match z with
  | Z0 => "0"
  | Zpos p => decimal (Pos.size_nat p) z ""
  | Zneg p => String "-"%char (decimal (Pos.size_nat p) (Zpos p) "")
  end.

(** [`${n}`] for the result of [parseInt]. *)
Definition show (n : Server.number) : string :=
  match n with
  | Some z => String_of_Z z
  | None => "NaN"
  end.

(** Whether [s] holds white space only. *)
Fixpoint all_spaces (s : string) : bool :=
  match s with
  | EmptyString => true
  | String c0 rest =>
      if Server.is_space c0 then all_spaces rest
      else if Nat.eqb (nat_of_ascii c0) 194 then
        match rest with
        | String c1 rest1 => Server.space2 c0 c1 && all_spaces rest1
        | EmptyString => false
        end
      else if Server.lead3 c0 then
        match rest with
        | String c1 (String c2 rest2) =>
            Server.space3 c0 c1 c2 && all_spaces rest2
        | _ => false
        end
      else false
  end.

(** [s.trimEnd()]: what is left when the longest suffix of white space is
    taken off. *)
Fixpoint trim_end (s : string) : string :=
  match s with
  | EmptyString => EmptyString
  | String c rest => if all_spaces s then EmptyString else String c (trim_end rest)
  end.

(** [s.trim()] *)
Definition trim (s : string) : string := trim_end (Server.trim_start s).

End Text.

(** The middleware in front of the diagnose handler, the error handler
    behind it, and the health route. *)
Module Http.
Import JS Server.

(** [const allowed = ['image/jpeg', 'image/png', 'image/webp']] *)
Definition allowed : list string := ["image/jpeg"; "image/png"; "image/webp"].

(** Multer's [fileFilter]: [None] is [cb(null, true)], [Some message] is
    [cb(new Error(message))]. *)
Definition fileFilter (mimetype : string) : option string :=
  if existsb (String.eqb mimetype) allowed then None
  else Some (String.append "Only JPEG, PNG, or WebP images are accepted (got "
               (String.append mimetype ")")).

(** [parseInt(process.env.MAX_FILE_SIZE_MB || '10', 10)] *)
Definition MAX_MB (env : option string) : number :=
  parseInt (param_or env "10").

(** An error passed to [next]: a [MulterError] has a [code]. *)
Record HttpError : Type := {
  code : option string;
  message : string
}.

(** [app.use((err, _req, res, _next) => ...)]: the answer, and what
    [console.error] prints. *)
Definition error_handler {A : Type} (max_mb : number) (err : HttpError)
  : Reply A * list string :=
  match code err with
  | Some c =>
      if String.eqb c "LIMIT_FILE_SIZE"
      then (Err 413
              (String.append "File too large. Maximum is "
                 (String.append (Text.show max_mb) " MB.")) None,
            [])
      else (Err 500 (message err) None, [message err])
  | None => (Err 500 (message err) None, [message err])
  end.

(** What the multipart body holds under the field [image]: nothing, or a
    file part. Whether the part runs over [limits.fileSize] is for Multer's
    parser to say. *)
Inductive Upload : Type :=
| NoFile
| FilePart (f : File) (over_limit : bool).

(** The server with the lines of the error handler's [console.error]. *)
Record Node : Type := {
  app : State;
  errors : list string
}.

(** [upload.single('image')], then the handler or the error handler: the
    filter sees the part's media type before its bytes are read. *)
Definition post_diagnose (env : option string) (w : World) (up : Upload)
  (patientData : option string) (n : Node)
  : Reply DiagnosisResponse * Node :=
  let handle (file : option File) :=
    let (reply, st) :=
      diagnose w {| file := file; patientData := patientData |} (app n) in
    (reply, {| app := st; errors := errors n |}) in
  let fail (err : HttpError) :=
    let (reply, lines) := error_handler (MAX_MB env) err in
    (reply, {| app := app n; errors := errors n ++ lines |}) in
  match up with
  | NoFile => handle None
  | FilePart f over_limit =>
      match fileFilter (mimetype f) with
      | Some message => fail {| code := None; message := message |}
      | None =>
          if over_limit
          then fail {| code := Some "LIMIT_FILE_SIZE"; message := "File too large" |}
          else handle (Some f)
      end
  end.

(** The own enumerable properties an object spread copies. *)
Fixpoint indexed (i : Z) (xs : list value) : list (string * value) :=
  match xs with
  | [] => []
  | x :: rest => (Text.String_of_Z i, x) :: indexed (i + 1) rest
  end.

Fixpoint characters (s : string) : list value :=
  match s with
  | EmptyString => []
  | String c rest => VStr (String c EmptyString) :: characters rest
  end.

Definition own_properties (v : value) : list (string * value) :=
  match v with
  | VObj fields => fields
  | VArr xs => indexed 0 xs
  | VStr s => indexed 0 (characters s)
  | _ => []
  end.

(** Setting a property: an existing key keeps its place. *)
Fixpoint put (k : string) (v : value) (fields : list (string * value))
  : list (string * value) :=
  match fields with
  | [] => [(k, v)]
  | (k', v') :: rest =>
      if String.eqb k k' then (k, v) :: rest else (k', v') :: put k v rest
  end.

(** [{ ...base, ...v }] as a map from keys to values; the order in which a
    JavaScript engine lists integer keys is not modelled. *)
Definition spread (base : list (string * value)) (v : value)
  : list (string * value) :=
  fold_left (fun acc kv => put (fst kv) (snd kv) acc) (own_properties v) base.

Record Health : Type := {
  node : list (string * value);
  python : list (string * value);
  mongo : list (string * value)
}.

(** [app.get('/api/health', ...)]: [python] is what the request to the
    inference service settled to, [readyState] Mongoose's connection state. *)
Definition health (python : outcome value) (uptime : Qc) (readyState : Z)
  : Reply Health :=
  let (pythonStatus, pythonData) :=
    match python with
    | Resolved data => ("ok", data)
    | Rejected _ => ("unreachable", VNull)
    end in
  Ok {| node := [("status", VStr "ok"); ("uptime", VNum uptime)];
        python := spread [("status", VStr pythonStatus)] pythonData;
        mongo := [("status",
                   VStr (if (readyState =? 1)%Z then "connected"
                         else "disconnected"))] |}.

End Http.

(** ** Further parts of the client *)

(** [lib/api.ts] *)
Module Api.
Import JS.

(** [JSON.stringify]: [None] where the value is left out. *)
Fixpoint jsonify (v : value) : option value :=
  match v with
  | VUndefined => None
  | VArr xs =>
      Some (VArr (map (fun x => match jsonify x with
                                | Some y => y
                                | None => VNull
                                end) xs))
  | VObj fields =>
      Some (VObj (flat_map (fun kv => match jsonify (snd kv) with
                                      | Some y => [(fst kv, y)]
                                      | None => []
                                      end) fields))
  | other => Some other
  end.

Definition json_fields (fields : list (string * value)) : value :=
  match jsonify (VObj fields) with
  | Some v => v
  | None => VNull
  end.

(** The body [res.json] sends for a diagnosis. *)
Definition to_json (r : Server.DiagnosisResponse) : value :=
  json_fields
    [ ("scanId", VStr (Server.Resp.scanId r));
      ("predicted_class", Server.Resp.predicted_class r);
      ("confidence", Server.Resp.confidence r);
      ("severity", Server.Resp.severity r);
      ("probabilities", Server.Resp.probabilities r);
      ("affected_regions", Server.Resp.affected_regions r);
      ("recommendations", Server.Resp.recommendations r);
      ("demo_mode", Server.Resp.demo_mode r);
      ("created_at", VStr (Server.Resp.created_at r)) ].

(** Reading a property of the parsed body. *)
Definition read (body : value) (k : string) : value :=
  match prop body k with
  | Some x => x
  | None => VUndefined
  end.

(** The parsed body seen as a [DiagnosisApiResult]. *)
Definition of_json (body : value) : Client.DiagnosisApiResult :=
  {| Client.api_scanId := read body "scanId";
     Client.predicted_class := read body "predicted_class";
     Client.api_confidence := read body "confidence";
     Client.api_severity := read body "severity";
     Client.api_probabilities := read body "probabilities";
     Client.affected_regions := read body "affected_regions";
     Client.api_recommendations := read body "recommendations";
     Client.heatmap_b64 := read body "heatmap_b64";
     Client.demo_mode := read body "demo_mode" |}.

(** [response.ok] *)
Definition ok (status : Z) : bool := (200 <=? status)%Z && (status <=? 299)%Z.

(** [submitDiagnosis]: [fetched] is what [fetch] settled to, a network
    failure or the backend's reply. *)
Definition submitDiagnosis
  (fetched : outcome (Server.Reply Server.DiagnosisResponse))
  : outcome Client.DiagnosisApiResult :=
  match fetched with
  | Rejected message => Rejected message
  | Resolved (Server.Ok r) => Resolved (of_json (to_json r))
  | Resolved (Server.Err status error _) =>
      if ok status
      then Resolved (of_json (VObj [("error", VStr error)]))
      else Rejected (if String.eqb error ""
                     then String.append "Server error " (Text.String_of_Z status)
                     else error)
  end.

Record HistoryParams : Type := {
  page : option Z;
  limit : option Z;
  class : option string
}.

Definition nonzero (n : option Z) : option string :=
  match n with
  | Some z => if (z =? 0)%Z then None else Some (Text.String_of_Z z)
  | None => None
  end.

(** The query string [fetchHistory] builds: a parameter that is missing,
    zero or empty is not sent. What [URLSearchParams] encodes Express
    decodes, so each value arrives as it was set. *)
Definition fetchHistory_query (params : option HistoryParams)
  : Server.HistoryQuery :=
  match params with
  | Some p =>
      {| Server.q_page := nonzero (page p);
         Server.q_limit := nonzero (limit p);
         Server.q_class := Server.nonempty (class p);
         Server.q_dateFrom := None;
         Server.q_dateTo := None |}
  | None =>
      {| Server.q_page := None; Server.q_limit := None;
         Server.q_class := None;
         Server.q_dateFrom := None; Server.q_dateTo := None |}
  end.

(** [fetchHistory] against the backend: the page is given as the handler
    built it, before [res.json] serialises it. *)
Definition fetchHistory (m : Server.Mongo) (params : option HistoryParams)
  (st : Server.State) : outcome Server.HistoryPage :=
  match Server.history m (fetchHistory_query params) st with
  | Server.Ok pg => Resolved pg
  | Server.Err _ _ _ => Rejected "Failed to fetch history"
  end.

End Api.

(** [components/diagnosis/PatientForm.tsx] *)
Module Form.
Import JS.

Record PatientData : Type := {
  fullName : string;
  age : Z;
  gender : string;
  phone : string;
  email : string;
  symptoms : list string;
  otherSymptoms : string;
  existingConditions : string;
  consentGiven : bool
}.

Definition symptomOptions : list string :=
  [ "Persistent cough"; "Shortness of breath"; "Chest pain"; "Wheezing";
    "Coughing up blood"; "Fatigue"; "Weight loss"; "Fever"; "Night sweats" ].

(** The initial [formData]. *)
Definition empty : PatientData :=
  {| fullName := ""; age := 0; gender := "male"; phone := ""; email := "";
     symptoms := []; otherSymptoms := ""; existingConditions := "";
     consentGiven := false |}.

(** The keys of [newErrors], in the order [validateForm] sets them; the
    message of a key is shown under its field. *)
Definition validateForm (formData : PatientData) : list string :=
  (if String.eqb (Text.trim (fullName formData)) "" then ["fullName"] else [])
  ++ (if (age formData =? 0)%Z || (age formData <? 1)%Z
         || (120 <? age formData)%Z
      then ["age"] else [])
  ++ (if String.eqb (Text.trim (phone formData)) "" then ["phone"] else [])
  ++ (if String.eqb (Text.trim (email formData)) "" then ["email"] else [])
  ++ (if negb (consentGiven formData) then ["consent"] else []).

(** The [onChange] of the age field: [parseInt(e.target.value) || 0]. The
    value of a number input holds no hexadecimal prefix, so the radix is
    10. *)
Definition set_age (input : string) (formData : PatientData) : PatientData :=
  {| fullName := fullName formData;
     age := match Server.parseInt input with
            | Some z => z
            | None => 0
            end;
     gender := gender formData;
     phone := phone formData;
     email := email formData;
     symptoms := symptoms formData;
     otherSymptoms := otherSymptoms formData;
     existingConditions := existingConditions formData;
     consentGiven := consentGiven formData |}.

(** [prev.symptoms.includes(symptom) ? prev.symptoms.filter(s => s !== symptom)
     : [...prev.symptoms, symptom]] *)
Definition toggle (symptom : string) (chosen : list string) : list string :=
  if existsb (String.eqb symptom) chosen
  then filter (fun s => negb (String.eqb s symptom)) chosen
  else chosen ++ [symptom].

Definition handleSymptomToggle (symptom : string) (formData : PatientData)
  : PatientData :=
  {| fullName := fullName formData;
     age := age formData;
     gender := gender formData;
     phone := phone formData;
     email := email formData;
     symptoms := toggle symptom (symptoms formData);
     otherSymptoms := otherSymptoms formData;
     existingConditions := existingConditions formData;
     consentGiven := consentGiven formData |}.

(** The form data as the value the context keeps and [submitDiagnosis]
    serialises. *)
Definition to_value (formData : PatientData) : value :=
  VObj [ ("fullName", VStr (fullName formData));
         ("age", VNum (Q2Qc (inject_Z (age formData))));
         ("gender", VStr (gender formData));
         ("phone", VStr (phone formData));
         ("email", VStr (email formData));
         ("symptoms", VArr (map VStr (symptoms formData)));
         ("otherSymptoms", VStr (otherSymptoms formData));
         ("existingConditions", VStr (existingConditions formData));
         ("consentGiven", VBool (consentGiven formData)) ].

Inductive Toast : Type :=
| toast_success (message : string)
| toast_error (message : string).

(** The component's state: [formData] and [errors]. *)
Record State : Type := {
  formData : PatientData;
  errors : list string
}.

Definition initial : State := {| formData := empty; errors := [] |}.

(** [handleSubmit] *)
Definition handleSubmit (f : State) (a : Client.App)
  : State * Client.App * Toast :=
  let newErrors := validateForm (formData f) in
  let f' := {| formData := formData f; errors := newErrors |} in
  if Nat.eqb (List.length newErrors) 0
  then (f',
        Client.navigate Client.UploadScan
          (Client.with_session
             (Client.setPatientData (to_value (formData f)) (Client.session a))
             a),
        toast_success "Patient details saved")
  else (f', a, toast_error "Please fix the errors in the form").

End Form.

(** [components/diagnosis/ScanUploader.tsx] *)
Module Uploader.

(** The component's [useState] cells and refs. [stream] tells whether
    [streamRef.current] holds a stream, [cameraRequests] and [readers] count
    the calls of [getUserMedia] and the [FileReader]s that have not settled
    yet. *)
Record State : Type := {
  uploadMethod : option Client.UploadMethod;
  selectedFile : option Client.File;
  previewUrl : option string;
  isCameraActive : bool;
  capturedImage : option string;
  stream : bool;
  cameraRequests : nat;
  readers : nat
}.

Definition initial : State :=
  {| uploadMethod := None; selectedFile := None; previewUrl := None;
     isCameraActive := false; capturedImage := None; stream := false;
     cameraRequests := 0; readers := 0 |}.

Definition validTypes : list string :=
  ["image/jpeg"; "image/png"; "image/webp"; "application/pdf"].

(** [20 * 1024 * 1024] *)
Definition maxSize : Z := 20 * 1024 * 1024.

(** [videoRef.current] is set while the [video] element is rendered, which
    the component does under [uploadMethod === 'camera' && isCameraActive].
    The moment an exit animation may keep a view that was shown is not
    modelled. *)
Definition videoRef (st : State) : bool :=
  match uploadMethod st with
  | Some Client.method_camera => isCameraActive st
  | _ => false
  end.

Inductive Toast : Type :=
| toast_error (message : string).

(** [handleFileSelect] with [e.target.files?.[0]] *)
Definition handleFileSelect (chosen : option Client.File) (st : State)
  : State * list Toast :=
  match chosen with
  | None => (st, [])
  | Some file =>
      if negb (existsb (String.eqb (Client.type file)) validTypes)
      then (st, [toast_error "Please upload a valid image (JPG, PNG) or PDF file"])
      else if (maxSize <? Client.size file)%Z
      then (st, [toast_error "File size must be less than 20MB"])
      else
        let image := String.prefix "image/" (Client.type file) in
        ({| uploadMethod := Some Client.method_file;
            selectedFile := Some file;
            previewUrl := if image then previewUrl st else None;
            isCameraActive := isCameraActive st;
            capturedImage := capturedImage st;
            stream := stream st;
            cameraRequests := cameraRequests st;
            readers := if image then S (readers st) else readers st |},
         [])
  end.

(** [stopCamera] *)
Definition stopCamera (st : State) : State :=
  {| uploadMethod := uploadMethod st;
     selectedFile := selectedFile st;
     previewUrl := previewUrl st;
     isCameraActive := false;
     capturedImage := capturedImage st;
     stream := false;
     cameraRequests := cameraRequests st;
     readers := readers st |}.

(** [startCamera] up to its [await]. *)
Definition startCamera (st : State) : State :=
  {| uploadMethod := uploadMethod st;
     selectedFile := selectedFile st;
     previewUrl := previewUrl st;
     isCameraActive := isCameraActive st;
     capturedImage := capturedImage st;
     stream := stream st;
     cameraRequests := S (cameraRequests st);
     readers := readers st |}.

(** [startCamera] after [getUserMedia] resolved. *)
Definition cameraGranted (st : State) : State :=
  match cameraRequests st with
  | O => st
  | S n =>
      let shown := videoRef st in
      {| uploadMethod :=
           if shown then Some Client.method_camera else uploadMethod st;
         selectedFile := selectedFile st;
         previewUrl := previewUrl st;
         isCameraActive := if shown then true else isCameraActive st;
         capturedImage := capturedImage st;
         stream := true;
         cameraRequests := n;
         readers := readers st |}
  end.

(** [startCamera] after [getUserMedia] rejected. *)
Definition cameraDenied (st : State) : State * list Toast :=
  match cameraRequests st with
  | O => (st, [])
  | S n =>
      ({| uploadMethod := uploadMethod st;
          selectedFile := selectedFile st;
          previewUrl := previewUrl st;
          isCameraActive := isCameraActive st;
          capturedImage := capturedImage st;
          stream := stream st;
          cameraRequests := n;
          readers := readers st |},
       [toast_error "Unable to access camera. Please check permissions."])
  end.

(** [capturePhoto]: the canvas is always rendered; [ctx] is what
    [canvas.getContext('2d')] returned, [imageData] what [toDataURL] did. *)
Definition capturePhoto (ctx : bool) (imageData : string) (st : State) : State :=
  if videoRef st && ctx
  then stopCamera
         {| uploadMethod := uploadMethod st;
            selectedFile := selectedFile st;
            previewUrl := previewUrl st;
            isCameraActive := isCameraActive st;
            capturedImage := Some imageData;
            stream := stream st;
            cameraRequests := cameraRequests st;
            readers := readers st |}
  else st.

(** [retakePhoto] *)
Definition retakePhoto (st : State) : State :=
  startCamera
    {| uploadMethod := uploadMethod st;
       selectedFile := selectedFile st;
       previewUrl := previewUrl st;
       isCameraActive := isCameraActive st;
       capturedImage := None;
       stream := stream st;
       cameraRequests := cameraRequests st;
       readers := readers st |}.

(** [resetUpload] *)
Definition resetUpload (st : State) : State :=
  stopCamera
    {| uploadMethod := None;
       selectedFile := None;
       previewUrl := None;
       isCameraActive := isCameraActive st;
       capturedImage := None;
       stream := stream st;
       cameraRequests := cameraRequests st;
       readers := readers st |}.

(** [reader.onload] *)
Definition readerLoaded (url : string) (st : State) : State :=
  match readers st with
  | O => st
  | S n =>
      {| uploadMethod := uploadMethod st;
         selectedFile := selectedFile st;
         previewUrl := Some url;
         isCameraActive := isCameraActive st;
         capturedImage := capturedImage st;
         stream := stream st;
         cameraRequests := cameraRequests st;
         readers := n |}
  end.

(** The argument of [setScanData] in [handleAnalyze]. *)
Definition scanData (st : State) : Client.ScanData :=
  {| Client.file := selectedFile st;
     Client.capturedImage := capturedImage st;
     Client.uploadMethod := uploadMethod st |}.

(** What the visitor or the browser does next on the upload page. Every
    handler may run in every state, also where the page does not show its
    button. *)
Inductive Event : Type :=
| FileChosen (chosen : option Client.File)
| UseCamera
| Granted
| Denied
| Capture (ctx : bool) (imageData : string)
| Retake
| Reset
| Loaded (url : string).

Definition step (e : Event) (st : State) : State :=
  match e with
  | FileChosen chosen => fst (handleFileSelect chosen st)
  | UseCamera => startCamera st
  | Granted => cameraGranted st
  | Denied => fst (cameraDenied st)
  | Capture ctx imageData => capturePhoto ctx imageData st
  | Retake => retakePhoto st
  | Reset => resetUpload st
  | Loaded url => readerLoaded url st
  end.

Definition run (events : list Event) (st : State) : State :=
  fold_left (fun acc e => step e acc) events st.

(** The part of the multipart body the browser builds from a [File] whose
    type is not empty: [bytes] are the file's contents. *)
Definition part (bytes : string) (file : Client.File) : Server.File :=
  {| Server.buffer := bytes;
     Server.originalname := Client.name file;
     Server.mimetype := Client.type file;
     Server.size := Client.size file |}.

End Uploader.

(** What holds of the processing page between events: the requests in
    flight are distinct and were sent by instances mounted so far; the page
    is mounted exactly on its route; the step shown is one of the steps;
    while the instance's request is in flight it shows no error, its
    interval runs and its bar is at 90 at most; once there is no request of
    its own in flight its interval and step timers are cleared. *)
Definition processing_invariant (a : Client.App) : Prop :=
  NoDup (Client.calls a) /\
  (forall id, In id (Client.calls a) -> (id < Client.mounts a)%nat) /\
  match Client.animation a with
  | Some p =>
      Client.location a = Client.Processing /\
      (Client.instance p < Client.mounts a)%nat /\
      (Client.currentStep p < List.length Client.processingSteps)%nat /\
      (forall i, In i (Client.stepTimers p) ->
                 (i < List.length Client.processingSteps)%nat) /\
      (In (Client.instance p) (Client.calls a) ->
       Client.error p = None /\ Client.progressInterval p = true /\
       (Client.progress p <= 90)%Q) /\
      (~ In (Client.instance p) (Client.calls a) ->
       Client.progressInterval p = false /\ Client.stepTimers p = [])
  | None => Client.location a <> Client.Processing
  end.

(** * Properties of the backend *)

Import JS Server.

(** ** Reading the upstream answer *)

Lemma prop_None (v : value) (k : string) :
  prop v k = None <-> v = VUndefined \/ v = VNull.
Proof.
  destruct v; simpl; split; intros H;
    try reflexivity; try discriminate; try (now left); try (now right);
    destruct H; discriminate.
Qed.

Lemma prop_any_key (v : value) (k k' : string) (x : value) :
  prop v k = Some x -> exists y, prop v k' = Some y.
Proof.
  destruct v; simpl; intros H; try discriminate; eauto.
Qed.

(** What [response_body] puts in each field when no property read throws. *)
Lemma response_body_fields (w : World) (aiResult : value) (r : DiagnosisResponse) :
  response_body w aiResult = Some r ->
  exists sev dm,
    prop aiResult "severity" = Some sev /\
    prop aiResult "demo_mode" = Some dm /\
    prop aiResult "predicted_class" = Some (Resp.predicted_class r) /\
    prop aiResult "confidence" = Some (Resp.confidence r) /\
    prop aiResult "probabilities" = Some (Resp.probabilities r) /\
    prop aiResult "affected_regions" = Some (Resp.affected_regions r) /\
    prop aiResult "recommendations" = Some (Resp.recommendations r) /\
    Resp.severity r = or_else sev (VStr (_inferSeverity (Resp.predicted_class r))) /\
    Resp.demo_mode r = or_else dm (VBool false) /\
    Resp.scanId r = uuidv4 w /\
    Resp.created_at r = toISOString_now w.
Proof.
  unfold response_body, bind.
  destruct (prop aiResult "predicted_class") as [pc|]; [|discriminate].
  destruct (prop aiResult "confidence") as [cf|]; [|discriminate].
  destruct (prop aiResult "severity") as [sev|]; [|discriminate].
  destruct (prop aiResult "probabilities") as [pr|]; [|discriminate].
  destruct (prop aiResult "affected_regions") as [ar|]; [|discriminate].
  destruct (prop aiResult "recommendations") as [rc|]; [|discriminate].
  destruct (prop aiResult "demo_mode") as [dm|]; [|discriminate].
  intros H; injection H as <-; simpl.
  exists sev, dm; repeat split; reflexivity.
Qed.

Lemma response_body_total (w : World) (aiResult : value) :
  aiResult <> VUndefined -> aiResult <> VNull ->
  exists r, response_body w aiResult = Some r.
Proof.
  intros Hu Hn. unfold response_body, bind.
  destruct aiResult; try congruence; simpl; eauto.
Qed.

(** A successful run, taken apart: there was a file, the patient data
    parsed, the upstream call resolved, and the body is [response_body]. *)
Lemma diagnose_Ok (w : World) (req : DiagnoseRequest) (st st' : State)
  (r : DiagnosisResponse) :
  diagnose w req st = (Ok r, st') ->
  exists f patient aiResult,
    file req = Some f /\
    parse_patient w (patientData req) = Some patient /\
    callPythonAPI w f = Resolved aiResult /\
    response_body w aiResult = Some r /\
    st' = persist w f patient aiResult (record_call f st).
Proof.
  unfold diagnose.
  destruct (file req) as [f|]; [|discriminate].
  destruct (parse_patient w (patientData req)) as [patient|]; [|discriminate].
  destruct (callPythonAPI w f) as [aiResult|message] eqn:Hcall; [|discriminate].
  destruct (response_body w aiResult) as [r0|] eqn:Hbody; [|discriminate].
  intros H; injection H as <- <-.
  exists f, patient, aiResult; repeat split; assumption || reflexivity.
Qed.

(** ** [POST /api/diagnose]: the prediction *)

(** C1 (as amended): a successful [diagnose] hands on the upstream answer's
    [predicted_class] and [probabilities] unchanged, so the predicted class
    is the first largest key of the distribution in the response exactly
    when it is in the upstream answer; the handler itself neither computes
    nor checks it. *)
Theorem diagnose_relays_prediction (w : World) (req : DiagnoseRequest)
  (st st' : State) (r : DiagnosisResponse) :
  diagnose w req st = (Ok r, st') ->
  exists f aiResult,
    file req = Some f /\
    callPythonAPI w f = Resolved aiResult /\
    prop aiResult "predicted_class" = Some (Resp.predicted_class r) /\
    prop aiResult "probabilities" = Some (Resp.probabilities r) /\
    (Spec.predicted_is_argmax (Resp.predicted_class r) (Resp.probabilities r) <->
     exists cls probs,
       prop aiResult "predicted_class" = Some cls /\
       prop aiResult "probabilities" = Some probs /\
       Spec.predicted_is_argmax cls probs).
Proof.
  intros H.
  destruct (diagnose_Ok _ _ _ _ _ H) as (f & patient & aiResult & Hf & _ & Hcall & Hbody & _).
  destruct (response_body_fields _ _ _ Hbody)
    as (sev & dm & _ & _ & Hpc & _ & Hpr & _).
  exists f, aiResult. repeat split; try assumption.
  - intros Hmax. exists (Resp.predicted_class r), (Resp.probabilities r). auto.
  - intros (cls & probs & Hc & Hp & Hmax). congruence.
Qed.

Lemma diagnose_relays_prediction_witness :
  exists f aiResult,
    file Sample.with_image = Some f /\
    callPythonAPI (Sample.world (Resolved Sample.pneumonia) (Resolved tt)) f
      = Resolved aiResult /\
    prop aiResult "predicted_class"
      = Some (Resp.predicted_class Sample.pneumonia_response) /\
    prop aiResult "probabilities"
      = Some (Resp.probabilities Sample.pneumonia_response) /\
    (Spec.predicted_is_argmax (Resp.predicted_class Sample.pneumonia_response)
       (Resp.probabilities Sample.pneumonia_response) <->
     exists cls probs,
       prop aiResult "predicted_class" = Some cls /\
       prop aiResult "probabilities" = Some probs /\
       Spec.predicted_is_argmax cls probs).
Proof.
  apply (diagnose_relays_prediction
           (Sample.world (Resolved Sample.pneumonia) (Resolved tt))
           Sample.with_image Sample.fresh
           (snd (diagnose (Sample.world (Resolved Sample.pneumonia) (Resolved tt))
                   Sample.with_image Sample.fresh))
           Sample.pneumonia_response).
  reflexivity.
Defined.

(** C1 (as stated) fails: the upstream answers with class Normal at 0.1
    beside Pneumonia at 0.9, and the 200 response carries both as they
    came. *)
Lemma diagnose_relays_inconsistent_upstream :
  fst (diagnose (Sample.world (Resolved Sample.inconsistent) (Resolved tt))
         Sample.with_image Sample.fresh)
    = Ok Sample.inconsistent_response /\
  ~ Spec.predicted_is_argmax
      (Resp.predicted_class Sample.inconsistent_response)
      (Resp.probabilities Sample.inconsistent_response).
Proof.
  split; [reflexivity|].
  intros (c & fields & p & Hc & Hf & Hl & Hmax & _).
  simpl in Hc, Hf. injection Hc as <-. injection Hf as <-.
  simpl in Hl. injection Hl as <-.
  specialize (Hmax "Pneumonia" (Q2Qc (9 # 10)) eq_refl).
  vm_compute in Hmax. apply Hmax. reflexivity.
Qed.

(** ** [POST /api/diagnose]: the severity *)

Lemma _inferSeverity_cases (c : string) :
  _inferSeverity (VStr c) =
    if String.eqb c "" then "Low"
    else if String.eqb c "Normal" then "Low"
    else if String.eqb c "Tuberculosis" then "High"
    else if String.eqb c "COVID-19" then "High"
    else "Medium".
Proof.
  unfold _inferSeverity, includes, strict_eq_str. simpl.
  destruct (String.eqb c ""); simpl; [reflexivity|].
  destruct (String.eqb c "Normal"); simpl; [reflexivity|].
  destruct (String.eqb c "Tuberculosis"); simpl; [reflexivity|].
  destruct (String.eqb c "COVID-19"); reflexivity.
Qed.

(** A missing, [null] or empty class is given the lowest tier. *)
Lemma _inferSeverity_absent (cls : value) :
  truthy cls = false -> _inferSeverity cls = "Low".
Proof.
  intros H. unfold _inferSeverity. now rewrite H.
Qed.

(** A severity the upstream supplies is handed on as it came. *)
Lemma diagnose_relays_upstream_severity (w : World) (req : DiagnoseRequest)
  (st st' : State) (r : DiagnosisResponse) (f : File) (aiResult sev : value) :
  diagnose w req st = (Ok r, st') ->
  file req = Some f ->
  callPythonAPI w f = Resolved aiResult ->
  prop aiResult "severity" = Some sev ->
  truthy sev = true ->
  Resp.severity r = sev.
Proof.
  intros H Hf Hcall Hsev Ht.
  destruct (diagnose_Ok _ _ _ _ _ H) as (f0 & patient & ai0 & Hf0 & _ & Hcall0 & Hbody & _).
  assert (f0 = f) by congruence; subst f0.
  assert (ai0 = aiResult) by congruence; subst ai0.
  destruct (response_body_fields _ _ _ Hbody) as (sev0 & dm & Hs0 & _ & _ & _ & _ & _ & _ & Hsv & _).
  assert (sev0 = sev) by congruence; subst sev0.
  rewrite Hsv. unfold or_else. now rewrite Ht.
Qed.

(** C2: when the upstream answer carries no severity, the response's
    severity is the fixed function [_inferSeverity] of its predicted class:
    Low for Normal, High for Tuberculosis and COVID-19, Medium for every
    other class label. *)
Theorem diagnose_infers_severity (w : World) (req : DiagnoseRequest)
  (st st' : State) (r : DiagnosisResponse) (f : File) (aiResult sev : value) :
  diagnose w req st = (Ok r, st') ->
  file req = Some f ->
  callPythonAPI w f = Resolved aiResult ->
  prop aiResult "severity" = Some sev ->
  truthy sev = false ->
  Resp.severity r = VStr (_inferSeverity (Resp.predicted_class r)) /\
  (Resp.predicted_class r = VStr "Normal" -> Resp.severity r = VStr "Low") /\
  (Resp.predicted_class r = VStr "Tuberculosis" \/
   Resp.predicted_class r = VStr "COVID-19" -> Resp.severity r = VStr "High") /\
  (forall c, Resp.predicted_class r = VStr c ->
             c <> "" -> c <> "Normal" -> c <> "Tuberculosis" -> c <> "COVID-19" ->
             Resp.severity r = VStr "Medium").
Proof.
  intros H Hf Hcall Hsev Ht.
  destruct (diagnose_Ok _ _ _ _ _ H) as (f0 & patient & ai0 & Hf0 & _ & Hcall0 & Hbody & _).
  assert (f0 = f) by congruence; subst f0.
  assert (ai0 = aiResult) by congruence; subst ai0.
  destruct (response_body_fields _ _ _ Hbody) as (sev0 & dm & Hs0 & _ & _ & _ & _ & _ & _ & Hsv & _).
  assert (sev0 = sev) by congruence; subst sev0.
  assert (Hinf : Resp.severity r = VStr (_inferSeverity (Resp.predicted_class r))).
  { rewrite Hsv. unfold or_else. now rewrite Ht. }
  split; [exact Hinf|]. rewrite Hinf. repeat split.
  - intros ->. reflexivity.
  - intros [-> | ->]; reflexivity.
  - intros c -> H0 H1 H2 H3. rewrite _inferSeverity_cases.
    apply String.eqb_neq in H0, H1, H2, H3. now rewrite H0, H1, H2, H3.
Qed.

Lemma diagnose_infers_severity_witness :
  Resp.severity Sample.pneumonia_response
    = VStr (_inferSeverity (Resp.predicted_class Sample.pneumonia_response)) /\
  (Resp.predicted_class Sample.pneumonia_response = VStr "Normal" ->
   Resp.severity Sample.pneumonia_response = VStr "Low") /\
  (Resp.predicted_class Sample.pneumonia_response = VStr "Tuberculosis" \/
   Resp.predicted_class Sample.pneumonia_response = VStr "COVID-19" ->
   Resp.severity Sample.pneumonia_response = VStr "High") /\
  (forall c, Resp.predicted_class Sample.pneumonia_response = VStr c ->
             c <> "" -> c <> "Normal" -> c <> "Tuberculosis" -> c <> "COVID-19" ->
             Resp.severity Sample.pneumonia_response = VStr "Medium").
Proof.
  apply (diagnose_infers_severity
           (Sample.world (Resolved Sample.pneumonia) (Resolved tt))
           Sample.with_image Sample.fresh
           (snd (diagnose (Sample.world (Resolved Sample.pneumonia) (Resolved tt))
                   Sample.with_image Sample.fresh))
           Sample.pneumonia_response Sample.image Sample.pneumonia VUndefined);
    reflexivity.
Defined.

(** ** [POST /api/diagnose]: persistence *)


Lemma new_record_response (w : World) (f : File) (patient aiResult : value)
  (d : ScanRecord) :
  new_record w f patient aiResult = Some d ->
  exists r, response_body w aiResult = Some r.
Proof.
  intros H. apply response_body_total; intros ->; discriminate H.
Qed.

(** The store after the inner [try]: one record more when [create]
    resolved, the same otherwise. *)
Lemma persist_store (w : World) (f : File) (patient aiResult : value) (st : State) :
  store (persist w f patient aiResult st) =
    match new_record w f patient aiResult with
    | Some d =>
        match ScanRecord_create w d with
        | Resolved _ => store st ++ [d]
        | Rejected _ => store st
        end
    | None => store st
    end.
Proof.
  unfold persist.
  destruct (new_record w f patient aiResult) as [d|]; [|reflexivity].
  destruct (ScanRecord_create w d); [|reflexivity].
  destruct (prop patient "fullName"); reflexivity.
Qed.

Lemma persist_calls (w : World) (f : File) (patient aiResult : value) (st : State) :
  upstream_calls (persist w f patient aiResult st) = upstream_calls st.
Proof.
  unfold persist.
  destruct (new_record w f patient aiResult) as [d|]; [|reflexivity].
  destruct (ScanRecord_create w d); [|reflexivity].
  destruct (prop patient "fullName"); reflexivity.
Qed.

(** C3: when the upstream call resolves with an answer and
    [ScanRecord.create] rejects, [diagnose] still answers 200 with the
    generated [scanId] and the timestamp; the rejection shows only as one
    more line of the console, and the store is as it was. *)
Theorem diagnose_survives_persistence_failure (w : World)
  (req : DiagnoseRequest) (st : State) (f : File) (patient aiResult : value)
  (d : ScanRecord) (message : string) :
  file req = Some f ->
  parse_patient w (patientData req) = Some patient ->
  callPythonAPI w f = Resolved aiResult ->
  new_record w f patient aiResult = Some d ->
  ScanRecord_create w d = Rejected message ->
  exists r,
    diagnose w req st =
      (Ok r,
       {| store := store st;
          console := console st ++ [DB_persist_failed (Error message)];
          upstream_calls := upstream_calls st ++ [f] |}) /\
    status (fst (diagnose w req st)) = 200%Z /\
    Resp.scanId r = uuidv4 w /\
    Resp.created_at r = toISOString_now w.
Proof.
  intros Hf Hp Hcall Hnew Hdb.
  destruct (new_record_response _ _ _ _ _ Hnew) as [r Hbody].
  destruct (response_body_fields _ _ _ Hbody)
    as (sev & dm & _ & _ & _ & _ & _ & _ & _ & _ & _ & Hid & Hat).
  assert (Hrun : diagnose w req st =
      (Ok r,
       {| store := store st;
          console := console st ++ [DB_persist_failed (Error message)];
          upstream_calls := upstream_calls st ++ [f] |})).
  { unfold diagnose. rewrite Hf, Hp, Hcall, Hbody.
    unfold persist. rewrite Hnew, Hdb. reflexivity. }
  exists r. rewrite Hrun. repeat split; assumption.
Qed.

Lemma diagnose_survives_persistence_failure_witness :
  exists r,
    diagnose (Sample.world (Resolved Sample.pneumonia) (Rejected "buffering timed out"))
      Sample.with_image Sample.fresh =
      (Ok r,
       {| store := store Sample.fresh;
          console := console Sample.fresh
                     ++ [DB_persist_failed (Error "buffering timed out")];
          upstream_calls := upstream_calls Sample.fresh ++ [Sample.image] |}) /\
    status (fst (diagnose
                   (Sample.world (Resolved Sample.pneumonia)
                      (Rejected "buffering timed out"))
                   Sample.with_image Sample.fresh)) = 200%Z /\
    Resp.scanId r = "7d4a" /\
    Resp.created_at r = "2023-11-14T22:13:20.000Z".
Proof.
  destruct (new_record
              (Sample.world (Resolved Sample.pneumonia) (Rejected "buffering timed out"))
              Sample.image (VObj []) Sample.pneumonia) as [d|] eqn:Hnew;
    [|discriminate Hnew].
  apply (diagnose_survives_persistence_failure
           (Sample.world (Resolved Sample.pneumonia) (Rejected "buffering timed out"))
           Sample.with_image Sample.fresh Sample.image (VObj []) Sample.pneumonia
           d "buffering timed out");
    solve [reflexivity | exact Hnew].
Defined.

(** C4: without an image [diagnose] answers 400 and leaves the whole state,
    the trace of upstream calls included, as it was, and so it does when the
    patient data is not valid JSON; when the upstream call rejects it
    answers 502 after that one call and the store is as it was; and whatever
    the answer, a run that does not answer 200 leaves the store as it was. *)
Theorem diagnose_persists_only_on_success (w : World) (req : DiagnoseRequest)
  (st : State) :
  (file req = None ->
   diagnose w req st =
     (Err 400 "Image file is required (field name: image)" None, st)) /\
  (parse_patient w (patientData req) = None ->
   status (fst (diagnose w req st)) = 400%Z /\ snd (diagnose w req st) = st) /\
  (forall f patient message,
     file req = Some f ->
     parse_patient w (patientData req) = Some patient ->
     callPythonAPI w f = Rejected message ->
     status (fst (diagnose w req st)) = 502%Z /\
     store (snd (diagnose w req st)) = store st /\
     upstream_calls (snd (diagnose w req st)) = upstream_calls st ++ [f]) /\
  (status (fst (diagnose w req st)) <> 200%Z ->
   store (snd (diagnose w req st)) = store st).
Proof.
  split; [|split; [|split]].
  - intros Hf. unfold diagnose. now rewrite Hf.
  - intros Hp. unfold diagnose. rewrite Hp.
    destruct (file req); split; reflexivity.
  - intros f patient message Hf Hp Hcall.
    unfold diagnose. rewrite Hf, Hp, Hcall. repeat split; reflexivity.
  - unfold diagnose.
    destruct (file req) as [f|]; [|reflexivity].
    destruct (parse_patient w (patientData req)) as [patient|]; [|reflexivity].
    destruct (callPythonAPI w f) as [aiResult|message]; [|reflexivity].
    destruct (response_body w aiResult) as [r|] eqn:Hbody.
    + simpl. intros H. now contradiction H.
    + intros _. simpl. rewrite persist_store.
      destruct (new_record w f patient aiResult) as [d|] eqn:Hnew; [|reflexivity].
      destruct (new_record_response _ _ _ _ _ Hnew) as [r Hr]. congruence.
Qed.

Lemma diagnose_persists_only_on_success_witness :
  diagnose (Sample.world (Rejected "timeout of 60000ms exceeded") (Resolved tt))
    Sample.without_image Sample.fresh
    = (Err 400 "Image file is required (field name: image)" None, Sample.fresh) /\
  status (fst (diagnose
                 (Sample.world (Rejected "timeout of 60000ms exceeded") (Resolved tt))
                 Sample.with_image Sample.fresh)) = 502%Z /\
  store (snd (diagnose
                (Sample.world (Rejected "timeout of 60000ms exceeded") (Resolved tt))
                Sample.with_image Sample.fresh)) = [] /\
  upstream_calls (snd (diagnose
                (Sample.world (Rejected "timeout of 60000ms exceeded") (Resolved tt))
                Sample.with_image Sample.fresh)) = [Sample.image].
Proof.
  split.
  - apply (diagnose_persists_only_on_success
             (Sample.world (Rejected "timeout of 60000ms exceeded") (Resolved tt))
             Sample.without_image Sample.fresh).
    reflexivity.
  - apply (proj1 (proj2 (proj2 (diagnose_persists_only_on_success
             (Sample.world (Rejected "timeout of 60000ms exceeded") (Resolved tt))
             Sample.with_image Sample.fresh)))
             Sample.image (VObj []) "timeout of 60000ms exceeded");
      reflexivity.
Defined.



(** ** [POST /api/diagnose]: further properties *)

(** One request makes at most one upstream call, and none when it is
    answered 400. *)
Theorem diagnose_calls_upstream_at_most_once (w : World)
  (req : DiagnoseRequest) (st : State) :
  (upstream_calls (snd (diagnose w req st)) = upstream_calls st \/
   exists f, file req = Some f /\
             upstream_calls (snd (diagnose w req st)) = upstream_calls st ++ [f]) /\
  (status (fst (diagnose w req st)) = 400%Z ->
   upstream_calls (snd (diagnose w req st)) = upstream_calls st).
Proof.
  unfold diagnose.
  destruct (file req) as [f|]; [|split; [now left | reflexivity]].
  destruct (parse_patient w (patientData req)) as [patient|];
    [|split; [now left | reflexivity]].
  destruct (callPythonAPI w f) as [aiResult|message].
  - destruct (response_body w aiResult) as [r|]; simpl;
      rewrite persist_calls; simpl; (split; [right; eauto | discriminate]).
  - simpl. split; [right; eauto | discriminate].
Qed.

Lemma diagnose_relays_upstream_severity_witness :
  Resp.severity
    (match fst (diagnose (Sample.world (Resolved Sample.flagged) (Resolved tt))
                  Sample.with_image Sample.fresh) with
     | Ok r => r
     | Err _ _ _ => Sample.pneumonia_response
     end) = VStr "High".
Proof.
  apply (diagnose_relays_upstream_severity
           (Sample.world (Resolved Sample.flagged) (Resolved tt))
           Sample.with_image Sample.fresh
           (snd (diagnose (Sample.world (Resolved Sample.flagged) (Resolved tt))
                   Sample.with_image Sample.fresh))
           _ Sample.image Sample.flagged (VStr "High"));
    reflexivity.
Defined.

(** An upstream answer in demo mode is a success like any other: the reply
    is 200, and both the response and the stored record carry the flag. *)
Theorem diagnose_keeps_demo_mode (w : World) (req : DiagnoseRequest)
  (st : State) (f : File) (patient aiResult : value) (d : ScanRecord) :
  file req = Some f ->
  parse_patient w (patientData req) = Some patient ->
  callPythonAPI w f = Resolved aiResult ->
  prop aiResult "demo_mode" = Some (VBool true) ->
  new_record w f patient aiResult = Some d ->
  ScanRecord_create w d = Resolved tt ->
  exists r st',
    diagnose w req st = (Ok r, st') /\
    Resp.demo_mode r = VBool true /\
    store st' = store st ++ [d] /\
    Doc.demoMode (Doc.result d) = VBool true.
Proof.
  intros Hf Hp Hcall Hdemo Hnew Hdb.
  destruct (new_record_response _ _ _ _ _ Hnew) as [r Hbody].
  destruct (response_body_fields _ _ _ Hbody)
    as (sev & dm & _ & Hdm & _ & _ & _ & _ & _ & _ & Hflag & _).
  assert (dm = VBool true) by congruence; subst dm.
  exists r, (persist w f patient aiResult (record_call f st)).
  repeat split.
  - unfold diagnose. now rewrite Hf, Hp, Hcall, Hbody.
  - exact Hflag.
  - rewrite persist_store, Hnew, Hdb. reflexivity.
  - revert Hnew Hdemo. unfold new_record, bind.
    destruct (prop aiResult "predicted_class"); [|discriminate].
    destruct (prop aiResult "confidence"); [|discriminate].
    destruct (prop aiResult "severity"); [|discriminate].
    destruct (prop aiResult "probabilities"); [|discriminate].
    destruct (prop aiResult "affected_regions"); [|discriminate].
    destruct (prop aiResult "recommendations"); [|discriminate].
    destruct (prop aiResult "demo_mode"); [|discriminate].
    intros H1 H2. injection H1 as <-. injection H2 as ->. reflexivity.
Qed.

Lemma diagnose_keeps_demo_mode_witness :
  exists r st',
    diagnose (Sample.world (Resolved Sample.flagged) (Resolved tt))
      Sample.with_image Sample.fresh = (Ok r, st') /\
    Resp.demo_mode r = VBool true /\
    exists d, store st' = store Sample.fresh ++ [d] /\
              Doc.demoMode (Doc.result d) = VBool true.
Proof.
  destruct (new_record
              (Sample.world (Resolved Sample.flagged) (Resolved tt))
              Sample.image (VObj []) Sample.flagged) as [d|] eqn:Hnew;
    [|discriminate Hnew].
  destruct (diagnose_keeps_demo_mode
              (Sample.world (Resolved Sample.flagged) (Resolved tt))
              Sample.with_image Sample.fresh Sample.image (VObj [])
              Sample.flagged d eq_refl eq_refl eq_refl eq_refl Hnew eq_refl)
    as (r & st' & Hrun & Hflag & Hstore & Hd).
  exists r, st'. split; [exact Hrun|]. split; [exact Hflag|].
  exists d. split; assumption.
Defined.

(** An upstream body that is [null] is answered 500: building the record
    throws inside the inner [try], building the response throws outside it,
    and nothing is stored. *)
Theorem diagnose_null_answer (w : World) (req : DiagnoseRequest) (st : State)
  (f : File) (patient : value) :
  file req = Some f ->
  parse_patient w (patientData req) = Some patient ->
  callPythonAPI w f = Resolved VNull ->
  diagnose w req st =
    (Err 500 "Internal server error" (Some TypeError),
     {| store := store st;
        console := console st ++ [DB_persist_failed TypeError;
                                  DIAGNOSE_failed TypeError];
        upstream_calls := upstream_calls st ++ [f] |}).
Proof.
  intros Hf Hp Hcall. unfold diagnose. rewrite Hf, Hp, Hcall. simpl.
  unfold persist, log, record_call. simpl. now rewrite <- app_assoc.
Qed.

Lemma diagnose_null_answer_witness :
  diagnose (Sample.world (Resolved VNull) (Resolved tt))
    Sample.with_image Sample.fresh =
    (Err 500 "Internal server error" (Some TypeError),
     {| store := [];
        console := [DB_persist_failed TypeError; DIAGNOSE_failed TypeError];
        upstream_calls := [Sample.image] |}).
Proof.
  apply (diagnose_null_answer (Sample.world (Resolved VNull) (Resolved tt))
           Sample.with_image Sample.fresh Sample.image (VObj []));
    reflexivity.
Defined.

(** ** The store's queries *)

(** *** Sorting *)

Section SortFacts.
Context {A : Type} (key : A -> Z).

Lemma insert_desc_perm (a : A) (l : list A) :
  Permutation (insert_desc key a l) (a :: l).
Proof.
  induction l as [|x rest IH]; simpl.
  - apply Permutation_refl.
  - destruct (key x <=? key a)%Z.
    + apply Permutation_refl.
    + apply perm_trans with (x :: a :: rest).
      * now apply perm_skip.
      * apply perm_swap.
Qed.

Lemma sort_desc_perm (l : list A) : Permutation (sort_desc key l) l.
Proof.
  induction l as [|a rest IH]; simpl.
  - apply perm_nil.
  - apply perm_trans with (a :: sort_desc key rest).
    + apply insert_desc_perm.
    + now apply perm_skip.
Qed.

Lemma sort_desc_length (l : list A) :
  List.length (sort_desc key l) = List.length l.
Proof. apply Permutation_length, sort_desc_perm. Qed.

Lemma sort_desc_In (l : list A) (a : A) : In a (sort_desc key l) <-> In a l.
Proof.
  split; apply Permutation_in.
  - apply sort_desc_perm.
  - apply Permutation_sym, sort_desc_perm.
Qed.

Lemma insert_desc_descending (a : A) (l : list A) :
  descending key l -> descending key (insert_desc key a l).
Proof.
  unfold descending. induction l as [|x rest IH]; simpl; intros Hs.
  - constructor; constructor.
  - apply StronglySorted_inv in Hs as [Hrest Hx].
    destruct (key x <=? key a)%Z eqn:Hle.
    + apply Z.leb_le in Hle. constructor.
      * now constructor.
      * constructor; [exact Hle|].
        eapply Forall_impl; [|exact Hx]. simpl. intros b Hb. lia.
    + apply Z.leb_gt in Hle. constructor.
      * now apply IH.
      * rewrite Forall_forall in *. intros b Hb.
        apply (Permutation_in _ (insert_desc_perm a rest)) in Hb.
        destruct Hb as [<- | Hb]; [lia | now apply Hx].
Qed.

Lemma sort_desc_descending (l : list A) : descending key (sort_desc key l).
Proof.
  induction l as [|a rest IH]; simpl.
  - constructor.
  - now apply insert_desc_descending.
Qed.

(** Elements with the same key keep their order. *)
Lemma insert_desc_stable (k : Z) (a : A) (l : list A) :
  filter (fun x => (key x =? k)%Z) (insert_desc key a l)
  = filter (fun x => (key x =? k)%Z) (a :: l).
Proof.
  induction l as [|x rest IH]; [reflexivity|].
  simpl insert_desc. destruct (key x <=? key a)%Z eqn:Hle; [reflexivity|].
  apply Z.leb_gt in Hle. simpl in *.
  destruct (key x =? k)%Z eqn:Hx, (key a =? k)%Z eqn:Ha;
    rewrite IH; try reflexivity.
  apply Z.eqb_eq in Hx, Ha. lia.
Qed.

Lemma sort_desc_stable (k : Z) (l : list A) :
  filter (fun x => (key x =? k)%Z) (sort_desc key l)
  = filter (fun x => (key x =? k)%Z) l.
Proof.
  induction l as [|a rest IH]; [reflexivity|].
  simpl sort_desc. rewrite insert_desc_stable. simpl. now rewrite IH.
Qed.

End SortFacts.

Lemma In_firstn {A : Type} (n : nat) (l : list A) (a : A) :
  In a (firstn n l) -> In a l.
Proof.
  intros H. rewrite <- (firstn_skipn n l). apply in_or_app. now left.
Qed.

Lemma In_skipn {A : Type} (n : nat) (l : list A) (a : A) :
  In a (skipn n l) -> In a l.
Proof.
  intros H. rewrite <- (firstn_skipn n l). apply in_or_app. now right.
Qed.

(** Whatever [find] returns is a stored record that matches the filter. *)
Lemma find_sorted_In (flt : Filter) (skip limit : Z) (docs : list ScanRecord)
  (d : ScanRecord) :
  In d (find_sorted flt skip limit docs) -> In d docs /\ matches flt d = true.
Proof.
  unfold find_sorted, newest_first. intros H.
  apply In_firstn, In_skipn, sort_desc_In, filter_In in H. exact H.
Qed.

(** ** [GET /api/history] *)

Lemma page_of_ge_1 (q : HistoryQuery) (p : Z) : page_of q = Some p -> (1 <= p)%Z.
Proof.
  unfold page_of, Math_max.
  destruct (parseInt (param_or (q_page q) "1")); simpl; [|discriminate].
  intros H; injection H as <-. lia.
Qed.

Lemma limit_of_le_100 (q : HistoryQuery) (l : Z) :
  limit_of q = Some l -> (l <= 100)%Z.
Proof.
  unfold limit_of, Math_min.
  destruct (parseInt (param_or (q_limit q) "20")); simpl; [|discriminate].
  intros H; injection H as <-. lia.
Qed.

(** [Math.ceil(total / limit)] is the least number of pages of [limit]
    records that hold [total] records. *)
Lemma Math_ceil_div_spec (total l : Z) :
  (0 < l)%Z ->
  exists n, Math_ceil_div total (Some l) = Some n /\
            ((n - 1) * l < total <= n * l)%Z.
Proof.
  intros Hl. unfold Math_ceil_div.
  destruct (l =? 0)%Z eqn:H0; [apply Z.eqb_eq in H0; lia|].
  eexists; split; [reflexivity|].
  pose proof (Z.div_mod (- total) l ltac:(lia)) as Hdm.
  pose proof (Z.mod_pos_bound (- total) l Hl) as Hb.
  nia.
Qed.

(** The guarded case of [GET /api/history]: for a query whose page and
    limit parse to integers, with a positive limit and valid date bounds,
    the page number is at least 1 and the page size at most 100; the answer
    is the window of [limit] records after the first [(page - 1) * limit] of
    the matching records sorted by descending [createdAt], records with
    equal [createdAt] staying in insertion order; [pages] is the ceiling of
    [total / limit]; page 2 of size 10 over 25 matching records is the 11th
    to the 20th of that order, of 3 pages. *)
Theorem history_pagination (m : Mongo) (q : HistoryQuery) (st : State) (p l : Z) :
  db_error m = None ->
  page_of q = Some p ->
  limit_of q = Some l ->
  (0 < l)%Z ->
  valid_bound (createdAt_gte (build_filter m q)) = true ->
  valid_bound (createdAt_lte (build_filter m q)) = true ->
  exists pg : HistoryPage,
    history m q st = Ok pg /\
    page pg = Some p /\ limit pg = Some l /\
    (1 <= p)%Z /\ (l <= 100)%Z /\ (List.length (records pg) <= 100)%nat /\
    records pg =
      firstn (Z.to_nat l)
        (skipn (Z.to_nat ((p - 1) * l))
           (newest_first (build_filter m q) (store st))) /\
    descending Doc.createdAt (newest_first (build_filter m q) (store st)) /\
    Permutation (newest_first (build_filter m q) (store st))
      (filter (matches (build_filter m q)) (store st)) /\
    (forall t,
       filter (fun d => (Doc.createdAt d =? t)%Z)
         (newest_first (build_filter m q) (store st))
       = filter (fun d => (Doc.createdAt d =? t)%Z)
           (filter (matches (build_filter m q)) (store st))) /\
    total pg = countDocuments (build_filter m q) (store st) /\
    (exists n, pages pg = Some n /\ ((n - 1) * l < total pg <= n * l)%Z) /\
    (p = 2%Z -> l = 10%Z -> total pg = 25%Z ->
     records pg =
       firstn 10 (skipn 10 (newest_first (build_filter m q) (store st))) /\
     List.length (records pg) = 10%nat /\
     pages pg = Some 3%Z).
Proof.
  intros Hdb Hp Hl Hpos Hgte Hlte.
  pose proof (page_of_ge_1 _ _ Hp) as Hp1.
  pose proof (limit_of_le_100 _ _ Hl) as Hl100.
  assert (Hreg : regular (build_filter m q) (Some ((p - 1) * l)%Z) (Some l) = true).
  { unfold regular. rewrite Hgte, Hlte. simpl.
    apply andb_true_intro. split; [apply Z.leb_le; nia | apply Z.ltb_lt; lia]. }
  destruct (Math_ceil_div_spec (countDocuments (build_filter m q) (store st)) l Hpos)
    as (n & Hn & Hbounds).
  exists {| records := find_sorted (build_filter m q) ((p - 1) * l) l (store st);
            total := countDocuments (build_filter m q) (store st);
            page := Some p; limit := Some l; pages := Some n |}.
  assert (Hlen : (List.length
                    (find_sorted (build_filter m q) ((p - 1) * l) l (store st))
                  <= Z.to_nat l)%nat).
  { unfold find_sorted. apply firstn_le_length. }
  assert (Hinst :
    p = 2%Z -> l = 10%Z -> countDocuments (build_filter m q) (store st) = 25%Z ->
    find_sorted (build_filter m q) ((p - 1) * l) l (store st) =
      firstn 10 (skipn 10 (newest_first (build_filter m q) (store st))) /\
    List.length (find_sorted (build_filter m q) ((p - 1) * l) l (store st)) = 10%nat /\
    Some n = Some 3%Z).
  { intros -> -> Ht. split; [reflexivity|]. split.
    - unfold find_sorted.
      rewrite length_firstn, length_skipn.
      unfold newest_first. rewrite sort_desc_length.
      unfold countDocuments in Ht. change (Z.to_nat 10) with 10%nat.
      change (Z.to_nat ((2 - 1) * 10)) with 10%nat. lia.
    - rewrite Ht in Hn. vm_compute in Hn. congruence. }
  simpl.
  split. { unfold history. rewrite Hp, Hl, Hdb, Hreg, Hn. reflexivity. }
  split; [reflexivity|]. split; [reflexivity|].
  split; [exact Hp1|]. split; [exact Hl100|]. split; [lia|].
  split; [reflexivity|].
  split. { apply sort_desc_descending. }
  split. { apply sort_desc_perm. }
  split. { intros t. apply sort_desc_stable. }
  split; [reflexivity|].
  split. { exists n. split; [reflexivity | exact Hbounds]. }
  exact Hinst.
Qed.

Lemma history_pagination_witness :
  exists pg : HistoryPage,
    history Sample.mongo Sample.second_page_of_ten Sample.twenty_five = Ok pg /\
    map Doc.createdAt (records pg)
      = [1015; 1014; 1013; 1012; 1011; 1010; 1009; 1008; 1007; 1006]%Z /\
    total pg = 25%Z /\
    pages pg = Some 3%Z.
Proof.
  destruct (history_pagination Sample.mongo Sample.second_page_of_ten
              Sample.twenty_five 2 10 eq_refl eq_refl eq_refl eq_refl eq_refl eq_refl)
    as (pg & Hrun & _ & _ & _ & _ & _ & Hrecs & _ & _ & _ & Htotal & _ & Hinst).
  exists pg. split; [exact Hrun|]. split; [rewrite Hrecs; reflexivity|].
  split; [rewrite Htotal; reflexivity|].
  apply Hinst; [reflexivity | reflexivity | rewrite Htotal; reflexivity].
Defined.

(** C7: the page size has no lower bound. A query with [limit=0] and no
    [page] passes [Math.min(100, 0) = 0] on to [.limit(0)]: the answer
    reports page 1, [limit] 0 and, [Math.ceil(total / 0)] not being finite,
    no number of [pages], and its records are whatever the database returns
    for a limit of 0, which MongoDB reads as no limit: over a store of 101
    records, all 101. *)
Theorem history_limit_zero_unbounded (m : Mongo) (q : HistoryQuery) (st : State)
  (found : list ScanRecord) (matching : Z) :
  db_error m = None ->
  q_page q = None ->
  q_limit q = Some "0" ->
  find_irregular m (build_filter m q) (Some 0%Z) (Some 0%Z) (store st)
  = Resolved (found, matching) ->
  history m q st
  = Ok {| records := found; total := matching; page := Some 1%Z;
          limit := Some 0%Z; pages := None |}.
Proof.
  intros Hdb Hp Hl Hfind.
  assert (Hpage : page_of q = Some 1%Z) by (unfold page_of; now rewrite Hp).
  assert (Hlimit : limit_of q = Some 0%Z) by (unfold limit_of; now rewrite Hl).
  unfold history. rewrite Hpage, Hlimit, Hdb.
  change ((1 - 1) * 0)%Z with 0%Z.
  assert (Hreg : regular (build_filter m q) (Some 0%Z) (Some 0%Z) = false).
  { unfold regular. cbn [Z.ltb Z.compare]. now rewrite !andb_false_r. }
  rewrite Hreg, Hfind. reflexivity.
Qed.

Lemma history_limit_zero_unbounded_witness :
  exists pg : HistoryPage,
    history Sample.unlimited Sample.limit_zero Sample.hundred_and_one = Ok pg /\
    List.length (records pg) = 101%nat /\
    total pg = 101%Z /\
    page pg = Some 1%Z /\
    limit pg = Some 0%Z /\
    pages pg = None.
Proof.
  pose proof (history_limit_zero_unbounded Sample.unlimited Sample.limit_zero
                Sample.hundred_and_one
                (newest_first no_filter (store Sample.hundred_and_one)) 101
                eq_refl eq_refl eq_refl eq_refl) as H.
  eexists. split; [exact H|]. cbn [records total page limit pages].
  split; [|repeat split].
  unfold newest_first. rewrite sort_desc_length. reflexivity.
Defined.


(** ** [GET /api/analytics] *)

Lemma Qc_eq_bool_eq (x y : Qc) : Qc_eq_bool x y = true <-> x = y.
Proof.
  split; [apply Qc_eq_bool_correct|].
  intros <-. unfold Qc_eq_bool. destruct (Qc_eq_dec x x); congruence.
Qed.

(** [value_eqb] decides equality. *)
Lemma value_eqb_eq (a b : value) : value_eqb a b = true <-> a = b.
Proof.
  revert b. induction a as [| |x|x|x|xs IH|fs IH] using value_ind;
    intros [| |y|y|y|ys|gs]; simpl;
    try (split; [discriminate | discriminate]); try tauto.
  - rewrite Bool.eqb_true_iff. split; congruence.
  - rewrite Qc_eq_bool_eq. split; congruence.
  - rewrite String.eqb_eq. split; congruence.
  - revert ys. induction IH as [|x xs Hx _ IHxs]; intros [|y ys];
      try (split; [discriminate | discriminate]); try tauto.
    rewrite andb_true_iff, Hx, IHxs. split.
    + intros [-> H]. now injection H as ->.
    + intros H. injection H as -> ->. auto.
  - revert gs. induction IH as [|[k x] fs Hx _ IHfs]; intros [|[k' y] gs];
      try (split; [discriminate | discriminate]); try tauto.
    simpl in Hx.
    rewrite !andb_true_iff, String.eqb_eq, Hx, IHfs. split.
    + intros [[-> ->] H]. now injection H as ->.
    + intros H. injection H as -> -> ->. auto.
Qed.

Lemma value_eqb_refl (a : value) : value_eqb a a = true.
Proof. now apply value_eqb_eq. Qed.

Lemma value_eqb_neq (a b : value) : value_eqb a b = false <-> a <> b.
Proof.
  rewrite <- value_eqb_eq. destruct (value_eqb a b); split; congruence.
Qed.

Lemma distinct_In (k : value) (ks : list value) : In k (distinct ks) <-> In k ks.
Proof.
  induction ks as [|x rest IH]; simpl; [tauto|].
  rewrite filter_In, IH.
  destruct (value_eqb k x) eqn:E; simpl.
  - apply value_eqb_eq in E. subst. tauto.
  - apply value_eqb_neq in E. intuition congruence.
Qed.

Lemma distinct_NoDup (ks : list value) : NoDup (distinct ks).
Proof.
  induction ks as [|x rest IH]; simpl; constructor.
  - rewrite filter_In, value_eqb_refl. simpl. intros [_ H]. discriminate.
  - now apply NoDup_filter.
Qed.

(** A key that occurs once in a list is hit once. *)
Lemma hits_once (ks : list value) (x : value) :
  NoDup ks -> In x ks ->
  fold_right (fun k acc => ((if value_eqb x k then 1 else 0) + acc)%Z) 0%Z ks = 1%Z.
Proof.
  induction ks as [|k rest IH]; simpl; intros Hnd Hin; [contradiction|].
  apply NoDup_cons_iff in Hnd as [Hk Hrest].
  destruct (value_eqb x k) eqn:E.
  - apply value_eqb_eq in E. subst k.
    assert (Hzero : forall l, ~ In x l ->
      fold_right (fun k acc => ((if value_eqb x k then 1 else 0) + acc)%Z) 0%Z l = 0%Z).
    { induction l as [|y l IHl]; simpl; intros Hn; [reflexivity|].
      destruct (value_eqb x y) eqn:Ey.
      - apply value_eqb_eq in Ey. subst. exfalso. apply Hn. now left.
      - rewrite IHl; [reflexivity|]. intros H. apply Hn. now right. }
    rewrite (Hzero rest Hk). reflexivity.
  - apply value_eqb_neq in E. destruct Hin as [->|Hin]; [congruence|].
    rewrite (IH Hrest Hin). reflexivity.
Qed.

(** Over keys that are distinct and cover the records, the group sizes add
    up to the number of records. *)
Lemma group_sizes_add_up (ks : list value) (docs : list ScanRecord) :
  NoDup ks ->
  (forall d, In d docs -> In (group_key d) ks) ->
  fold_right (fun k acc => (Z.of_nat (List.length (members k docs)) + acc)%Z) 0%Z ks
  = Z.of_nat (List.length docs).
Proof.
  intros Hnd. induction docs as [|d rest IH]; intros Hcover.
  - simpl. clear. induction ks as [|k ks IHk]; simpl; [reflexivity|].
    now rewrite IHk.
  - assert (Hsplit : forall l,
      fold_right (fun k acc => (Z.of_nat (List.length (members k (d :: rest))) + acc)%Z) 0%Z l
      = (fold_right (fun k acc => ((if value_eqb (group_key d) k then 1 else 0) + acc)%Z) 0%Z l
         + fold_right (fun k acc => (Z.of_nat (List.length (members k rest)) + acc)%Z) 0%Z l)%Z).
    { induction l as [|k l IHl]; [reflexivity|].
      cbn [fold_right]. rewrite IHl.
      unfold members at 1. cbn [filter].
      destruct (value_eqb (group_key d) k); cbn [List.length]; unfold members; lia. }
    rewrite Hsplit, IH.
    + rewrite (hits_once ks (group_key d) Hnd).
      * simpl List.length. lia.
      * apply Hcover. now left.
    + intros x Hx. apply Hcover. now right.
Qed.

Lemma total_count_perm (l l' : list Group) :
  Permutation l l' -> total_count l = total_count l'.
Proof.
  induction 1; simpl; lia.
Qed.

Lemma total_count_group_stage (docs : list ScanRecord) :
  total_count (group_stage docs) = Z.of_nat (List.length docs).
Proof.
  unfold group_stage.
  rewrite <- (group_sizes_add_up (distinct (map group_key docs)) docs).
  - induction (distinct (map group_key docs)) as [|k ks IH]; simpl; [reflexivity|].
    now rewrite IH.
  - apply distinct_NoDup.
  - intros d Hd. apply distinct_In, in_map, Hd.
Qed.


Lemma countDocuments_no_filter (docs : list ScanRecord) :
  countDocuments no_filter docs = Z.of_nat (List.length docs).
Proof.
  unfold countDocuments. f_equal. f_equal.
  induction docs as [|d rest IH]; simpl; [reflexivity|]. now rewrite IH.
Qed.







Example aggregateByClass_four :
  map (fun g => (_id g, count g)) (aggregateByClass (store Sample.four))
    = [(VStr "Pneumonia", 3%Z); (VStr "Normal", 1%Z)] /\
  map avgConfidence (aggregateByClass (store Sample.four))
    = [Some (Q2Qc (21 # 30)); Some (Q2Qc (9 # 10))].
Proof.
  split; [reflexivity|].
  vm_compute. repeat f_equal; apply Qc_is_canon; reflexivity.
Qed.

(** ** [DELETE /api/history/:scanId] *)

Lemma without_absent (id : string) (docs : list ScanRecord) :
  ~ In id (map Doc.scanId docs) -> without id docs = docs.
Proof.
  unfold without. induction docs as [|d rest IH]; simpl; intros H; [reflexivity|].
  destruct (String.eqb_spec (Doc.scanId d) id) as [E|E]; simpl.
  - exfalso. apply H. now left.
  - f_equal. apply IH. intros Hin. apply H. now right.
Qed.

Lemma deleteOne_absent (id : string) (docs : list ScanRecord) :
  ~ In id (map Doc.scanId docs) -> deleteOne id docs = docs.
Proof.
  induction docs as [|d rest IH]; simpl; intros H; [reflexivity|].
  destruct (String.eqb_spec (Doc.scanId d) id) as [E|E].
  - exfalso. apply H. now left.
  - f_equal. apply IH. intros Hin. apply H. now right.
Qed.

(** With identifiers that are unique, [deleteOne] removes every record of
    the identifier. *)
Lemma deleteOne_unique (id : string) (docs : list ScanRecord) :
  NoDup (map Doc.scanId docs) -> deleteOne id docs = without id docs.
Proof.
  induction docs as [|d rest IH]; simpl; intros H; [reflexivity|].
  apply NoDup_cons_iff in H as [Hd Hrest].
  unfold without in *. simpl.
  destruct (String.eqb_spec (Doc.scanId d) id) as [E|E]; simpl.
  - subst id. symmetry. now apply without_absent.
  - f_equal. now apply IH.
Qed.

Lemma without_In (id : string) (docs : list ScanRecord) (d : ScanRecord) :
  In d (without id docs) <-> In d docs /\ Doc.scanId d <> id.
Proof.
  unfold without. rewrite filter_In.
  destruct (String.eqb_spec (Doc.scanId d) id); simpl; intuition congruence.
Qed.

Lemma without_idempotent (id : string) (docs : list ScanRecord) :
  without id (without id docs) = without id docs.
Proof.
  apply without_absent. rewrite in_map_iff.
  intros (d & Hid & Hin). apply without_In in Hin. tauto.
Qed.

Lemma without_NoDup (id : string) (docs : list ScanRecord) :
  NoDup (map Doc.scanId docs) -> NoDup (map Doc.scanId (without id docs)).
Proof.
  unfold without. induction docs as [|d rest IH]; simpl; intros H; [constructor|].
  apply NoDup_cons_iff in H as [Hd Hrest].
  destruct (negb (String.eqb (Doc.scanId d) id)); simpl; [|now apply IH].
  constructor; [|now apply IH].
  rewrite in_map_iff in *. intros (x & Hx & Hin). apply Hd.
  exists x. split; [exact Hx|]. now apply filter_In in Hin.
Qed.

(** The handler answers 200 or, when the database call rejects, 500. *)
Lemma delete_history_status (m : Mongo) (id : string) (st : State) :
  status (fst (delete_history m id st)) = 200%Z \/
  status (fst (delete_history m id st)) = 500%Z.
Proof.
  unfold delete_history. destruct (db_error m); simpl; auto.
Qed.

Lemma deleteOne_length (id : string) (docs : list ScanRecord) :
  In id (map Doc.scanId docs) ->
  S (List.length (deleteOne id docs)) = List.length docs.
Proof.
  induction docs as [|d rest IH]; simpl; intros H; [contradiction|].
  destruct (String.eqb_spec (Doc.scanId d) id) as [E|E]; [reflexivity|].
  simpl. f_equal. apply IH. destruct H as [H|H]; [contradiction | exact H].
Qed.

(** C6 (as amended): with the database reachable, deleting answers
    [{success: true}] with status 200 whether or not the identifier is
    known. An unknown identifier leaves the state as it was. A known one
    takes one record out of the store; with unique identifiers no record of
    that identifier is left, so none is in a later [find] or counted by the
    aggregation, and deleting again changes nothing. *)
Theorem delete_history_removes (m : Mongo) (id : string) (st : State) :
  db_error m = None ->
  fst (delete_history m id st) = Ok {| success := true |} /\
  status (fst (delete_history m id st)) = 200%Z /\
  (~ In id (map Doc.scanId (store st)) -> snd (delete_history m id st) = st) /\
  (In id (map Doc.scanId (store st)) ->
   total_count (aggregateByClass (store (snd (delete_history m id st))))
     = (Z.of_nat (List.length (store st)) - 1)%Z) /\
  (NoDup (map Doc.scanId (store st)) ->
   store (snd (delete_history m id st)) = without id (store st) /\
   (forall d, In d (store (snd (delete_history m id st))) -> Doc.scanId d <> id) /\
   (forall flt skip limit d,
      In d (find_sorted flt skip limit (store (snd (delete_history m id st)))) ->
      Doc.scanId d <> id) /\
   (forall g d,
      In g (aggregateByClass (store (snd (delete_history m id st)))) ->
      In d (members (_id g) (store (snd (delete_history m id st)))) ->
      Doc.scanId d <> id) /\
   delete_history m id (snd (delete_history m id st))
     = (Ok {| success := true |}, snd (delete_history m id st))).
Proof.
  intros Hdb. unfold delete_history. rewrite Hdb. simpl.
  split; [reflexivity|]. split; [reflexivity|]. split; [|split].
  - intros Habs. rewrite (deleteOne_absent _ _ Habs). now destruct st.
  - intros Hin. unfold aggregateByClass.
    rewrite (total_count_perm _ _ (sort_desc_perm count _)).
    rewrite total_count_group_stage.
    pose proof (deleteOne_length _ _ Hin). lia.
  - intros Huniq. rewrite (deleteOne_unique _ _ Huniq).
    split; [reflexivity|]. split; [|split; [|split]].
    + intros d Hin. now apply without_In in Hin.
    + intros flt skip limit d Hin.
      apply find_sorted_In in Hin as [Hin _].
      now apply without_In in Hin.
    + intros g d _ Hin. unfold members in Hin.
      apply filter_In in Hin as [Hin _]. now apply without_In in Hin.
    + rewrite (deleteOne_unique _ _ (without_NoDup _ _ Huniq)).
      now rewrite without_idempotent.
Qed.

Lemma delete_history_removes_witness :
  fst (delete_history Sample.mongo "B" Sample.four) = Ok {| success := true |} /\
  map Doc.scanId (store (snd (delete_history Sample.mongo "B" Sample.four)))
    = ["A"; "C"; "D"] /\
  snd (delete_history Sample.mongo "Z" Sample.four) = Sample.four.
Proof.
  destruct (delete_history_removes Sample.mongo "B" Sample.four eq_refl)
    as (Hok & _ & _ & _ & Hknown).
  destruct (delete_history_removes Sample.mongo "Z" Sample.four eq_refl)
    as (_ & _ & Hunknown & _).
  split; [exact Hok|]. split.
  - assert (Hu : NoDup (map Doc.scanId (store Sample.four))).
    { simpl. repeat constructor; simpl; intuition discriminate. }
    destruct (Hknown Hu) as (-> & _). reflexivity.
  - apply Hunknown. simpl. intuition discriminate.
Defined.

(** C6 (as stated) fails: deleting an identifier no record has answers 200
    with [{success: true}], not 404. *)
Lemma delete_unknown_answers_success :
  ~ In "Z" (map Doc.scanId (store Sample.four)) /\
  fst (delete_history Sample.mongo "Z" Sample.four) = Ok {| success := true |} /\
  status (fst (delete_history Sample.mongo "Z" Sample.four)) <> 404%Z.
Proof.
  split; [simpl; intuition discriminate|].
  split; [reflexivity | discriminate].
Qed.

(** * Properties of the client *)

(** ** Requests in flight *)

Lemma navigate_session (r : Client.Route) (a : Client.App) :
  Client.session (Client.navigate r a) = Client.session a.
Proof.
  unfold Client.navigate.
  destruct (Client.redirect (Client.session a) r), (Client.location a),
    (Client.scanData (Client.session a)); try reflexivity;
    unfold Client.start; destruct (Client.file _); reflexivity.
Qed.

Lemma navigate_navTimers (r : Client.Route) (a : Client.App) :
  Client.navTimers (Client.navigate r a) = Client.navTimers a.
Proof.
  unfold Client.navigate.
  destruct (Client.redirect (Client.session a) r), (Client.location a),
    (Client.scanData (Client.session a)); try reflexivity;
    unfold Client.start; destruct (Client.file _); reflexivity.
Qed.

Lemma navigate_keeps_call (r : Client.Route) (a : Client.App) (id : nat) :
  In id (Client.calls a) -> In id (Client.calls (Client.navigate r a)).
Proof.
  intros H. unfold Client.navigate.
  destruct (Client.redirect (Client.session a) r), (Client.location a),
    (Client.scanData (Client.session a)); try exact H;
    unfold Client.start; destruct (Client.file _); simpl; try exact H;
    apply in_or_app; now left.
Qed.

(** Away from the processing page, [navigate] lands on the redirected
    route. *)
Lemma navigate_location (r : Client.Route) (a : Client.App) :
  Client.redirect (Client.session a) r <> Client.Processing ->
  Client.location (Client.navigate r a) = Client.redirect (Client.session a) r.
Proof.
  intros H. unfold Client.navigate.
  destruct (Client.redirect (Client.session a) r); try reflexivity.
  congruence.
Qed.

Lemma remove_id_In (id x : nat) (l : list nat) :
  In x (Client.remove_id id l) <-> In x l /\ x <> id.
Proof.
  unfold Client.remove_id. rewrite filter_In.
  destruct (Nat.eqb_spec x id); simpl; intuition congruence.
Qed.

Lemma existsb_eqb_In (id : nat) (l : list nat) :
  existsb (Nat.eqb id) l = true <-> In id l.
Proof.
  rewrite existsb_exists. split.
  - intros (x & Hin & Heq). apply Nat.eqb_eq in Heq. now subst.
  - intros H. exists id. split; [exact H | apply Nat.eqb_refl].
Qed.

(** No event but its own settling takes a request out of flight: neither a
    navigation, nor the clean-up of the instance that sent it, nor
    [resetDiagnosis]. *)
Lemma step_keeps_call (e : Client.Event) (a : Client.App) (id : nat) :
  (forall result, e <> Client.Settle id result) ->
  In id (Client.calls a) -> In id (Client.calls (Client.step e a)).
Proof.
  intros Hne Hin. destruct e as [p|d| | |r| |idx|id' result|]; simpl.
  - destruct (Client.Route_eqb _ _); [apply navigate_keeps_call|]; exact Hin.
  - destruct (_ && _)%bool; [apply navigate_keeps_call|]; exact Hin.
  - destruct (Client.Route_eqb _ _); [apply navigate_keeps_call|]; exact Hin.
  - destruct (Client.location a); try exact Hin.
    destruct (Client.animation a) as [p|]; try exact Hin.
    destruct (Client.isSome _); [apply navigate_keeps_call|]; exact Hin.
  - now apply navigate_keeps_call.
  - exact Hin.
  - exact Hin.
  - destruct (existsb (Nat.eqb id') (Client.calls a)); [|exact Hin].
    assert (Hid : id <> id') by (intros ->; now apply (Hne result)).
    destruct result; simpl; apply remove_id_In; split; assumption.
  - destruct (Client.navTimers a); [exact Hin|].
    now apply navigate_keeps_call.
Qed.

Lemma run_keeps_call (events : list Client.Event) (a : Client.App) (id : nat) :
  Forall (fun e => forall result, e <> Client.Settle id result) events ->
  In id (Client.calls a) -> In id (Client.calls (Client.run events a)).
Proof.
  unfold Client.run. revert a.
  induction events as [|e rest IH]; simpl; intros a Hev Hin; [exact Hin|].
  apply Forall_cons_iff in Hev as [He Hrest].
  apply IH; [exact Hrest|]. now apply step_keeps_call.
Qed.

(** The continuation of a request that resolves, written out. *)
Lemma step_Settle_Resolved (b : Client.App) (id : nat)
  (r : Client.DiagnosisApiResult) :
  In id (Client.calls b) ->
  Client.step (Client.Settle id (Resolved r)) b =
    {| Client.session :=
         Client.setDiagnosisResult (Client.to_result r) (Client.session b);
       Client.location := Client.location b;
       Client.animation :=
         option_map (Client.settle_animation id (Resolved r)) (Client.animation b);
       Client.calls := Client.remove_id id (Client.calls b);
       Client.navTimers := S (Client.navTimers b);
       Client.mounts := Client.mounts b |}.
Proof.
  intros Hin. apply existsb_eqb_In in Hin. simpl. now rewrite Hin.
Qed.

(** C5 (as amended): a request in flight stays in flight through every
    later event, [resetDiagnosis] included, until it settles. When it then
    resolves, its result becomes the session's [diagnosisResult], the
    patient and scan data stay as they are, and the timer it starts
    navigates to the results page, which shows when the session holds
    patient data and redirects to the landing page otherwise. No generation
    counter or other guard compares the session at resolution with the
    session at the call. *)
Theorem stale_completion_is_applied (a : Client.App) (id : nat)
  (events : list Client.Event) (r : Client.DiagnosisApiResult) :
  In id (Client.calls a) ->
  Forall (fun e => forall result, e <> Client.Settle id result) events ->
  In id (Client.calls (Client.run events a)) /\
  Client.diagnosisResult
    (Client.session
       (Client.step (Client.Settle id (Resolved r)) (Client.run events a)))
    = Some (Client.to_result r) /\
  Client.patientData
    (Client.session
       (Client.step (Client.Settle id (Resolved r)) (Client.run events a)))
    = Client.patientData (Client.session (Client.run events a)) /\
  Client.navTimers
    (Client.step (Client.Settle id (Resolved r)) (Client.run events a))
    = S (Client.navTimers (Client.run events a)) /\
  Client.location
    (Client.step Client.NavTimer
       (Client.step (Client.Settle id (Resolved r)) (Client.run events a)))
    = if Client.isSome (Client.patientData (Client.session (Client.run events a)))
      then Client.Results else Client.Index.
Proof.
  intros Hin Hev.
  pose proof (run_keeps_call events a id Hev Hin) as Hb.
  set (b := Client.run events a) in *.
  split; [exact Hb|].
  rewrite (step_Settle_Resolved b id r Hb).
  split; [reflexivity|]. split; [reflexivity|]. split; [reflexivity|].
  cbn [Client.step Client.navTimers].
  rewrite navigate_location; cbn [Client.session Client.redirect
    Client.setDiagnosisResult Client.diagnosisResult Client.patientData
    Client.isSome andb].
  - reflexivity.
  - destruct (Client.isSome (Client.patientData (Client.session b))); discriminate.
Qed.

Lemma stale_completion_is_applied_witness :
  Client.calls (Client.run Sample.until_second_request Client.initial) = [1] /\
  In 1 (Client.calls
          (Client.run [Client.NewDiagnosis; Client.SubmitPatient Sample.second_patient]
             (Client.run Sample.until_second_request Client.initial))) /\
  Client.diagnosisResult
    (Client.session
       (Client.step (Client.Settle 1 (Resolved (Sample.answer "Pneumonia")))
          (Client.run [Client.NewDiagnosis; Client.SubmitPatient Sample.second_patient]
             (Client.run Sample.until_second_request Client.initial))))
    = Some (Client.to_result (Sample.answer "Pneumonia")) /\
  Client.location
    (Client.step Client.NavTimer
       (Client.step (Client.Settle 1 (Resolved (Sample.answer "Pneumonia")))
          (Client.run [Client.NewDiagnosis; Client.SubmitPatient Sample.second_patient]
             (Client.run Sample.until_second_request Client.initial))))
    = Client.Results.
Proof.
  split; [reflexivity|].
  destruct (stale_completion_is_applied
              (Client.run Sample.until_second_request Client.initial) 1
              [Client.NewDiagnosis; Client.SubmitPatient Sample.second_patient]
              (Sample.answer "Pneumonia"))
    as (Hflight & Hresult & _ & _ & Hloc).
  - simpl. now left.
  - repeat constructor; discriminate.
  - split; [exact Hflight|]. split; [exact Hresult|]. exact Hloc.
Defined.

(** C5 (as stated) fails: the visitor starts a new diagnosis while the
    second request of the first one is in flight and enters the next
    patient; the request then resolves, its result replaces the empty
    [diagnosisResult] of the new session, and the client moves to the
    results page, showing the old scan's result beside the new patient. *)
Lemma stale_result_reaches_new_session :
  Client.session (Client.run Sample.until_reset Client.initial)
    = Client.empty_session /\
  Client.calls (Client.run Sample.until_reset Client.initial) = [1] /\
  Client.location (Client.run Sample.until_reset Client.initial)
    = Client.PatientDetails /\
  Client.session
    (Client.run (Sample.until_reset ++ Sample.stale_completion) Client.initial)
    = {| Client.patientData := Some Sample.second_patient;
         Client.scanData := None;
         Client.diagnosisResult :=
           Some (Client.to_result (Sample.answer "Pneumonia")) |} /\
  Client.location
    (Client.run (Sample.until_reset ++ Sample.stale_completion) Client.initial)
    = Client.Results.
Proof.
  repeat split; reflexivity.
Qed.

(** ** The progress indicator *)

(** The interval's callback never shows more than 90. *)
Lemma tick_le_90 (p : Client.Animation) :
  Client.progressInterval p = true ->
  (Client.progress (Client.tick p) <= 90)%Q.
Proof.
  intros H. unfold Client.tick. rewrite H. simpl. apply Q.le_min_r.
Qed.

Lemma tick_capped (p : Client.Animation) :
  Client.capped p -> Client.capped (Client.tick p).
Proof.
  intros H. destruct (Client.progressInterval p) eqn:E.
  - left. now apply tick_le_90.
  - unfold Client.tick. now rewrite E.
Qed.

Lemma tick_instance (p : Client.Animation) :
  Client.instance (Client.tick p) = Client.instance p.
Proof. unfold Client.tick. now destruct (Client.progressInterval p). Qed.

(** The instance [navigate] leaves mounted is the one that was mounted, or a
    fresh one showing 0. *)
Lemma navigate_animation (r : Client.Route) (a : Client.App)
  (p : Client.Animation) :
  Client.animation (Client.navigate r a) = Some p ->
  Client.animation a = Some p \/ Client.progress p = 0%Q.
Proof.
  unfold Client.navigate.
  destruct (Client.redirect (Client.session a) r), (Client.location a),
    (Client.scanData (Client.session a)) as [scan|];
    simpl; try discriminate; try (now left);
    unfold Client.start; destruct (Client.file scan); simpl;
    intros H; injection H as <-; now right.
Qed.

Lemma fresh_capped (p : Client.Animation) :
  Client.progress p = 0%Q -> Client.capped p.
Proof. intros H. left. rewrite H. discriminate. Qed.

Lemma settle_animation_capped (id : nat)
  (result : outcome Client.DiagnosisApiResult) (p : Client.Animation) :
  Client.capped p -> Client.capped (Client.settle_animation id result p).
Proof.
  intros H. unfold Client.settle_animation.
  destruct (Nat.eqb (Client.instance p) id); [|exact H].
  destruct result; [now right | exact H].
Qed.

Lemma step_timer_progress (idx : nat) (p : Client.Animation) :
  Client.progress (Client.step_timer idx p) = Client.progress p /\
  Client.instance (Client.step_timer idx p) = Client.instance p.
Proof.
  unfold Client.step_timer. now destruct (existsb _ _).
Qed.

Lemma step_TryAgain (a : Client.App) :
  Client.step Client.TryAgain a = a \/
  Client.step Client.TryAgain a = Client.navigate Client.UploadScan a.
Proof.
  simpl. destruct (Client.location a); auto.
  destruct (Client.animation a) as [q|]; auto.
  destruct (Client.isSome (Client.error q)); auto.
Qed.

(** One event keeps the indicator in its range. *)
Lemma step_capped (e : Client.Event) (a : Client.App) :
  (forall p, Client.animation a = Some p -> Client.capped p) ->
  forall p, Client.animation (Client.step e a) = Some p -> Client.capped p.
Proof.
  intros Inv p.
  assert (Hnav : forall r b,
    Client.animation b = Client.animation a ->
    Client.animation (Client.navigate r b) = Some p -> Client.capped p).
  { intros r b Hb H. apply navigate_animation in H as [H|H].
    - apply Inv. congruence.
    - now apply fresh_capped. }
  destruct e as [pd|d| | |r| |idx|id result|];
    [| | |destruct (step_TryAgain a) as [-> | ->];
          [apply Inv | now apply Hnav]| | | | |]; simpl.
  - destruct (Client.Route_eqb _ _); [now apply Hnav | apply Inv].
  - destruct (_ && _)%bool; [now apply Hnav | apply Inv].
  - destruct (Client.Route_eqb _ _); [now apply Hnav | apply Inv].
  - now apply Hnav.
  - destruct (Client.animation a) as [q|]; simpl; [|discriminate].
    intros H; injection H as <-. apply tick_capped. now apply Inv.
  - destruct (Client.animation a) as [q|]; simpl; [|discriminate].
    intros H; injection H as <-. unfold Client.capped.
    destruct (step_timer_progress idx q) as [-> _]. now apply Inv.
  - destruct (existsb (Nat.eqb id) (Client.calls a)); [|apply Inv].
    assert (Hs : forall q, option_map (Client.settle_animation id result)
                             (Client.animation a) = Some q -> Client.capped q).
    { destruct (Client.animation a) as [q0|]; simpl; [|discriminate].
      intros q H; injection H as <-. apply settle_animation_capped. now apply Inv. }
    destruct result; simpl; apply Hs.
  - destruct (Client.navTimers a); [apply Inv|]. now apply Hnav.
Qed.

Lemma run_capped (events : list Client.Event) (a : Client.App) :
  (forall p, Client.animation a = Some p -> Client.capped p) ->
  forall p, Client.animation (Client.run events a) = Some p -> Client.capped p.
Proof.
  unfold Client.run. revert a.
  induction events as [|e rest IH]; simpl; intros a Inv; [exact Inv|].
  apply IH. now apply step_capped.
Qed.

(** The one event that brings the indicator to 100 is the resolution of the
    mounted instance's own request. *)
Lemma step_reaches_100 (e : Client.Event) (a : Client.App)
  (p' : Client.Animation) :
  Client.animation (Client.step e a) = Some p' ->
  Client.progress p' = 100%Q ->
  (exists p, Client.animation a = Some p /\
             Client.instance p = Client.instance p' /\
             Client.progress p = 100%Q) \/
  (exists r, e = Client.Settle (Client.instance p') (Resolved r) /\
             In (Client.instance p') (Client.calls a)).
Proof.
  intros Hstep H100.
  assert (Hnav : forall r b,
    Client.animation b = Client.animation a ->
    Client.animation (Client.navigate r b) = Some p' ->
    exists p, Client.animation a = Some p /\
              Client.instance p = Client.instance p' /\
              Client.progress p = 100%Q).
  { intros r b Hb H. apply navigate_animation in H as [H|H].
    - exists p'. split; [congruence | now split].
    - rewrite H in H100. discriminate. }
  assert (Hsame : Client.animation a = Some p' ->
    exists p, Client.animation a = Some p /\
              Client.instance p = Client.instance p' /\
              Client.progress p = 100%Q).
  { intros H. exists p'. now repeat split. }
  destruct e as [pd|d| | |r| |idx|id result|];
    [| | |left; destruct (step_TryAgain a) as [E | E]; rewrite E in Hstep;
          [auto | eapply Hnav; [|exact Hstep]; reflexivity]| | | | |]; simpl in Hstep.
  - left. destruct (Client.Route_eqb _ _); [eapply Hnav; [|exact Hstep]; reflexivity | auto].
  - left. destruct (_ && _)%bool; [eapply Hnav; [|exact Hstep]; reflexivity | auto].
  - left. destruct (Client.Route_eqb _ _); [eapply Hnav; [|exact Hstep]; reflexivity | auto].
  - left. eapply Hnav; [|exact Hstep]; reflexivity.
  - left. destruct (Client.animation a) as [q|]; simpl in Hstep; [|discriminate].
    injection Hstep as <-.
    destruct (Client.progressInterval q) eqn:E.
    + pose proof (tick_le_90 q E) as Hle. rewrite H100 in Hle.
      exfalso. revert Hle. unfold Qle. simpl. lia.
    + unfold Client.tick in *. rewrite E in *. exists q. now repeat split.
  - left. destruct (Client.animation a) as [q|]; simpl in Hstep; [|discriminate].
    injection Hstep as <-. destruct (step_timer_progress idx q) as [Hp Hi].
    exists q. repeat split; congruence.
  - destruct (existsb (Nat.eqb id) (Client.calls a)) eqn:Hex; [|left; auto].
    apply existsb_eqb_In in Hex.
    assert (Hopt : option_map (Client.settle_animation id result)
                     (Client.animation a) = Some p').
    { destruct result; exact Hstep. }
    destruct (Client.animation a) as [q|]; simpl in Hopt; [|discriminate].
    injection Hopt as <-. unfold Client.settle_animation in *.
    destruct (Nat.eqb_spec (Client.instance q) id) as [Hid|Hid].
    + destruct result as [r|message]; simpl in *.
      * right. exists r. subst id. now split.
      * left. exists q. now repeat split.
    + left. exists q. now repeat split.
  - left. destruct (Client.navTimers a); [auto|].
    eapply Hnav; [|exact Hstep]; reflexivity.
Qed.

(** C9: in every state the client reaches, the indicator of the mounted
    instance shows at most 90 or exactly 100; a firing of the interval
    shows at most 90; an event after which it shows 100, when it did not
    before, is the resolution of that instance's request, which was in
    flight; and that resolution does bring it to 100. *)
Theorem progress_waits_for_resolution (events : list Client.Event) :
  (forall p, Client.animation (Client.run events Client.initial) = Some p ->
             Client.capped p) /\
  (forall p, Client.animation (Client.run events Client.initial) = Some p ->
             Client.progressInterval p = true ->
             (Client.progress (Client.tick p) <= 90)%Q) /\
  (forall e p',
     Client.animation (Client.step e (Client.run events Client.initial)) = Some p' ->
     Client.progress p' = 100%Q ->
     (exists p, Client.animation (Client.run events Client.initial) = Some p /\
                Client.instance p = Client.instance p' /\
                Client.progress p = 100%Q) \/
     (exists r, e = Client.Settle (Client.instance p') (Resolved r) /\
                In (Client.instance p')
                   (Client.calls (Client.run events Client.initial)))) /\
  (forall p r,
     Client.animation (Client.run events Client.initial) = Some p ->
     In (Client.instance p) (Client.calls (Client.run events Client.initial)) ->
     exists p',
       Client.animation
         (Client.step (Client.Settle (Client.instance p) (Resolved r))
            (Client.run events Client.initial)) = Some p' /\
       Client.progress p' = 100%Q /\
       Client.progressInterval p' = false).
Proof.
  split; [|split; [|split]].
  - apply run_capped. simpl. discriminate.
  - intros p _. apply tick_le_90.
  - intros e p'. apply step_reaches_100.
  - intros p r Hp Hin. rewrite (step_Settle_Resolved _ _ r Hin). simpl.
    rewrite Hp. simpl. unfold Client.settle_animation.
    rewrite Nat.eqb_refl. eexists. split; [reflexivity|]. now split.
Qed.

(** ** The workflow's entry guards *)

Lemma redirect_guard (s : Client.Session) (r : Client.Route) :
  match Client.redirect s r with
  | Client.UploadScan => Client.isSome (Client.patientData s)
  | Client.Processing => Client.isSome (Client.scanData s)
  | Client.Results =>
      (Client.isSome (Client.diagnosisResult s)
       && Client.isSome (Client.patientData s))%bool
  | _ => true
  end = true.
Proof.
  destruct r; simpl; try reflexivity.
  - destruct (Client.isSome (Client.patientData s)) eqn:E; simpl; auto.
  - destruct (Client.isSome (Client.scanData s)) eqn:E; simpl; auto.
    destruct (Client.isSome (Client.patientData s)) eqn:E'; simpl; auto.
  - destruct (Client.isSome (Client.diagnosisResult s)
              && Client.isSome (Client.patientData s))%bool eqn:E; simpl; auto.
Qed.

Lemma navigate_guarded (r : Client.Route) (a : Client.App) :
  Client.guarded a = true -> Client.guarded (Client.navigate r a) = true.
Proof.
  intros Ha. pose proof (redirect_guard (Client.session a) r) as Hr.
  unfold Client.navigate.
  destruct (Client.redirect (Client.session a) r) eqn:Et;
    try (unfold Client.guarded; simpl; exact Hr).
  destruct (Client.location a) eqn:El;
    try exact Ha;
    (destruct (Client.scanData (Client.session a)) as [scan|] eqn:Es;
     [ unfold Client.start; destruct (Client.file scan);
       unfold Client.guarded; simpl; now rewrite Es
     | discriminate Hr ]).
Qed.

(** What a page's guard asks of the session holds whenever that page is
    shown: after every sequence of events, the upload step has patient data,
    the processing step has scan data, and the results page has a result and
    patient data. *)
Theorem workflow_guards (events : list Client.Event) :
  Client.guarded (Client.run events Client.initial) = true.
Proof.
  unfold Client.run.
  assert (Hgen : forall a, Client.guarded a = true ->
            Client.guarded (fold_left (fun acc e => Client.step e acc) events a) = true).
  { induction events as [|e rest IH]; simpl; intros a Ha; [exact Ha|].
    apply IH. clear IH.
    destruct e as [pd|d| | |r| |idx|id result|];
      [| | |destruct (step_TryAgain a) as [-> | ->];
            [exact Ha | now apply navigate_guarded]| | | | |]; simpl.
    - destruct (Client.Route_eqb (Client.location a) Client.PatientDetails) eqn:E;
        [|exact Ha].
      apply navigate_guarded. unfold Client.guarded. simpl.
      destruct (Client.location a); try discriminate E. reflexivity.
    - destruct (Client.Route_eqb (Client.location a) Client.UploadScan
                && Client.hasValidScan d)%bool eqn:E; [|exact Ha].
      apply andb_true_iff in E as [E _].
      apply navigate_guarded. unfold Client.guarded in *. simpl.
      destruct (Client.location a); try discriminate E. exact Ha.
    - destruct (Client.Route_eqb (Client.location a) Client.Results) eqn:E;
        [|exact Ha].
      unfold Client.navigate. simpl. reflexivity.
    - now apply navigate_guarded.
    - exact Ha.
    - exact Ha.
    - destruct (existsb (Nat.eqb id) (Client.calls a)); [|exact Ha].
      unfold Client.guarded in *.
      destruct result; simpl; destruct (Client.location a); simpl in *;
        try exact Ha; try reflexivity.
      apply andb_true_iff in Ha as [_ Ha]. exact Ha.
    - destruct (Client.navTimers a); [exact Ha|].
      now apply navigate_guarded. }
  apply Hgen. reflexivity.
Qed.

(** * Further properties of the backend *)

(** ** Numbers in query strings *)

Lemma digit_of_digit_char (d : Z) :
  (0 <= d <= 9)%Z -> digit (ascii_of_nat (48 + Z.to_nat d)) = Some d.
Proof.
  intros H.
  assert (Hd : (d = 0 \/ d = 1 \/ d = 2 \/ d = 3 \/ d = 4 \/ d = 5 \/ d = 6
                \/ d = 7 \/ d = 8 \/ d = 9)%Z) by lia.
  repeat (destruct Hd as [-> | Hd]; [reflexivity|]). subst. reflexivity.
Qed.

Lemma digits_digit_char (d : Z) (rest : string) (acc : number) :
  (0 <= d <= 9)%Z ->
  digits (String (ascii_of_nat (48 + Z.to_nat d)) rest) acc
  = digits rest (Some (10 * match acc with Some a => a | None => 0 end + d)%Z).
Proof.
  intros H. cbn [digits]. now rewrite (digit_of_digit_char d H).
Qed.

(** Reading the digits [decimal] wrote gives the number back, after
    whatever was read before. *)
Lemma digits_decimal (fuel : nat) :
  forall n, (0 < n < 2 ^ Z.of_nat fuel)%Z ->
  exists m, (0 < m)%Z /\
    forall rest acc,
      digits (Text.decimal fuel n rest) acc
      = digits rest
          (Some (match acc with Some a => a | None => 0 end * m + n)%Z).
Proof.
  induction fuel as [|fuel IH]; intros n Hn.
  - simpl in Hn. lia.
  - assert (Hd : (0 <= n mod 10 <= 9)%Z)
      by (pose proof (Z.mod_pos_bound n 10 ltac:(lia)); lia).
    pose proof (Z.div_mod n 10 ltac:(lia)) as Hdm.
    cbn [Text.decimal].
    destruct (n / 10 =? 0)%Z eqn:Hq.
    + apply Z.eqb_eq in Hq. exists 10%Z. split; [lia|].
      intros rest acc. rewrite digits_digit_char by exact Hd.
      do 2 f_equal. lia.
    + apply Z.eqb_neq in Hq.
      assert (Hq' : (0 < n / 10 < 2 ^ Z.of_nat fuel)%Z).
      { split.
        - pose proof (Z.div_pos n 10 ltac:(lia) ltac:(lia)). lia.
        - apply Z.div_lt_upper_bound; [lia|].
          rewrite Nat2Z.inj_succ, Z.pow_succ_r in Hn by lia. lia. }
      destruct (IH _ Hq') as (m & Hm & Hread).
      exists (10 * m)%Z. split; [lia|].
      intros rest acc. rewrite Hread, digits_digit_char by exact Hd.
      do 2 f_equal. lia.
Qed.

Lemma decimal_head (fuel : nat) :
  forall n rest, (0 < n < 2 ^ Z.of_nat fuel)%Z ->
  exists c tail d,
    Text.decimal fuel n rest = String c tail /\ digit c = Some d.
Proof.
  induction fuel as [|fuel IH]; intros n rest Hn.
  - simpl in Hn. lia.
  - assert (Hd : (0 <= n mod 10 <= 9)%Z)
      by (pose proof (Z.mod_pos_bound n 10 ltac:(lia)); lia).
    cbn [Text.decimal].
    destruct (n / 10 =? 0)%Z eqn:Hq.
    + eexists _, _, _. split; [reflexivity|]. now apply digit_of_digit_char.
    + apply Z.eqb_neq in Hq. apply IH. split.
      * pose proof (Z.div_pos n 10 ltac:(lia) ltac:(lia)). lia.
      * apply Z.div_lt_upper_bound; [lia|].
        rewrite Nat2Z.inj_succ, Z.pow_succ_r in Hn by lia. lia.
Qed.

Lemma parseInt_digit_first (c : ascii) (tail : string) (d : Z) :
  digit c = Some d -> parseInt (String c tail) = digits (String c tail) None.
Proof.
  destruct c as [[] [] [] [] [] [] [] []]; intros H;
    try discriminate H; reflexivity.
Qed.

Lemma size_nat_bound (p : positive) :
  (Zpos p < 2 ^ Z.of_nat (Pos.size_nat p))%Z.
Proof.
  induction p as [p IH|p IH|]; cbn [Pos.size_nat];
    try (rewrite Nat2Z.inj_succ, Z.pow_succ_r by lia); lia.
Qed.

(** [parseInt(String(n), 10)] is [n]. *)
Lemma parseInt_String_of_Z (z : Z) : parseInt (Text.String_of_Z z) = Some z.
Proof.
  destruct z as [|p|p]; [reflexivity| |].
  - assert (Hb : (0 < Zpos p < 2 ^ Z.of_nat (Pos.size_nat p))%Z)
      by (split; [lia | apply size_nat_bound]).
    unfold Text.String_of_Z.
    destruct (decimal_head _ _ "" Hb) as (c & tail & d & Hs & Hc).
    destruct (digits_decimal _ _ Hb) as (m & _ & Hread).
    rewrite Hs, (parseInt_digit_first _ _ _ Hc), <- Hs, Hread. reflexivity.
  - assert (Hb : (0 < Zpos p < 2 ^ Z.of_nat (Pos.size_nat p))%Z)
      by (split; [lia | apply size_nat_bound]).
    unfold Text.String_of_Z.
    destruct (digits_decimal _ _ Hb) as (m & _ & Hread).
    change (parseInt (String "-"%char (Text.decimal (Pos.size_nat p) (Zpos p) "")))
      with (option_map Z.opp (digits (Text.decimal (Pos.size_nat p) (Zpos p) "") None)).
    rewrite Hread. reflexivity.
Qed.

Lemma String_of_Z_nonempty (z : Z) : String.eqb (Text.String_of_Z z) "" = false.
Proof.
  destruct (String.eqb (Text.String_of_Z z) "") eqn:E; [|reflexivity].
  apply String.eqb_eq in E.
  pose proof (parseInt_String_of_Z z) as H. rewrite E in H. discriminate H.
Qed.

Lemma param_or_nonzero (z : Z) (fallback : string) :
  param_or (Api.nonzero (Some z)) fallback
  = if (z =? 0)%Z then fallback else Text.String_of_Z z.
Proof.
  unfold Api.nonzero, param_or.
  destruct (z =? 0)%Z; [reflexivity|]. now rewrite String_of_Z_nonempty.
Qed.

(** ** [fetchHistory] against [GET /api/history] *)

Lemma nonempty_idem (x : option string) : nonempty (nonempty x) = nonempty x.
Proof.
  destruct x as [s|]; [|reflexivity]. simpl.
  destruct (String.eqb s "") eqn:E; [reflexivity|]. simpl. now rewrite E.
Qed.

Lemma fetchHistory_filter (m : Mongo) (p l : option Z) (c : option string) :
  build_filter m
    (Api.fetchHistory_query
       (Some {| Api.page := p; Api.limit := l; Api.class := c |}))
  = {| predictedClass_is := nonempty c;
       createdAt_gte := None;
       createdAt_lte := None |}.
Proof.
  unfold build_filter. simpl. now rewrite nonempty_idem.
Qed.

Lemma fetchHistory_page_of (p : Z) (l : option Z) (c : option string) :
  page_of (Api.fetchHistory_query
             (Some {| Api.page := Some p; Api.limit := l; Api.class := c |}))
  = Some (Z.max 1 p).
Proof.
  unfold page_of. cbn [Api.fetchHistory_query q_page Api.page].
  rewrite param_or_nonzero.
  destruct (p =? 0)%Z eqn:E.
  - apply Z.eqb_eq in E. subst. reflexivity.
  - now rewrite parseInt_String_of_Z.
Qed.

Lemma fetchHistory_limit_of (p : option Z) (l : Z) (c : option string) :
  limit_of (Api.fetchHistory_query
              (Some {| Api.page := p; Api.limit := Some l; Api.class := c |}))
  = Some (if (l =? 0)%Z then 20 else Z.min 100 l)%Z.
Proof.
  unfold limit_of. cbn [Api.fetchHistory_query q_limit Api.limit].
  rewrite param_or_nonzero.
  destruct (l =? 0)%Z eqn:E; [reflexivity|].
  now rewrite parseInt_String_of_Z.
Qed.

(** The answer to [fetchHistory] for a page number [p] and a page size
    [l >= 0]. *)
Lemma fetchHistory_answer (m : Mongo) (st : State) (p l : Z) (c : option string) :
  db_error m = None ->
  (0 <= l)%Z ->
  Api.fetchHistory m
    (Some {| Api.page := Some p; Api.limit := Some l; Api.class := c |}) st
  = Resolved
      (let size := (if (l =? 0)%Z then 20 else Z.min 100 l)%Z in
       let flt := {| predictedClass_is := nonempty c;
                     createdAt_gte := None;
                     createdAt_lte := None |} in
       {| records := find_sorted flt ((Z.max 1 p - 1) * size) size (store st);
          total := countDocuments flt (store st);
          page := Some (Z.max 1 p);
          limit := Some size;
          pages := Math_ceil_div (countDocuments flt (store st)) (Some size) |}).
Proof.
  intros Hdb Hl. unfold Api.fetchHistory, history.
  rewrite fetchHistory_filter, fetchHistory_page_of, fetchHistory_limit_of, Hdb.
  set (size := (if (l =? 0)%Z then 20 else Z.min 100 l)%Z).
  assert (Hsize : (0 < size)%Z).
  { subst size. destruct (l =? 0)%Z eqn:E; [lia|]. apply Z.eqb_neq in E. lia. }
  assert (Hreg : regular {| predictedClass_is := nonempty c;
                            createdAt_gte := None;
                            createdAt_lte := None |}
                   (Some ((Z.max 1 p - 1) * size)%Z) (Some size) = true).
  { unfold regular. simpl.
    apply andb_true_intro. split; [apply Z.leb_le; nia | apply Z.ltb_lt; lia]. }
  rewrite Hreg. reflexivity.
Qed.

(** X6: [fetchHistory] with integer parameters always puts a well-formed
    query to the backend. A page number of 0 or below (0 is not sent) reads
    page 1; a page size of 0 (not sent) reads 20 records a page and one above
    100 reads 100. The answer is the window of that page over the records of
    the asked class, newest first, never more than 100 records; it is the
    same whatever the database does with a query the handler leaves
    unguarded, for no such query is made. The numbers
    are below 10^21 in size, where [String(n)] writes plain digits. *)
Theorem fetchHistory_is_well_formed (m : Mongo) (st : State) (p l : Z)
  (c : option string) :
  db_error m = None ->
  (Z.abs p < 10 ^ 21)%Z ->
  (0 <= l < 10 ^ 21)%Z ->
  exists pg : HistoryPage,
    Api.fetchHistory m
      (Some {| Api.page := Some p; Api.limit := Some l; Api.class := c |}) st
    = Resolved pg /\
    page pg = Some (Z.max 1 p) /\
    limit pg = Some (if (l =? 0)%Z then 20 else Z.min 100 l)%Z /\
    (exists size, limit pg = Some size /\ (1 <= size <= 100)%Z /\
       records pg
       = firstn (Z.to_nat size)
           (skipn (Z.to_nat ((Z.max 1 p - 1) * size))
              (newest_first
                 {| predictedClass_is := nonempty c;
                    createdAt_gte := None;
                    createdAt_lte := None |} (store st)))) /\
    (List.length (records pg) <= 100)%nat /\
    (forall d, In d (records pg) ->
       In d (store st) /\
       forall k, nonempty c = Some k ->
                 Doc.predictedClass (Doc.result d) = VStr k) /\
    (forall m' : Mongo,
       db_error m' = None ->
       Api.fetchHistory m'
         (Some {| Api.page := Some p; Api.limit := Some l; Api.class := c |}) st
       = Resolved pg).
Proof.
  intros Hdb _ [Hl _].
  pose proof (fetchHistory_answer m st p l c Hdb Hl) as Hans.
  cbv zeta in Hans.
  set (size := (if (l =? 0)%Z then 20 else Z.min 100 l)%Z) in *.
  assert (Hsize : (1 <= size <= 100)%Z).
  { subst size. destruct (l =? 0)%Z eqn:E; [lia|]. apply Z.eqb_neq in E. lia. }
  eexists. split; [exact Hans|]. cbn [page limit records].
  split; [reflexivity|]. split; [reflexivity|].
  split. { exists size. split; [reflexivity|]. split; [exact Hsize | reflexivity]. }
  split.
  { unfold find_sorted. etransitivity; [apply firstn_le_length|]. lia. }
  split.
  { intros d Hd. apply find_sorted_In in Hd. destruct Hd as [Hin Hm].
    split; [exact Hin|]. intros k Hk.
    unfold matches in Hm. cbn [predictedClass_is createdAt_gte createdAt_lte] in Hm.
    rewrite Hk in Hm. rewrite !andb_true_r in Hm.
    unfold strict_eq_str in Hm.
    destruct (Doc.predictedClass (Doc.result d)); try discriminate Hm.
    apply String.eqb_eq in Hm. now subst. }
  intros m' Hdb'. exact (fetchHistory_answer m' st p l c Hdb' Hl).
Qed.

Lemma fetchHistory_is_well_formed_witness :
  exists pg : HistoryPage,
    Api.fetchHistory Sample.mongo
      (Some {| Api.page := Some 0%Z; Api.limit := Some 250%Z;
               Api.class := Some "" |}) Sample.twenty_five
    = Resolved pg /\
    page pg = Some 1%Z /\ limit pg = Some 100%Z /\
    List.length (records pg) = 25%nat.
Proof.
  destruct (fetchHistory_is_well_formed Sample.mongo Sample.twenty_five 0 250
              (Some "") eq_refl ltac:(vm_compute; reflexivity)
              ltac:(split; [discriminate | reflexivity]))
    as (pg & Hpg & Hp & Hl & _).
  exists pg. split; [exact Hpg|]. split; [exact Hp|]. split; [exact Hl|].
  vm_compute in Hpg. injection Hpg as <-. reflexivity.
Defined.

(** ** Walking through the pages *)

Lemma firstn_add {A : Type} (a b : nat) (xs : list A) :
  firstn (a + b) xs = firstn a xs ++ firstn b (skipn a xs).
Proof.
  revert xs. induction a as [|a IH]; intros xs; [reflexivity|].
  destruct xs as [|x xs]; simpl.
  - now rewrite firstn_nil.
  - now rewrite IH.
Qed.

(** Windows of [l] elements, one after the other, make up the list. *)
Lemma windows_concat {A : Type} (l n : nat) (xs : list A) :
  List.concat (map (fun i => firstn l (skipn (i * l) xs)) (seq 0 n))
  = firstn (n * l) xs.
Proof.
  induction n as [|n IH]; [reflexivity|].
  rewrite seq_S, map_app, concat_app, IH. simpl.
  rewrite app_nil_r, (Nat.add_comm l (n * l)). symmetry. apply firstn_add.
Qed.

(** X7: the pages of one history query partition its matches. Reading
    pages 1 to [n] of size [l] (1 to 100) with [fetchHistory], where [n]
    pages are enough to hold the matching records, and putting the pages one
    after the other gives every matching record exactly once, newest first:
    none is skipped and none shows on two pages. *)
Theorem fetchHistory_pages_partition (m : Mongo) (st : State) (l : Z)
  (c : option string) (n : nat) :
  db_error m = None ->
  (1 <= l <= 100)%Z ->
  (Z.of_nat n < 10 ^ 21)%Z ->
  (countDocuments {| predictedClass_is := nonempty c;
                     createdAt_gte := None;
                     createdAt_lte := None |} (store st) <= Z.of_nat n * l)%Z ->
  List.concat
    (map (fun i =>
            match Api.fetchHistory m
                    (Some {| Api.page := Some (Z.of_nat i);
                             Api.limit := Some l;
                             Api.class := c |}) st with
            | Resolved pg => records pg
            | Rejected _ => []
            end)
         (seq 1 n))
  = newest_first {| predictedClass_is := nonempty c;
                    createdAt_gte := None;
                    createdAt_lte := None |} (store st).
Proof.
  intros Hdb Hl _ Hn.
  set (flt := {| predictedClass_is := nonempty c;
                 createdAt_gte := None;
                 createdAt_lte := None |}) in *.
  assert (Hl0 : (l =? 0)%Z = false) by (apply Z.eqb_neq; lia).
  rewrite <- seq_shift, map_map.
  erewrite map_ext_in.
  2:{ intros i _. rewrite (fetchHistory_answer m st _ l c Hdb ltac:(lia)).
      cbv zeta. cbn [records]. rewrite Hl0.
      unfold find_sorted. fold flt.
      replace (Z.to_nat ((Z.max 1 (Z.of_nat (S i)) - 1) * Z.min 100 l))
        with (i * Z.to_nat l)%nat by nia.
      replace (Z.min 100 l) with l by lia.
      reflexivity. }
  rewrite (windows_concat (Z.to_nat l) n).
  apply firstn_all2.
  unfold countDocuments in Hn. unfold newest_first.
  rewrite sort_desc_length. nia.
Qed.

Lemma fetchHistory_pages_partition_witness :
  List.concat
    (map (fun i =>
            match Api.fetchHistory Sample.mongo
                    (Some {| Api.page := Some (Z.of_nat i);
                             Api.limit := Some 10%Z;
                             Api.class := None |}) Sample.twenty_five with
            | Resolved pg => records pg
            | Rejected _ => []
            end)
         (seq 1 3))
  = newest_first no_filter (store Sample.twenty_five).
Proof.
  apply (fetchHistory_pages_partition Sample.mongo Sample.twenty_five 10 None 3).
  - reflexivity.
  - lia.
  - vm_compute; reflexivity.
  - vm_compute; discriminate.
Defined.

(** ** The filters of [GET /api/history] *)

Lemma nonempty_Some (x : option string) (s : string) :
  nonempty x = Some s <-> x = Some s /\ s <> "".
Proof.
  destruct x as [t|]; simpl.
  - destruct (String.eqb t "") eqn:E.
    + apply String.eqb_eq in E. subst. split; [discriminate|].
      intros [H Hne]. injection H as <-. now elim Hne.
    + apply String.eqb_neq in E. split.
      * intros H. injection H as <-. now split.
      * now intros [-> _].
  - split; [discriminate | now intros [H _]].
Qed.

Lemma matches_build_filter (m : Mongo) (q : HistoryQuery) (d : ScanRecord) :
  matches (build_filter m q) d = true <->
  (forall c, q_class q = Some c -> c <> "" ->
             Doc.predictedClass (Doc.result d) = VStr c) /\
  (forall s t, q_dateFrom q = Some s -> s <> "" -> Date_parse m s = Some t ->
               (t <= Doc.createdAt d)%Z) /\
  (forall s t, q_dateTo q = Some s -> s <> "" -> Date_parse m s = Some t ->
               (Doc.createdAt d <= t)%Z).
Proof.
  unfold matches, build_filter.
  cbn [predictedClass_is createdAt_gte createdAt_lte].
  rewrite !andb_true_iff.
  assert (Hc :
    match nonempty (q_class q) with
    | Some c => strict_eq_str (Doc.predictedClass (Doc.result d)) c
    | None => true
    end = true <->
    (forall c, q_class q = Some c -> c <> "" ->
               Doc.predictedClass (Doc.result d) = VStr c)).
  { destruct (nonempty (q_class q)) as [c|] eqn:E.
    - apply nonempty_Some in E. destruct E as [E Hne]. split.
      + intros H c' Hq _. rewrite E in Hq. injection Hq as <-.
        unfold strict_eq_str in H.
        destruct (Doc.predictedClass (Doc.result d)); try discriminate H.
        apply String.eqb_eq in H. now subst.
      + intros H. rewrite (H c E Hne). simpl. apply String.eqb_refl.
    - split; [|reflexivity]. intros _ c Hq Hne.
      assert (nonempty (q_class q) = Some c) by (apply nonempty_Some; now split).
      congruence. }
  assert (Hb : forall (x : option string) (cmp : Z -> bool) (P : Z -> Prop),
    (forall t, cmp t = true <-> P t) ->
    (match option_map (Date_parse m) (nonempty x) with
     | Some (Some t) => cmp t
     | _ => true
     end = true <->
     forall s t, x = Some s -> s <> "" -> Date_parse m s = Some t -> P t)).
  { intros x cmp P Hcmp.
    destruct (nonempty x) as [s|] eqn:E; simpl.
    - apply nonempty_Some in E. destruct E as [E Hne].
      destruct (Date_parse m s) as [t|] eqn:Ed.
      + split.
        * intros H s' t' Hx _ Hd. rewrite E in Hx. injection Hx as <-.
          rewrite Ed in Hd. injection Hd as <-. now apply Hcmp.
        * intros H. apply Hcmp. now apply (H s t).
      + split; [|reflexivity]. intros _ s' t' Hx _ Hd.
        rewrite E in Hx. injection Hx as <-. congruence.
    - split; [|reflexivity]. intros _ s t Hx Hne.
      assert (nonempty x = Some s) by (apply nonempty_Some; now split).
      congruence. }
  rewrite Hc.
  rewrite (Hb (q_dateFrom q) (fun t => (t <=? Doc.createdAt d)%Z)
              (fun t => (t <= Doc.createdAt d)%Z))
    by (intros t; apply Z.leb_le).
  rewrite (Hb (q_dateTo q) (fun t => (Doc.createdAt d <=? t)%Z)
              (fun t => (Doc.createdAt d <= t)%Z))
    by (intros t; apply Z.leb_le).
  tauto.
Qed.

(** X8: the history route honours its filters. For a query the handler
    guards (page and limit integers, limit positive, date bounds valid)
    every record of the answer is a stored record, of the asked class when a
    non-empty [class] is given, created at or after [dateFrom] and at or
    before [dateTo] when these are given; an empty parameter filters
    nothing. [total] counts exactly the stored records that satisfy the
    same conditions, whatever the page. *)
Theorem history_honours_filters (m : Mongo) (q : HistoryQuery) (st : State)
  (p l : Z) :
  db_error m = None ->
  page_of q = Some p ->
  limit_of q = Some l ->
  (0 < l)%Z ->
  valid_bound (createdAt_gte (build_filter m q)) = true ->
  valid_bound (createdAt_lte (build_filter m q)) = true ->
  exists pg : HistoryPage,
    history m q st = Ok pg /\
    (forall d, In d (records pg) ->
       In d (store st) /\
       (forall c, q_class q = Some c -> c <> "" ->
                  Doc.predictedClass (Doc.result d) = VStr c) /\
       (forall s t, q_dateFrom q = Some s -> s <> "" ->
                    Date_parse m s = Some t -> (t <= Doc.createdAt d)%Z) /\
       (forall s t, q_dateTo q = Some s -> s <> "" ->
                    Date_parse m s = Some t -> (Doc.createdAt d <= t)%Z)) /\
    total pg
    = Z.of_nat
        (List.length
           (filter (fun d => matches (build_filter m q) d) (store st))) /\
    (forall d, In d (store st) ->
       (forall c, q_class q = Some c -> c <> "" ->
                  Doc.predictedClass (Doc.result d) = VStr c) ->
       (forall s t, q_dateFrom q = Some s -> s <> "" ->
                    Date_parse m s = Some t -> (t <= Doc.createdAt d)%Z) ->
       (forall s t, q_dateTo q = Some s -> s <> "" ->
                    Date_parse m s = Some t -> (Doc.createdAt d <= t)%Z) ->
       In d (newest_first (build_filter m q) (store st)) /\
       (0 < total pg)%Z).
Proof.
  intros Hdb Hp Hl Hpos Hgte Hlte.
  pose proof (page_of_ge_1 _ _ Hp) as Hp1.
  assert (Hreg : regular (build_filter m q) (Some ((p - 1) * l)%Z) (Some l) = true).
  { unfold regular. rewrite Hgte, Hlte. simpl.
    apply andb_true_intro. split; [apply Z.leb_le; nia | apply Z.ltb_lt; lia]. }
  eexists. split.
  { unfold history. rewrite Hp, Hl, Hdb, Hreg. reflexivity. }
  cbn [records total]. split; [|split].
  - intros d Hd. apply find_sorted_In in Hd. destruct Hd as [Hin Hm].
    split; [exact Hin|]. now apply matches_build_filter.
  - reflexivity.
  - intros d Hin Hc Hfrom Hto.
    assert (Hm : matches (build_filter m q) d = true)
      by (apply matches_build_filter; auto).
    assert (Hf : In d (filter (matches (build_filter m q)) (store st)))
      by (apply filter_In; now split).
    split.
    + unfold newest_first. now apply sort_desc_In.
    + unfold countDocuments.
      destruct (filter (matches (build_filter m q)) (store st));
        [destruct Hf | simpl; lia].
Qed.

Lemma history_honours_filters_witness :
  exists pg : HistoryPage,
    history Sample.mongo
      {| q_page := None; q_limit := Some ""; q_class := Some "Pneumonia";
         q_dateFrom := None; q_dateTo := Some "2023-11-14" |} Sample.four
    = Ok pg /\
    map Doc.scanId (records pg) = ["D"; "C"; "A"] /\
    total pg = 3%Z.
Proof.
  destruct (history_honours_filters Sample.mongo
              {| q_page := None; q_limit := Some ""; q_class := Some "Pneumonia";
                 q_dateFrom := None; q_dateTo := Some "2023-11-14" |}
              Sample.four 1 20 eq_refl eq_refl eq_refl ltac:(lia) eq_refl eq_refl)
    as (pg & Hpg & _ & Htotal & _).
  exists pg. split; [exact Hpg|].
  vm_compute in Hpg. injection Hpg as <-. split; reflexivity.
Defined.

(** ** [GET /api/analytics] *)

Lemma filter_length_le {A : Type} (f : A -> bool) (l : list A) :
  (List.length (filter f l) <= List.length l)%nat.
Proof.
  induction l as [|a l IH]; simpl; [lia|]. destruct (f a); simpl; lia.
Qed.

Lemma filter_all {A : Type} (f : A -> bool) (l : list A) :
  (forall a, In a l -> f a = true) -> filter f l = l.
Proof.
  induction l as [|a l IH]; intros H; simpl; [reflexivity|].
  rewrite (H a (or_introl eq_refl)), IH; [reflexivity|].
  intros b Hb. apply H. now right.
Qed.

Lemma filter_none {A : Type} (f : A -> bool) (l : list A) :
  (forall a, In a l -> f a = false) -> filter f l = [].
Proof.
  induction l as [|a l IH]; intros H; simpl; [reflexivity|].
  rewrite (H a (or_introl eq_refl)), IH; [reflexivity|].
  intros b Hb. apply H. now right.
Qed.

(** *** Rounding to doubles *)



Lemma pow2_nonneg_exp (z : Z) : (0 <= z)%Z -> (pow2 z == inject_Z (2 ^ z))%Q.
Proof. intros H. unfold pow2. symmetry. apply (Zpower_Qpower 2 z H). Qed.














(** X9: the weekly count of the analytics answer. [scansThisWeek] counts
    the records created at or after the instant seven days (604800000 ms)
    before now, with no upper bound, so it is between 0 and [totalScans]; it
    equals [totalScans] when every record is that recent and is 0 when none
    is; and [totalScans] is the size of the store. *)
Theorem analytics_week_within_total (m : Mongo) (st : State) :
  db_error m = None ->
  exists a : Analytics,
    analytics m st = Ok a /\
    totalScans a = Z.of_nat (List.length (store st)) /\
    scansThisWeek a
    = Z.of_nat
        (List.length
           (filter (fun d => (now m - 604800000 <=? Doc.createdAt d)%Z)
              (store st))) /\
    (0 <= scansThisWeek a <= totalScans a)%Z /\
    ((forall d, In d (store st) -> (now m - 604800000 <= Doc.createdAt d)%Z) ->
     scansThisWeek a = totalScans a) /\
    ((forall d, In d (store st) -> (Doc.createdAt d < now m - 604800000)%Z) ->
     scansThisWeek a = 0%Z).
Proof.
  intros Hdb. unfold analytics. rewrite Hdb.
  eexists. split; [reflexivity|]. cbn [totalScans scansThisWeek].
  rewrite countDocuments_no_filter.
  assert (Hw : countDocuments (since (now m - 7 * 24 * 3600 * 1000)) (store st)
               = Z.of_nat
                   (List.length
                      (filter (fun d => (now m - 604800000 <=? Doc.createdAt d)%Z)
                         (store st)))).
  { unfold countDocuments. do 2 f_equal. apply filter_ext. intros d.
    unfold matches, since. cbn [predictedClass_is createdAt_gte createdAt_lte].
    now rewrite andb_true_r. }
  rewrite Hw.
  split; [reflexivity|]. split; [reflexivity|]. split; [|split].
  - pose proof (filter_length_le
                  (fun d => (now m - 604800000 <=? Doc.createdAt d)%Z) (store st)).
    lia.
  - intros Hall. rewrite filter_all; [reflexivity|].
    intros d Hd. apply Z.leb_le. now apply Hall.
  - intros Hnone. rewrite filter_none; [reflexivity|].
    intros d Hd. apply Z.leb_gt. now apply Hnone.
Qed.

Lemma analytics_week_within_total_witness :
  exists a : Analytics,
    analytics
      {| db_error := None; Date_parse := fun _ => None;
         find_irregular := fun _ _ _ _ => Rejected "irregular query";
         now := 604801003 |} Sample.four = Ok a /\
    totalScans a = 4%Z /\ scansThisWeek a = 2%Z.
Proof.
  destruct (analytics_week_within_total
              {| db_error := None; Date_parse := fun _ => None;
                 find_irregular := fun _ _ _ _ => Rejected "irregular query";
                 now := 604801003 |} Sample.four eq_refl)
    as (a & Ha & Htotal & Hweek & _).
  exists a. split; [exact Ha|]. split; [exact Htotal | exact Hweek].
Defined.



(** ** A diagnosis, then the history routes *)

Lemma response_new_record (w : World) (f : File) (patient aiResult : value)
  (r : DiagnosisResponse) :
  response_body w aiResult = Some r ->
  exists d, new_record w f patient aiResult = Some d /\
            Doc.scanId d = Resp.scanId r /\
            Doc.predictedClass (Doc.result d) = Resp.predicted_class r /\
            Doc.confidence (Doc.result d) = Resp.confidence r /\
            Doc.createdAt d = Date_now w.
Proof.
  unfold response_body, new_record, bind.
  destruct (prop aiResult "predicted_class") as [pc|]; [|discriminate].
  destruct (prop aiResult "confidence") as [cf|]; [|discriminate].
  destruct (prop aiResult "severity") as [sev|]; [|discriminate].
  destruct (prop aiResult "probabilities") as [pr|]; [|discriminate].
  destruct (prop aiResult "affected_regions") as [ar|]; [|discriminate].
  destruct (prop aiResult "recommendations") as [rc|]; [|discriminate].
  destruct (prop aiResult "demo_mode") as [dm|]; [|discriminate].
  intros H; injection H as <-; simpl.
  eexists; split; [reflexivity|]. repeat split; reflexivity.
Qed.

(** The store after a successful [diagnose]. *)
Lemma diagnose_Ok_store (w : World) (req : DiagnoseRequest) (st st' : State)
  (r : DiagnosisResponse) :
  diagnose w req st = (Ok r, st') ->
  exists d,
    Doc.scanId d = Resp.scanId r /\
    Doc.predictedClass (Doc.result d) = Resp.predicted_class r /\
    Doc.confidence (Doc.result d) = Resp.confidence r /\
    Doc.createdAt d = Date_now w /\
    Resp.scanId r = uuidv4 w /\
    store st' = match ScanRecord_create w d with
                | Resolved _ => store st ++ [d]
                | Rejected _ => store st
                end.
Proof.
  intros H. apply diagnose_Ok in H.
  destruct H as (f & patient & aiResult & _ & _ & _ & Hbody & ->).
  destruct (response_new_record w f patient aiResult r Hbody)
    as (d & Hd & Hid & Hcls & Hconf & Hat).
  exists d. repeat (split; [assumption|]).
  split.
  - apply response_body_fields in Hbody.
    destruct Hbody as (sev & dm & Hb). tauto.
  - rewrite persist_store, Hd. reflexivity.
Qed.

Lemma deleteOne_last (id : string) (docs : list ScanRecord) (d : ScanRecord) :
  ~ In id (map Doc.scanId docs) -> Doc.scanId d = id ->
  deleteOne id (docs ++ [d]) = docs.
Proof.
  intros Hnot Hid. induction docs as [|x rest IH]; simpl.
  - subst id. now rewrite String.eqb_refl.
  - destruct (String.eqb_spec (Doc.scanId x) id) as [E|E].
    + exfalso. apply Hnot. now left.
    + f_equal. apply IH. intros Hin. apply Hnot. now right.
Qed.

(** X11: a diagnosis can be taken back. After a successful [diagnose]
    whose generated identifier is not yet in the store, the store is the old
    one, or the old one with one record more that carries the response's
    [scanId]; deleting by the [scanId] of the response answers
    [{success: true}] and leaves the store exactly as it was before the
    diagnosis, whether the record had been stored or not; and identifiers
    stay unique. *)
Theorem diagnose_then_delete_restores (w : World) (m : Mongo)
  (req : DiagnoseRequest) (st st1 : State) (r : DiagnosisResponse) :
  db_error m = None ->
  ~ In (uuidv4 w) (map Doc.scanId (store st)) ->
  diagnose w req st = (Ok r, st1) ->
  (store st1 = store st \/
   exists d, store st1 = store st ++ [d] /\ Doc.scanId d = Resp.scanId r) /\
  fst (delete_history m (Resp.scanId r) st1) = Ok {| success := true |} /\
  store (snd (delete_history m (Resp.scanId r) st1)) = store st /\
  (NoDup (map Doc.scanId (store st)) -> NoDup (map Doc.scanId (store st1))).
Proof.
  intros Hdb Hfresh Hrun.
  destruct (diagnose_Ok_store _ _ _ _ _ Hrun)
    as (d & Hid & _ & _ & _ & Huuid & Hstore).
  unfold delete_history. rewrite Hdb. cbn [fst snd store].
  rewrite Hstore, Huuid.
  destruct (ScanRecord_create w d).
  - split; [right; exists d; split; [reflexivity | congruence]|].
    split; [reflexivity|]. split.
    + apply deleteOne_last; [exact Hfresh | congruence].
    + intros Hnd. rewrite map_app. simpl.
      apply NoDup_app; [exact Hnd | repeat constructor; intros [] |].
      intros x Hx [<-|[]]. apply Hfresh. congruence.
  - split; [now left|]. split; [reflexivity|]. split.
    + now apply deleteOne_absent.
    + auto.
Qed.

Lemma diagnose_then_delete_restores_witness :
  store (snd (delete_history Sample.mongo "7d4a"
                (snd (diagnose (Sample.world (Resolved Sample.pneumonia)
                                  (Resolved tt))
                        Sample.with_image Sample.four))))
  = store Sample.four.
Proof.
  refine (proj1 (proj2 (proj2
    (diagnose_then_delete_restores
       (Sample.world (Resolved Sample.pneumonia) (Resolved tt)) Sample.mongo
       Sample.with_image Sample.four _ Sample.pneumonia_response
       eq_refl _ _)))).
  - simpl. intros H. repeat (destruct H as [H | H]; [discriminate H|]). exact H.
  - vm_compute. reflexivity.
Defined.

(** A record newer than all others sorts to the front. *)
Lemma sort_desc_newest {A : Type} (key : A -> Z) (l : list A) (d : A) :
  (forall x, In x l -> (key x < key d)%Z) ->
  sort_desc key (l ++ [d]) = d :: sort_desc key l.
Proof.
  induction l as [|a l IH]; intros H; [reflexivity|].
  simpl. rewrite IH by (intros x Hx; apply H; now right).
  simpl. destruct (Z.leb_spec (key d) (key a)) as [Hle|Hlt]; [|reflexivity].
  pose proof (H a (or_introl eq_refl)). lia.
Qed.

(** X12: a stored diagnosis is the first entry of the history. When
    [diagnose] succeeds, [ScanRecord.create] resolves and the clock is past
    every stored [createdAt], the next [fetchHistory()] (no parameters: page
    1 of 20) resolves with one record more in [total] and, as its first
    record, the new one: it carries the [scanId], predicted class and
    confidence of the response, and the records that were on the page before
    follow it in their old order. *)
Theorem diagnosed_scan_heads_history (w : World) (m : Mongo)
  (req : DiagnoseRequest) (st st1 : State) (r : DiagnosisResponse) :
  db_error m = None ->
  (forall d, ScanRecord_create w d = Resolved tt) ->
  (forall d, In d (store st) -> (Doc.createdAt d < Date_now w)%Z) ->
  diagnose w req st = (Ok r, st1) ->
  exists (before after : HistoryPage) (d : ScanRecord),
    Api.fetchHistory m None st = Resolved before /\
    Api.fetchHistory m None st1 = Resolved after /\
    records after = d :: firstn 19 (records before) /\
    Doc.scanId d = Resp.scanId r /\
    Doc.predictedClass (Doc.result d) = Resp.predicted_class r /\
    Doc.confidence (Doc.result d) = Resp.confidence r /\
    total after = (total before + 1)%Z.
Proof.
  intros Hdb Hcreate Hclock Hrun.
  destruct (diagnose_Ok_store _ _ _ _ _ Hrun)
    as (d & Hid & Hcls & Hconf & Hat & _ & Hstore).
  rewrite Hcreate in Hstore.
  assert (Hfilter : forall docs, filter (matches (build_filter m
                      (Api.fetchHistory_query None))) docs = docs).
  { intros docs. apply filter_all. reflexivity. }
  assert (Hpage : forall s,
    Api.fetchHistory m None s
    = Resolved
        {| records := firstn 20 (sort_desc Doc.createdAt (store s));
           total := Z.of_nat (List.length (store s));
           page := Some 1%Z; limit := Some 20%Z;
           pages := Math_ceil_div (Z.of_nat (List.length (store s))) (Some 20%Z) |}).
  { intros s. unfold Api.fetchHistory, history.
    change (page_of (Api.fetchHistory_query None)) with (Some 1%Z).
    change (limit_of (Api.fetchHistory_query None)) with (Some 20%Z).
    rewrite Hdb.
    change (regular (build_filter m (Api.fetchHistory_query None))
              (Some ((1 - 1) * 20)%Z) (Some 20%Z)) with true.
    cbv iota. unfold find_sorted, countDocuments, newest_first.
    rewrite Hfilter. reflexivity. }
  eexists _, _, d. rewrite !Hpage. split; [reflexivity|]. split; [reflexivity|].
  cbn [records total]. rewrite Hstore.
  rewrite sort_desc_newest by (intros x Hx; rewrite Hat; now apply Hclock).
  split.
  { rewrite firstn_firstn. reflexivity. }
  repeat (split; [assumption|]).
  rewrite length_app. simpl. lia.
Qed.

Lemma diagnosed_scan_heads_history_witness :
  exists (after : HistoryPage),
    Api.fetchHistory Sample.mongo None
      (snd (diagnose (Sample.world (Resolved Sample.pneumonia) (Resolved tt))
              Sample.with_image Sample.four))
    = Resolved after /\
    map Doc.scanId (records after) = ["7d4a"; "D"; "C"; "B"; "A"] /\
    total after = 5%Z.
Proof.
  assert (Hclock : forall x, In x (store Sample.four) ->
                     (Doc.createdAt x < 1700000000000)%Z).
  { simpl. intros x Hx.
    repeat (destruct Hx as [<- | Hx]; [reflexivity|]). destruct Hx. }
  destruct (diagnosed_scan_heads_history
              (Sample.world (Resolved Sample.pneumonia) (Resolved tt))
              Sample.mongo Sample.with_image Sample.four
              (snd (diagnose (Sample.world (Resolved Sample.pneumonia) (Resolved tt))
                      Sample.with_image Sample.four))
              Sample.pneumonia_response eq_refl (fun _ => eq_refl) Hclock
              eq_refl)
    as (before & after & d & Hb & Ha & _).
  exists after. split; [exact Ha|].
  vm_compute in Ha. injection Ha as <-. split; reflexivity.
Defined.

(** * Properties of the upload middleware and the health route *)

Lemma fileFilter_None (mimetype : string) :
  Http.fileFilter mimetype = None <-> In mimetype Http.allowed.
Proof.
  unfold Http.fileFilter.
  destruct (existsb (String.eqb mimetype) Http.allowed) eqn:E.
  - split; [intros _|reflexivity].
    apply existsb_exists in E. destruct E as (x & Hx & Heq).
    apply String.eqb_eq in Heq. now subst.
  - split; [discriminate|]. intros Hin.
    assert (existsb (String.eqb mimetype) Http.allowed = true).
    { apply existsb_exists. exists mimetype. split; [exact Hin|].
      apply String.eqb_refl. }
    congruence.
Qed.

Lemma MAX_MB_of_digits (k : Z) :
  Http.MAX_MB (Some (Text.String_of_Z k)) = Some k.
Proof.
  unfold Http.MAX_MB, param_or. rewrite String_of_Z_nonempty.
  apply parseInt_String_of_Z.
Qed.

(** A part of a media type the filter refuses goes to the error handler. *)
Lemma post_diagnose_refused_type (env : option string) (w : World)
  (f : File) (over_limit : bool) (patientData : option string) (n : Http.Node) :
  ~ In (mimetype f) Http.allowed ->
  Http.post_diagnose env w (Http.FilePart f over_limit) patientData n
  = (Err 500
       (String.append "Only JPEG, PNG, or WebP images are accepted (got "
          (String.append (mimetype f) ")")) None,
     {| Http.app := Http.app n;
        Http.errors :=
          Http.errors n ++
          [String.append "Only JPEG, PNG, or WebP images are accepted (got "
             (String.append (mimetype f) ")")] |}).
Proof.
  intros Hnot. unfold Http.post_diagnose.
  destruct (Http.fileFilter (mimetype f)) as [message|] eqn:E.
  - unfold Http.fileFilter in E.
    destruct (existsb (String.eqb (mimetype f)) Http.allowed);
      [discriminate|]. injection E as <-. reflexivity.
  - apply fileFilter_None in E. contradiction.
Qed.

(** X13: what reaches the diagnose handler has passed Multer. A file part
    whose media type is not one of [image/jpeg], [image/png], [image/webp]
    is answered by the error handler with 500 and the filter's message,
    which names the media type; an accepted type over the size limit is
    answered 413 with the limit in megabytes as configured (10 when
    [MAX_FILE_SIZE_MB] is not set); in both cases the handler does not run:
    no call to the inference service, nothing stored, nothing logged by it.
    Only an accepted type within the limit reaches the handler. *)
Theorem post_diagnose_screens_upload (env : option string) (w : World)
  (f : File) (over_limit : bool) (patientData : option string) (n : Http.Node) :
  (~ In (mimetype f) ["image/jpeg"; "image/png"; "image/webp"] ->
   Http.post_diagnose env w (Http.FilePart f over_limit) patientData n
   = (Err 500
        (String.append "Only JPEG, PNG, or WebP images are accepted (got "
           (String.append (mimetype f) ")")) None,
      {| Http.app := Http.app n;
         Http.errors :=
           Http.errors n ++
           [String.append "Only JPEG, PNG, or WebP images are accepted (got "
              (String.append (mimetype f) ")")] |})) /\
  (In (mimetype f) ["image/jpeg"; "image/png"; "image/webp"] ->
   over_limit = true ->
   exists message,
     Http.post_diagnose env w (Http.FilePart f over_limit) patientData n
     = (Err 413 message None, n) /\
     (env = None -> message = "File too large. Maximum is 10 MB.") /\
     (forall k, env = Some (Text.String_of_Z k) ->
        message = String.append "File too large. Maximum is "
                    (String.append (Text.String_of_Z k) " MB."))) /\
  (In (mimetype f) ["image/jpeg"; "image/png"; "image/webp"] ->
   over_limit = false ->
   Http.post_diagnose env w (Http.FilePart f over_limit) patientData n
   = (fst (diagnose w {| file := Some f; patientData := patientData |}
             (Http.app n)),
      {| Http.app :=
           snd (diagnose w {| file := Some f; patientData := patientData |}
                  (Http.app n));
         Http.errors := Http.errors n |})) /\
  (Http.app (snd (Http.post_diagnose env w (Http.FilePart f over_limit)
                    patientData n)) <> Http.app n ->
   In (mimetype f) ["image/jpeg"; "image/png"; "image/webp"] /\
   over_limit = false).
Proof.
  change ["image/jpeg"; "image/png"; "image/webp"] with Http.allowed.
  pose proof (post_diagnose_refused_type env w f over_limit patientData n)
    as Hbad.
  assert (Hover : In (mimetype f) Http.allowed -> over_limit = true ->
    Http.post_diagnose env w (Http.FilePart f over_limit) patientData n
    = (Err 413
         (String.append "File too large. Maximum is "
            (String.append (Text.show (Http.MAX_MB env)) " MB.")) None, n)).
  { intros Hin ->. apply fileFilter_None in Hin.
    unfold Http.post_diagnose. rewrite Hin. cbn.
    rewrite app_nil_r. destruct n; reflexivity. }
  split; [exact Hbad|]. split; [|split].
  - intros Hin Ho. eexists. split; [exact (Hover Hin Ho)|]. split.
    + intros ->. reflexivity.
    + intros k ->. now rewrite MAX_MB_of_digits.
  - intros Hin ->. apply fileFilter_None in Hin.
    unfold Http.post_diagnose. rewrite Hin.
    destruct (diagnose w _ (Http.app n)); reflexivity.
  - intros Hchanged.
    destruct (in_dec string_dec (mimetype f) Http.allowed) as [Hin|Hnot].
    + split; [exact Hin|]. destruct over_limit; [|reflexivity].
      rewrite (Hover Hin eq_refl) in Hchanged. now elim Hchanged.
    + rewrite (Hbad Hnot) in Hchanged. now elim Hchanged.
Qed.

Lemma lookup_put (k k' : string) (v : value) (fields : list (string * value)) :
  lookup k (Http.put k' v fields)
  = if String.eqb k k' then Some v else lookup k fields.
Proof.
  induction fields as [|[k0 v0] rest IH]; simpl.
  - reflexivity.
  - destruct (String.eqb_spec k' k0) as [->|Hne]; simpl.
    + destruct (String.eqb k k0); reflexivity.
    + rewrite IH. destruct (String.eqb_spec k k0) as [->|Hne'].
      * destruct (String.eqb_spec k0 k') as [E|_]; [now elim Hne | reflexivity].
      * reflexivity.
Qed.

(** After a spread the last binding of a key counts, else the one of the
    base. *)
Lemma lookup_fold_put (k : string) (kvs base : list (string * value)) :
  lookup k (fold_left (fun acc kv => Http.put (fst kv) (snd kv) acc) kvs base)
  = match lookup k (rev kvs) with
    | Some v => Some v
    | None => lookup k base
    end.
Proof.
  revert base. induction kvs as [|[k0 v0] rest IH]; intros base; simpl.
  - reflexivity.
  - rewrite IH, lookup_put. clear IH.
    assert (Happ : forall l, lookup k (l ++ [(k0, v0)])
                   = match lookup k l with
                     | Some v => Some v
                     | None => if String.eqb k k0 then Some v0 else None
                     end).
    { induction l as [|[k1 v1] l IHl]; simpl; [reflexivity|].
      destruct (String.eqb k k1); [reflexivity | exact IHl]. }
    rewrite Happ. destruct (lookup k (rev rest)); [reflexivity|].
    destruct (String.eqb k k0); reflexivity.
Qed.

Lemma lookup_In (k : string) (v : value) (l : list (string * value)) :
  lookup k l = Some v -> In (k, v) l.
Proof.
  induction l as [|[k1 v1] l IH]; cbn [lookup]; intros H; [discriminate|].
  destruct (String.eqb_spec k k1) as [<-|_].
  - injection H as <-. now left.
  - right. now apply IH.
Qed.

Lemma In_lookup (k : string) (v : value) (l : list (string * value)) :
  In (k, v) l -> lookup k l <> None.
Proof.
  induction l as [|[k1 v1] l IH]; cbn [lookup]; intros H; [destruct H|].
  destruct (String.eqb_spec k k1) as [_|Hne]; [discriminate|].
  destruct H as [H|H]; [injection H as <- _; now elim Hne|].
  now apply IH.
Qed.

Lemma lookup_rev_NoDup (k : string) (v : value) (kvs : list (string * value)) :
  NoDup (map fst kvs) -> lookup k kvs = Some v -> lookup k (rev kvs) = Some v.
Proof.
  induction kvs as [|[k0 v0] rest IH]; simpl; intros Hnd H; [discriminate|].
  apply NoDup_cons_iff in Hnd as [Hk0 Hnd].
  assert (Happ : forall l, lookup k (l ++ [(k0, v0)])
                 = match lookup k l with
                   | Some x => Some x
                   | None => if String.eqb k k0 then Some v0 else None
                   end).
  { induction l as [|[k1 v1] l IHl]; simpl; [reflexivity|].
    destruct (String.eqb k k1); [reflexivity | exact IHl]. }
  rewrite Happ.
  destruct (String.eqb_spec k k0) as [->|Hne].
  - injection H as <-.
    assert (Hnone : lookup k0 (rev rest) = None).
    { destruct (lookup k0 (rev rest)) as [x|] eqn:E; [|reflexivity].
      exfalso. apply Hk0.
      apply lookup_In, in_rev in E.
      now apply (in_map fst) in E. }
    now rewrite Hnone.
  - now rewrite (IH Hnd H).
Qed.

(** X14: the health route always answers 200, also with both services
    down. [python.status] is ['unreachable'] when the request to the
    inference service fails; when it succeeds, the body's properties are
    spread over [{status: 'ok'}], so a [status] of the body replaces
    ['ok'] and every property of the body shows in the answer; [mongo.status]
    is ['connected'] exactly when the connection's [readyState] is 1. *)
Theorem health_reports_dependencies (python : outcome value) (uptime : Qc)
  (readyState : Z) :
  exists h : Http.Health,
    Http.health python uptime readyState = Ok h /\
    Http.node h = [("status", VStr "ok"); ("uptime", VNum uptime)] /\
    (forall message, python = Rejected message ->
       Http.python h = [("status", VStr "unreachable")]) /\
    (forall data, python = Resolved data ->
       lookup "status" (Http.own_properties data) = None ->
       lookup "status" (Http.python h) = Some (VStr "ok")) /\
    (forall fields k v, python = Resolved (VObj fields) ->
       NoDup (map fst fields) ->
       lookup k fields = Some v ->
       lookup k (Http.python h) = Some v) /\
    (lookup "status" (Http.mongo h) = Some (VStr "connected") <->
     readyState = 1%Z) /\
    (lookup "status" (Http.mongo h) = Some (VStr "disconnected") <->
     readyState <> 1%Z).
Proof.
  assert (Hmongo :
    (lookup "status"
       [("status", VStr (if (readyState =? 1)%Z then "connected"
                         else "disconnected"))] = Some (VStr "connected") <->
     readyState = 1%Z) /\
    (lookup "status"
       [("status", VStr (if (readyState =? 1)%Z then "connected"
                         else "disconnected"))] = Some (VStr "disconnected") <->
     readyState <> 1%Z)).
  { cbn [lookup]. change (String.eqb "status" "status") with true. cbv iota.
    destruct (Z.eqb_spec readyState 1) as [E|E]; split; split; intros H;
      try assumption; try reflexivity; try discriminate H; congruence. }
  unfold Http.health.
  destruct python as [data|message]; eexists; (split; [reflexivity|]);
    cbn [Http.node Http.python Http.mongo]; (split; [reflexivity|]).
  - split; [discriminate|]. split; [|split; [|exact Hmongo]].
    + intros data' H Hnone. injection H as <-.
      unfold Http.spread. rewrite lookup_fold_put.
      destruct (lookup "status" (rev (Http.own_properties data))) as [x|] eqn:E;
        [|reflexivity].
      exfalso. apply lookup_In, in_rev, In_lookup in E. contradiction.
    + intros fields k v H Hnd Hk. injection H as ->.
      unfold Http.spread. rewrite lookup_fold_put.
      cbn [Http.own_properties]. now rewrite (lookup_rev_NoDup k v fields Hnd Hk).
  - split; [intros m _; reflexivity|]. split; [discriminate|].
    split; [discriminate|]. exact Hmongo.
Qed.

(** * Further properties of the client *)

(** ** What [submitDiagnosis] hands to the client *)

Lemma jsonify_defined (v x : value) : Api.jsonify v = Some x -> x <> VUndefined.
Proof.
  destruct v; simpl; intros H; try discriminate H; injection H as <-;
    discriminate.
Qed.

Lemma jsonify_truthy (v : value) :
  truthy v = true -> exists x, Api.jsonify v = Some x /\ x <> VUndefined.
Proof.
  destruct v; simpl; intros H; try discriminate H;
    eexists; (split; [reflexivity | discriminate]).
Qed.

(** Reading a key of a serialised object whose keys are distinct. *)
Lemma lookup_jsonify_fields (k : string) (fields : list (string * value)) :
  NoDup (map fst fields) ->
  lookup k (flat_map (fun kv => match Api.jsonify (snd kv) with
                                | Some y => [(fst kv, y)]
                                | None => []
                                end) fields)
  = match lookup k fields with
    | Some v => Api.jsonify v
    | None => None
    end.
Proof.
  induction fields as [|[k0 v0] rest IH]; intros Hnd; [reflexivity|].
  apply NoDup_cons_iff in Hnd as [Hk0 Hnd]. cbn [flat_map fst snd lookup].
  destruct (String.eqb_spec k k0) as [->|Hne].
  - destruct (Api.jsonify v0) as [y|] eqn:E.
    + cbn [app lookup]. now rewrite String.eqb_refl.
    + cbn [app]. rewrite (IH Hnd).
      destruct (lookup k0 rest) as [v|] eqn:El; [|reflexivity].
      exfalso. apply Hk0. apply lookup_In in El.
      now apply (in_map fst) in El.
  - destruct (Api.jsonify v0) as [y|]; cbn [app lookup].
    + apply String.eqb_neq in Hne. rewrite Hne. now apply IH.
    + now apply IH.
Qed.

Lemma read_to_json (r : Server.DiagnosisResponse) (k : string) :
  Api.read (Api.to_json r) k
  = match lookup k
            [ ("scanId", VStr (Resp.scanId r));
              ("predicted_class", Resp.predicted_class r);
              ("confidence", Resp.confidence r);
              ("severity", Resp.severity r);
              ("probabilities", Resp.probabilities r);
              ("affected_regions", Resp.affected_regions r);
              ("recommendations", Resp.recommendations r);
              ("demo_mode", Resp.demo_mode r);
              ("created_at", VStr (Resp.created_at r)) ] with
    | Some v => match Api.jsonify v with
                | Some x => x
                | None => VUndefined
                end
    | None => VUndefined
    end.
Proof.
  unfold Api.read, Api.to_json, Api.json_fields.
  cbn [Api.jsonify prop].
  rewrite lookup_jsonify_fields.
  - destruct (lookup k _) as [v|]; [|reflexivity].
    destruct (Api.jsonify v); reflexivity.
  - cbn [map fst]. repeat constructor; cbn [In]; intuition discriminate.
Qed.

(** X15: what the client holds after a successful diagnosis. The result
    written to the session carries the backend's [scanId]; its disease,
    confidence and probabilities are the upstream answer's values as JSON
    carries them; its severity and demo flag are always defined; and its
    [heatmapUrl] is always the empty string: the backend's response has no
    [heatmap_b64] field, whatever the upstream answer holds. *)
Theorem client_result_of_diagnose (w : World) (req : DiagnoseRequest)
  (st st' : State) (r : DiagnosisResponse) :
  diagnose w req st = (Ok r, st') ->
  exists (f : File) (aiResult : value) (res : Client.DiagnosisApiResult),
    file req = Some f /\
    callPythonAPI w f = Resolved aiResult /\
    Api.submitDiagnosis (Resolved (Ok r)) = Resolved res /\
    Client.heatmapUrl (Client.to_result res) = VStr "" /\
    Client.scanId (Client.to_result res) = VStr (uuidv4 w) /\
    (forall x, prop aiResult "predicted_class" = Some x ->
       Client.disease (Client.to_result res)
       = match Api.jsonify x with Some y => y | None => VUndefined end) /\
    (forall x, prop aiResult "confidence" = Some x ->
       Client.confidence (Client.to_result res)
       = match Api.jsonify x with Some y => y | None => VUndefined end) /\
    (forall x, prop aiResult "probabilities" = Some x ->
       Client.probabilities (Client.to_result res)
       = match Api.jsonify x with Some y => y | None => VUndefined end) /\
    Client.severity (Client.to_result res) <> VUndefined /\
    Client.demoMode (Client.to_result res) <> VUndefined.
Proof.
  intros Hrun. apply diagnose_Ok in Hrun.
  destruct Hrun as (f & patient & aiResult & Hf & _ & Hcall & Hbody & _).
  apply response_body_fields in Hbody.
  destruct Hbody as (sev & dm & Hsev & Hdm & Hpc & Hcf & Hpr & _ & _
                     & Hrsev & Hrdm & Hid & _).
  exists f, aiResult. eexists. split; [exact Hf|]. split; [exact Hcall|].
  split; [reflexivity|].
  cbn [Client.to_result Api.of_json Client.heatmapUrl Client.scanId
       Client.disease Client.confidence Client.probabilities Client.severity
       Client.demoMode Client.heatmap_b64 Client.api_scanId
       Client.predicted_class Client.api_confidence Client.api_probabilities
       Client.api_severity Client.demo_mode].
  rewrite !read_to_json. cbn [lookup String.eqb Ascii.eqb Bool.eqb].
  cbn [Api.jsonify Client.nullish].
  split; [reflexivity|]. split; [now rewrite Hid|].
  split; [intros x Hx; rewrite Hpc in Hx; injection Hx as <-; reflexivity|].
  split; [intros x Hx; rewrite Hcf in Hx; injection Hx as <-; reflexivity|].
  split; [intros x Hx; rewrite Hpr in Hx; injection Hx as <-; reflexivity|].
  assert (Htruthy : forall a b, truthy b = true -> truthy (or_else a b) = true).
  { intros a b Hb. unfold or_else. destruct (truthy a) eqn:E; assumption. }
  split.
  - rewrite Hrsev.
    destruct (jsonify_truthy (or_else sev (VStr (_inferSeverity (Resp.predicted_class r)))))
      as (x & -> & Hx); [|exact Hx].
    apply Htruthy. unfold _inferSeverity.
    destruct (negb (truthy (Resp.predicted_class r))
              || strict_eq_str (Resp.predicted_class r) "Normal");
      [reflexivity|].
    destruct (includes _ _); reflexivity.
  - rewrite Hrdm. unfold or_else.
    destruct (truthy dm) eqn:E.
    + destruct (jsonify_truthy dm E) as (x & -> & Hx). exact Hx.
    + simpl. discriminate.
Qed.

Lemma client_result_of_diagnose_witness :
  exists res : Client.DiagnosisApiResult,
    Api.submitDiagnosis
      (Resolved
         (fst (diagnose (Sample.world (Resolved Sample.pneumonia) (Resolved tt))
                 Sample.with_image Sample.fresh)))
    = Resolved res /\
    Client.heatmapUrl (Client.to_result res) = VStr "" /\
    Client.disease (Client.to_result res) = VStr "Pneumonia".
Proof.
  destruct (client_result_of_diagnose
              (Sample.world (Resolved Sample.pneumonia) (Resolved tt))
              Sample.with_image Sample.fresh
              (snd (diagnose (Sample.world (Resolved Sample.pneumonia) (Resolved tt))
                      Sample.with_image Sample.fresh))
              Sample.pneumonia_response eq_refl)
    as (f & aiResult & res & _ & Hcall & Hres & Hheat & _ & Hdis & _).
  exists res. split; [exact Hres|]. split; [exact Hheat|].
  injection Hcall as <-. exact (Hdis (VStr "Pneumonia") eq_refl).
Defined.

(** ** A diagnosis that fails *)

(** The error answers of the diagnose handler. *)
Lemma diagnose_errors (w : World) (req : DiagnoseRequest) (st : State)
  (status : Z) (error : string) (detail : option exn) :
  fst (diagnose w req st) = Err status error detail ->
  (status = 400%Z /\ error = "Image file is required (field name: image)") \/
  (status = 400%Z /\ error = "patientData must be valid JSON") \/
  (status = 502%Z /\
   error = "AI inference service is unavailable. Please ensure the Python API is running.") \/
  (status = 500%Z /\ error = "Internal server error").
Proof.
  unfold diagnose.
  destruct (file req) as [f|]; cbn [fst].
  - destruct (parse_patient w (patientData req)) as [patient|]; cbn [fst].
    + destruct (callPythonAPI w f) as [aiResult|message]; cbn [fst].
      * destruct (response_body w aiResult); cbn [fst]; intros H;
          [discriminate H|]. injection H as <- <- _. tauto.
      * intros H. injection H as <- <- _. tauto.
    + intros H. injection H as <- <- _. tauto.
  - intros H. injection H as <- <- _. tauto.
Qed.

(** Every error answer of the route is outside the 2xx range and carries a
    non-empty [error]. *)
Lemma post_diagnose_errors (env : option string) (w : World) (up : Http.Upload)
  (patientData : option string) (n : Http.Node)
  (status : Z) (error : string) (detail : option exn) :
  fst (Http.post_diagnose env w up patientData n) = Err status error detail ->
  Api.ok status = false /\ String.eqb error "" = false.
Proof.
  assert (Hhandler : forall req st,
            fst (diagnose w req st) = Err status error detail ->
            Api.ok status = false /\ String.eqb error "" = false).
  { intros req st H. apply diagnose_errors in H.
    destruct H as [[-> ->]|[[-> ->]|[[-> ->]|[-> ->]]]]; split; reflexivity. }
  unfold Http.post_diagnose. destruct up as [|f over_limit].
  - destruct (diagnose w _ (Http.app n)) as [reply st] eqn:E. cbn [fst].
    intros H. apply (Hhandler {| file := None; patientData := patientData |}
                       (Http.app n)). now rewrite E.
  - destruct (Http.fileFilter (mimetype f)) as [message|] eqn:E.
    + unfold Http.fileFilter in E.
      destruct (existsb (String.eqb (mimetype f)) Http.allowed); [discriminate|].
      injection E as <-. cbn. intros H. injection H as <- <- _.
      split; reflexivity.
    + destruct over_limit.
      * cbn. intros H. injection H as <- <- _. split; reflexivity.
      * destruct (diagnose w _ (Http.app n)) as [reply st] eqn:Ed. cbn [fst].
        intros H. apply (Hhandler {| file := Some f; patientData := patientData |}
                           (Http.app n)). now rewrite Ed.
Qed.

Lemma remove_id_other (id : nat) (l : list nat) :
  ~ In id (Client.remove_id id l).
Proof.
  unfold Client.remove_id. intros H. apply filter_In in H.
  destruct H as [_ H]. now rewrite Nat.eqb_refl in H.
Qed.

(** X16: a failed diagnosis shows the backend's own message. Whatever the
    route answers with an error status (the handler's 400, 502 or 500, the
    upload filter's 500, the size limit's 413), [submitDiagnosis] rejects
    with the [error] text of that answer, and the processing page that sent
    the request shows this text: its timers stop, its progress stays where
    it was (it does not jump to 100), no navigation to the results is
    scheduled, the session is left as it was, and the request is no longer
    in flight. *)
Theorem diagnose_failure_reaches_user (env : option string) (w : World)
  (up : Http.Upload) (patientData : option string) (n : Http.Node)
  (a : Client.App) (p : Client.Animation)
  (status : Z) (error : string) (detail : option exn) :
  Client.animation a = Some p ->
  In (Client.instance p) (Client.calls a) ->
  fst (Http.post_diagnose env w up patientData n) = Err status error detail ->
  Api.submitDiagnosis (Resolved (Err status error detail)) = Rejected error /\
  exists p' : Client.Animation,
    Client.animation
      (Client.step
         (Client.Settle (Client.instance p)
            (Api.submitDiagnosis (Resolved (Err status error detail)))) a)
    = Some p' /\
    Client.error p' = Some error /\
    Client.progress p' = Client.progress p /\
    Client.progressInterval p' = false /\
    Client.stepTimers p' = [] /\
    Client.session
      (Client.step
         (Client.Settle (Client.instance p)
            (Api.submitDiagnosis (Resolved (Err status error detail)))) a)
    = Client.session a /\
    Client.location
      (Client.step
         (Client.Settle (Client.instance p)
            (Api.submitDiagnosis (Resolved (Err status error detail)))) a)
    = Client.location a /\
    Client.navTimers
      (Client.step
         (Client.Settle (Client.instance p)
            (Api.submitDiagnosis (Resolved (Err status error detail)))) a)
    = Client.navTimers a /\
    ~ In (Client.instance p)
        (Client.calls
           (Client.step
              (Client.Settle (Client.instance p)
                 (Api.submitDiagnosis (Resolved (Err status error detail)))) a)).
Proof.
  intros Hanim Hcall Hreply.
  destruct (post_diagnose_errors _ _ _ _ _ _ _ _ Hreply) as [Hok Hne].
  assert (Hsub : Api.submitDiagnosis (Resolved (Err status error detail))
                 = Rejected error).
  { unfold Api.submitDiagnosis. now rewrite Hok, Hne. }
  split; [exact Hsub|]. rewrite Hsub.
  assert (Hex : existsb (Nat.eqb (Client.instance p)) (Client.calls a) = true).
  { apply existsb_exists. exists (Client.instance p). split; [exact Hcall|].
    apply Nat.eqb_refl. }
  unfold Client.step. rewrite Hex, Hanim.
  cbn [option_map Client.animation Client.session Client.location
       Client.navTimers Client.calls].
  unfold Client.settle_animation. rewrite Nat.eqb_refl.
  eexists. split; [reflexivity|].
  cbn [Client.error Client.progress Client.progressInterval Client.stepTimers].
  repeat (split; [reflexivity|]). apply remove_id_other.
Qed.

Lemma diagnose_failure_reaches_user_witness :
  exists p' : Client.Animation,
    Client.animation
      (Client.step
         (Client.Settle 0
            (Api.submitDiagnosis
               (Resolved
                  (Err 502
                     "AI inference service is unavailable. Please ensure the Python API is running."
                     (Some (Error "ECONNREFUSED"))))))
         (Client.run
            [ Client.Go Client.PatientDetails;
              Client.SubmitPatient Sample.first_patient;
              Client.Analyze Sample.chest ] Client.initial))
    = Some p' /\
    Client.error p'
    = Some "AI inference service is unavailable. Please ensure the Python API is running.".
Proof.
  destruct (diagnose_failure_reaches_user None
              (Sample.world (Rejected "ECONNREFUSED") (Resolved tt))
              (Http.FilePart Sample.image false) (Some "{}")
              {| Http.app := Sample.fresh; Http.errors := [] |}
              (Client.run
                 [ Client.Go Client.PatientDetails;
                   Client.SubmitPatient Sample.first_patient;
                   Client.Analyze Sample.chest ] Client.initial)
              {| Client.instance := 0; Client.currentStep := 0;
                 Client.progress := 0; Client.error := None;
                 Client.calledRef := true; Client.elapsed := 0;
                 Client.progressInterval := true;
                 Client.stepTimers := [0; 1; 2; 3]%nat |}
              502
              "AI inference service is unavailable. Please ensure the Python API is running."
              (Some (Error "ECONNREFUSED"))
              eq_refl (or_introl eq_refl) eq_refl)
    as (_ & p' & Hp' & Herr & _).
  exists p'. split; [exact Hp' | exact Herr].
Defined.

(** ** The progress bar *)

Lemma run_app (xs ys : list Client.Event) (a : Client.App) :
  Client.run (xs ++ ys) a = Client.run ys (Client.run xs a).
Proof.
  unfold Client.run. apply fold_left_app.
Qed.

Lemma run_ticks (n : nat) (a : Client.App) (p : Client.Animation) :
  Client.animation a = Some p ->
  Client.progressInterval p = true ->
  (0 < n)%nat ->
  exists p',
    Client.animation (Client.run (repeat Client.Tick n) a) = Some p' /\
    Client.elapsed p' = (Client.elapsed p + 50 * Z.of_nat n)%Z /\
    Client.progressInterval p' = true /\
    Client.progress p'
    = Qmin (inject_Z (Client.elapsed p + 50 * Z.of_nat n)
            / inject_Z Client.totalDuration * 90) 90 /\
    Client.instance p' = Client.instance p /\
    Client.error p' = Client.error p /\
    Client.session (Client.run (repeat Client.Tick n) a) = Client.session a /\
    Client.location (Client.run (repeat Client.Tick n) a) = Client.location a /\
    Client.calls (Client.run (repeat Client.Tick n) a) = Client.calls a.
Proof.
  intros Hanim Hint Hn. destruct n as [|n]; [lia|]. clear Hn.
  revert a p Hanim Hint. induction n as [|n IH]; intros a p Hanim Hint.
  - cbn [repeat Client.run fold_left Client.step]. rewrite Hanim.
    cbn [option_map Client.with_animation Client.animation Client.session
         Client.location Client.calls].
    unfold Client.tick. rewrite Hint.
    eexists. split; [reflexivity|].
    cbn [Client.elapsed Client.progressInterval Client.progress
         Client.instance Client.error].
    replace (Client.elapsed p + 50 * Z.of_nat 1)%Z with (Client.elapsed p + 50)%Z
      by lia.
    repeat split; reflexivity.
  - change (repeat Client.Tick (S (S n)))
      with ([Client.Tick] ++ repeat Client.Tick (S n)).
    rewrite run_app.
    set (a1 := Client.run [Client.Tick] a).
    assert (H1 : Client.animation a1 = Some (Client.tick p)).
    { subst a1. cbn [Client.run fold_left Client.step]. now rewrite Hanim. }
    assert (H2 : Client.progressInterval (Client.tick p) = true).
    { unfold Client.tick. now rewrite Hint. }
    destruct (IH a1 (Client.tick p) H1 H2)
      as (p' & Hp' & Hel & Hpi & Hpr & Hin & Her & Hs & Hl & Hc).
    exists p'. split; [exact Hp'|].
    assert (Hel1 : Client.elapsed (Client.tick p) = (Client.elapsed p + 50)%Z).
    { unfold Client.tick. now rewrite Hint. }
    assert (Hin1 : Client.instance (Client.tick p) = Client.instance p).
    { unfold Client.tick. now rewrite Hint. }
    assert (Her1 : Client.error (Client.tick p) = Client.error p).
    { unfold Client.tick. now rewrite Hint. }
    rewrite Hel1 in Hel, Hpr.
    replace (Client.elapsed p + 50 * Z.of_nat (S (S n)))%Z
      with (Client.elapsed p + 50 + 50 * Z.of_nat (S n))%Z by lia.
    split; [exact Hel|]. split; [exact Hpi|]. split; [exact Hpr|].
    split; [congruence|]. split; [congruence|].
    subst a1. cbn [Client.run fold_left Client.step] in Hs, Hl, Hc.
    cbn [Client.with_animation Client.session Client.location Client.calls]
      in Hs, Hl, Hc.
    split; [exact Hs|]. split; [exact Hl | exact Hc].
Qed.

(** Clicking "Analyze" with a file: the processing page mounts and its
    request goes out. *)
Lemma step_Analyze (a : Client.App) (d : Client.ScanData) (f : Client.File) :
  Client.location a = Client.UploadScan ->
  Client.hasValidScan d = true ->
  Client.file d = Some f ->
  Client.step (Client.Analyze d) a
  = {| Client.session := Client.setScanData d (Client.session a);
       Client.location := Client.Processing;
       Client.animation :=
         Some {| Client.instance := Client.mounts a;
                 Client.currentStep := 0;
                 Client.progress := 0;
                 Client.error := None;
                 Client.calledRef := true;
                 Client.elapsed := 0;
                 Client.progressInterval := true;
                 Client.stepTimers := [0; 1; 2; 3]%nat |};
       Client.calls := Client.calls a ++ [Client.mounts a];
       Client.navTimers := Client.navTimers a;
       Client.mounts := S (Client.mounts a) |}.
Proof.
  intros Hloc Hvalid Hfile.
  unfold Client.step. rewrite Hloc, Hvalid. cbn [Client.Route_eqb andb].
  unfold Client.navigate.
  cbn [Client.with_session Client.session Client.location Client.setScanData
       Client.scanData Client.redirect Client.isSome Client.calls
       Client.navTimers Client.mounts].
  rewrite Hloc. unfold Client.start. rewrite Hfile. reflexivity.
Qed.

Lemma bar_value (n : Z) :
  (inject_Z (0 + 50 * n) / inject_Z Client.totalDuration * 90
   == (5 # 6) * inject_Z n)%Q.
Proof.
  change Client.totalDuration with 5400%Z.
  rewrite Z.add_0_l, inject_Z_mult.
  change (inject_Z 50) with (50 # 1)%Q. change (inject_Z 5400) with (5400 # 1)%Q.
  field.
Qed.

(** X17: the schedule of the progress bar. From the click on "Analyze"
    with a file, while the request is in flight, the bar shows five sixths
    of a percent for each 50 ms tick of its interval, so it reaches 90 after
    108 ticks, which is the 5400 ms the four steps add up to, and it stays at
    90 however many ticks follow; the request is still in flight and the
    session's result is untouched. *)
Theorem progress_bar_schedule (a : Client.App) (d : Client.ScanData)
  (f : Client.File) (n : nat) :
  Client.location a = Client.UploadScan ->
  Client.hasValidScan d = true ->
  Client.file d = Some f ->
  (0 < n)%nat ->
  exists p : Client.Animation,
    Client.animation
      (Client.run (Client.Analyze d :: repeat Client.Tick n) a) = Some p /\
    Client.elapsed p = (50 * Z.of_nat n)%Z /\
    ((n <= 108)%nat ->
     (Client.progress p == (5 # 6) * inject_Z (Z.of_nat n))%Q) /\
    ((108 <= n)%nat -> (Client.progress p == 90)%Q) /\
    Client.error p = None /\
    In (Client.instance p)
       (Client.calls
          (Client.run (Client.Analyze d :: repeat Client.Tick n) a)) /\
    Client.diagnosisResult
      (Client.session
         (Client.run (Client.Analyze d :: repeat Client.Tick n) a))
    = Client.diagnosisResult (Client.session a).
Proof.
  intros Hloc Hvalid Hfile Hn.
  change (Client.Analyze d :: repeat Client.Tick n)
    with ([Client.Analyze d] ++ repeat Client.Tick n).
  rewrite run_app.
  change (Client.run [Client.Analyze d] a)
    with (Client.step (Client.Analyze d) a).
  rewrite (step_Analyze a d f Hloc Hvalid Hfile).
  match goal with
  | |- context [Client.run _ ?b] =>
      destruct (run_ticks n b _ eq_refl eq_refl Hn)
        as (p & Hp & Hel & _ & Hpr & Hin & Her & Hs & _ & Hc)
  end.
  exists p. split; [exact Hp|].
  cbn [Client.elapsed Client.instance Client.error] in Hel, Hpr, Hin, Her.
  split; [rewrite Hel; lia|].
  pose proof (bar_value (Z.of_nat n)) as Hbar.
  split; [|split; [|split; [|split]]].
  - intros Hle. rewrite Hpr, Q.min_l; [exact Hbar|].
    rewrite Hbar.
    assert (H : (inject_Z (Z.of_nat n) <= inject_Z 108)%Q)
      by (rewrite <- Zle_Qle; lia).
    change (inject_Z 108) with (108 # 1)%Q in H. lra.
  - intros Hge. rewrite Hpr, Q.min_r; [reflexivity|].
    rewrite Hbar.
    assert (H : (inject_Z 108 <= inject_Z (Z.of_nat n))%Q)
      by (rewrite <- Zle_Qle; lia).
    change (inject_Z 108) with (108 # 1)%Q in H. lra.
  - exact Her.
  - rewrite Hc, Hin. cbn [Client.calls]. apply in_or_app. right. now left.
  - rewrite Hs. reflexivity.
Qed.

Lemma progress_bar_schedule_witness :
  exists p : Client.Animation,
    Client.animation
      (Client.run (Client.Analyze Sample.chest :: repeat Client.Tick 6)
         (Client.run [ Client.Go Client.PatientDetails;
                       Client.SubmitPatient Sample.first_patient ]
            Client.initial)) = Some p /\
    (Client.progress p == 5)%Q.
Proof.
  destruct (progress_bar_schedule
              (Client.run [ Client.Go Client.PatientDetails;
                            Client.SubmitPatient Sample.first_patient ]
                 Client.initial)
              Sample.chest
              {| Client.name := "chest.png"; Client.type := "image/png";
                 Client.size := 3 |} 6
              eq_refl eq_refl eq_refl ltac:(lia))
    as (p & Hp & _ & Hlow & _).
  exists p. split; [exact Hp|].
  rewrite (Hlow ltac:(lia)). reflexivity.
Defined.

(** ** The processing page between events *)

Lemma invariant_initial : processing_invariant Client.initial.
Proof.
  unfold processing_invariant. simpl.
  split; [constructor|]. split; [intros id []|discriminate].
Qed.

Lemma redirect_Processing (s : Client.Session) (r : Client.Route) :
  Client.redirect s r = Client.Processing -> Client.scanData s <> None.
Proof.
  intros H. pose proof (redirect_guard s r) as G. rewrite H in G.
  destruct (Client.scanData s); [discriminate | discriminate G].
Qed.

Lemma invariant_leave (a : Client.App) (target : Client.Route) :
  processing_invariant a ->
  target <> Client.Processing ->
  processing_invariant
    {| Client.session := Client.session a;
       Client.location := target;
       Client.animation := None;
       Client.calls := Client.calls a;
       Client.navTimers := Client.navTimers a;
       Client.mounts := Client.mounts a |}.
Proof.
  intros (Hnd & Hlt & _) Ht. unfold processing_invariant. simpl.
  split; [exact Hnd|]. split; [exact Hlt | exact Ht].
Qed.

Lemma invariant_mount (a : Client.App) (scan : Client.ScanData) :
  processing_invariant a ->
  processing_invariant
    (let (anim, called) := Client.start (Client.mounts a) scan in
     {| Client.session := Client.session a;
        Client.location := Client.Processing;
        Client.animation := Some anim;
        Client.calls := if called then Client.calls a ++ [Client.mounts a]
                        else Client.calls a;
        Client.navTimers := Client.navTimers a;
        Client.mounts := S (Client.mounts a) |}).
Proof.
  intros (Hnd & Hlt & _). unfold Client.start.
  destruct (Client.file scan); unfold processing_invariant;
    cbn [Client.calls Client.mounts Client.animation Client.location
         Client.instance Client.currentStep Client.stepTimers Client.error
         Client.progressInterval Client.progress].
  - split.
    { apply NoDup_app; [exact Hnd | repeat constructor; intros [] |].
      intros x Hx [<-|[]]. apply Hlt in Hx. lia. }
    split.
    { intros id Hid. apply in_app_or in Hid.
      destruct Hid as [Hid|[<-|[]]]; [apply Hlt in Hid|]; lia. }
    split; [reflexivity|]. split; [lia|]. split; [simpl; lia|].
    split; [simpl; intros i Hi; lia|].
    split.
    { intros _. split; [reflexivity|]. split; [reflexivity | discriminate]. }
    intros Hnot. exfalso. apply Hnot. apply in_or_app. right. now left.
  - split; [exact Hnd|].
    split; [intros id Hid; apply Hlt in Hid; lia|].
    split; [reflexivity|]. split; [lia|]. split; [simpl; lia|].
    split; [intros i []|].
    split; [intros Hin; apply Hlt in Hin; lia|].
    intros _. split; reflexivity.
Qed.

Lemma invariant_navigate (r : Client.Route) (a : Client.App) :
  processing_invariant a -> processing_invariant (Client.navigate r a).
Proof.
  intros Hinv. unfold Client.navigate.
  destruct (Client.redirect (Client.session a) r) eqn:Hr;
    try (apply invariant_leave; [exact Hinv | discriminate]).
  pose proof (redirect_Processing _ _ Hr) as Hscan.
  destruct (Client.scanData (Client.session a)) as [scan|]; [|now elim Hscan].
  destruct (Client.location a); try exact Hinv;
    exact (invariant_mount a scan Hinv).
Qed.

Lemma invariant_session (s : Client.Session) (a : Client.App) :
  processing_invariant a -> processing_invariant (Client.with_session s a).
Proof.
  intros H. exact H.
Qed.

Lemma invariant_animation (f : Client.Animation -> Client.Animation)
  (a : Client.App) :
  (forall p,
     Client.instance (f p) = Client.instance p /\
     ((Client.currentStep p < List.length Client.processingSteps)%nat ->
      (forall i, In i (Client.stepTimers p) ->
                 (i < List.length Client.processingSteps)%nat) ->
      (Client.currentStep (f p) < List.length Client.processingSteps)%nat) /\
     (forall i, In i (Client.stepTimers (f p)) -> In i (Client.stepTimers p)) /\
     (Client.error p = None -> Client.progressInterval p = true ->
      (Client.progress p <= 90)%Q ->
      Client.error (f p) = None /\ Client.progressInterval (f p) = true /\
      (Client.progress (f p) <= 90)%Q) /\
     (Client.progressInterval p = false -> Client.stepTimers p = [] ->
      Client.progressInterval (f p) = false /\ Client.stepTimers (f p) = [])) ->
  processing_invariant a ->
  processing_invariant (Client.with_animation (option_map f (Client.animation a)) a).
Proof.
  intros Hf (Hnd & Hlt & Hanim). unfold processing_invariant.
  cbn [Client.with_animation Client.calls Client.mounts Client.animation
       Client.location].
  split; [exact Hnd|]. split; [exact Hlt|].
  destruct (Client.animation a) as [p|]; cbn [option_map]; [|exact Hanim].
  destruct Hanim as (Hloc & Hinst & Hcur & Htim & Hrun & Hdone).
  destruct (Hf p) as (Fi & Fc & Ft & Fr & Fd).
  rewrite Fi. split; [exact Hloc|]. split; [exact Hinst|].
  split; [now apply Fc|]. split; [intros i Hi; apply Htim, Ft, Hi|].
  split.
  - intros Hin. destruct (Hrun Hin) as (He & Hp & Hq). now apply Fr.
  - intros Hnot. destruct (Hdone Hnot) as (Hp & Ht). now apply Fd.
Qed.

Lemma invariant_step (e : Client.Event) (a : Client.App) :
  processing_invariant a -> processing_invariant (Client.step e a).
Proof.
  intros Hinv. destruct e as [p|d| | |r| |idx|id result|]; cbn [Client.step].
  - destruct (Client.Route_eqb _ _); [|exact Hinv].
    now apply invariant_navigate, invariant_session.
  - destruct (_ && _); [|exact Hinv].
    now apply invariant_navigate, invariant_session.
  - destruct (Client.Route_eqb _ _); [|exact Hinv].
    now apply invariant_navigate, invariant_session.
  - destruct (step_TryAgain a) as [H|H]; cbn [Client.step] in H; rewrite H;
      [exact Hinv | now apply invariant_navigate].
  - now apply invariant_navigate.
  - apply invariant_animation; [|exact Hinv].
    intros p. unfold Client.tick.
    destruct (Client.progressInterval p) eqn:Hint;
      cbn [Client.instance Client.currentStep Client.stepTimers Client.error
           Client.progressInterval Client.progress].
    + split; [reflexivity|]. split; [auto|]. split; [auto|].
      split; [|discriminate].
      intros He _ _. split; [exact He|]. split; [reflexivity|].
      apply Q.le_min_r.
    + split; [reflexivity|]. split; [auto|]. split; [auto|].
      split; [intros _ H; discriminate H | auto].
  - apply invariant_animation; [|exact Hinv].
    intros p. unfold Client.step_timer.
    destruct (existsb (Nat.eqb idx) (Client.stepTimers p)) eqn:Hex;
      cbn [Client.instance Client.currentStep Client.stepTimers Client.error
           Client.progressInterval Client.progress].
    + apply existsb_eqb_In in Hex.
      split; [reflexivity|]. split; [intros _ Ht; now apply Ht|].
      split; [intros i Hi; now apply remove_id_In in Hi|].
      split; [auto|].
      intros _ Ht. rewrite Ht in Hex. destruct Hex.
    + split; [reflexivity|]. split; [auto|]. split; [auto|]. split; auto.
  - destruct (existsb (Nat.eqb id) (Client.calls a)) eqn:Hex; [|exact Hinv].
    destruct Hinv as (Hnd & Hlt & Hanim).
    assert (Hsettled :
      processing_invariant
        {| Client.session := Client.session a;
           Client.location := Client.location a;
           Client.animation :=
             option_map (Client.settle_animation id result) (Client.animation a);
           Client.calls := Client.remove_id id (Client.calls a);
           Client.navTimers := Client.navTimers a;
           Client.mounts := Client.mounts a |}).
    { unfold processing_invariant.
      cbn [Client.calls Client.mounts Client.animation Client.location].
      split; [apply NoDup_filter, Hnd|].
      split; [intros x Hx; apply remove_id_In in Hx; now apply Hlt|].
      destruct (Client.animation a) as [p|]; cbn [option_map]; [|exact Hanim].
      destruct Hanim as (Hloc & Hinst & Hcur & Htim & Hrun & Hdone).
      unfold Client.settle_animation.
      destruct (Nat.eqb_spec (Client.instance p) id) as [E|E].
      - assert (Hgone : forall q, Client.instance q = id ->
                          ~ In (Client.instance q)
                              (Client.remove_id id (Client.calls a))).
        { intros q ->. apply remove_id_other. }
        destruct result;
          cbn [Client.instance Client.currentStep Client.stepTimers
               Client.error Client.progressInterval Client.progress];
          (split; [exact Hloc|]; split; [exact Hinst|]; split; [exact Hcur|];
           split; [intros i []|]; split;
           [intros Hin; exfalso; rewrite E in Hin;
            now apply remove_id_other in Hin
           | intros _; split; reflexivity]).
      - split; [exact Hloc|]. split; [exact Hinst|]. split; [exact Hcur|].
        split; [exact Htim|]. split.
        + intros Hin. apply remove_id_In in Hin. apply Hrun, Hin.
        + intros Hnot. apply Hdone. intros Hin. apply Hnot.
          apply remove_id_In. now split. }
    destruct result; exact Hsettled.
  - destruct (Client.navTimers a); [exact Hinv|].
    apply invariant_navigate. exact Hinv.
Qed.

Lemma invariant_run (events : list Client.Event) (a : Client.App) :
  processing_invariant a -> processing_invariant (Client.run events a).
Proof.
  revert a. induction events as [|e events IH]; intros a H; [exact H|].
  apply IH. now apply invariant_step.
Qed.

(** X18: the processing page between events. After every sequence of
    client events from the start: the requests in flight are pairwise
    distinct; the processing page is mounted exactly when its route is
    shown; the step it shows is one of the four steps; as long as its own
    request is in flight it shows no error and its bar is at 90 at most;
    and once no request of its own is in flight (failed, completed, or never
    sent for lack of a file) its interval and its step timers are cleared,
    so the bar and the step no longer move. *)
Theorem processing_page_invariant (events : list Client.Event) :
  NoDup (Client.calls (Client.run events Client.initial)) /\
  (Client.location (Client.run events Client.initial) = Client.Processing <->
   Client.animation (Client.run events Client.initial) <> None) /\
  forall p,
    Client.animation (Client.run events Client.initial) = Some p ->
    (exists s, nth_error Client.processingSteps (Client.currentStep p) = Some s) /\
    (In (Client.instance p) (Client.calls (Client.run events Client.initial)) ->
     Client.error p = None /\ (Client.progress p <= 90)%Q) /\
    (~ In (Client.instance p) (Client.calls (Client.run events Client.initial)) ->
     forall more,
       (forall e, In e more -> e = Client.Tick \/ exists i, e = Client.StepTimer i) ->
       Client.animation (Client.run more (Client.run events Client.initial))
       = Some p).
Proof.
  pose proof (invariant_run events Client.initial invariant_initial)
    as (Hnd & Hlt & Hanim).
  set (a := Client.run events Client.initial) in *.
  split; [exact Hnd|]. split.
  - destruct (Client.animation a) as [p|].
    + split; [discriminate | intros _; tauto].
    + split; [intros H; contradiction | intros H; now elim H].
  - intros p Hp. rewrite Hp in Hanim.
    destruct Hanim as (Hloc & Hinst & Hcur & Htim & Hrun & Hdone).
    split.
    { destruct (nth_error Client.processingSteps (Client.currentStep p)) eqn:E;
        [eexists; reflexivity|].
      apply nth_error_None in E. lia. }
    split; [intros Hin; destruct (Hrun Hin) as (He & _ & Hq); now split|].
    intros Hnot more Hmore. destruct (Hdone Hnot) as (Hint & Htimers).
    clear Hrun Hdone Hnot Hnd Hlt Hloc Hinst.
    revert Hp. generalize a. clear a.
    induction more as [|e more IH]; intros a Hp; [exact Hp|].
    cbn [Client.run fold_left]. apply IH.
    + intros e' He'. apply Hmore. now right.
    + destruct (Hmore e (or_introl eq_refl)) as [->|[i ->]];
        cbn [Client.step Client.with_animation Client.animation];
        rewrite Hp; cbn [option_map]; f_equal.
      * unfold Client.tick. now rewrite Hint.
      * unfold Client.step_timer. now rewrite Htimers.
Qed.

(** ** The patient form *)

(** A text holds white space only exactly when nothing is left of it once
    the white space in front is skipped. *)
Lemma all_spaces_trim_start (s : string) :
  Text.all_spaces s = String.eqb (trim_start s) "".
Proof.
  assert (H : forall n s, (String.length s <= n)%nat ->
                          Text.all_spaces s = String.eqb (trim_start s) "").
  { clear s. induction n as [|n IH]; intros s Hlen.
    - destruct s; [reflexivity | simpl in Hlen; lia].
    - destruct s as [|c0 rest]; [reflexivity|]. simpl in Hlen.
      cbn [Text.all_spaces trim_start].
      destruct (is_space c0); [apply IH; lia|].
      destruct (Nat.eqb (nat_of_ascii c0) 194).
      + destruct rest as [|c1 rest1]; [reflexivity|]. simpl in Hlen.
        destruct (space2 c0 c1); [apply IH; lia | reflexivity].
      + destruct (lead3 c0); [|reflexivity].
        destruct rest as [|c1 [|c2 rest2]]; try reflexivity. simpl in Hlen.
        destruct (space3 c0 c1 c2); [apply IH; lia | reflexivity]. }
  apply (H (String.length s)). lia.
Qed.

(** What [trim_start] leaves has no white space in front. *)
Lemma trim_start_idempotent (s : string) :
  trim_start (trim_start s) = trim_start s.
Proof.
  assert (H : forall n s, (String.length s <= n)%nat ->
                          trim_start (trim_start s) = trim_start s).
  { clear s. induction n as [|n IH]; intros s Hlen.
    - destruct s; [reflexivity | simpl in Hlen; lia].
    - destruct s as [|c0 rest]; [reflexivity|]. simpl in Hlen.
      cbn [trim_start].
      destruct (is_space c0) eqn:E0; [apply IH; lia|].
      destruct (Nat.eqb (nat_of_ascii c0) 194) eqn:E1.
      + destruct rest as [|c1 rest1].
        * cbn [trim_start]. now rewrite E0, E1.
        * simpl in Hlen. destruct (space2 c0 c1) eqn:E2; [apply IH; lia|].
          cbn [trim_start]. now rewrite E0, E1, E2.
      + destruct (lead3 c0) eqn:E3.
        * destruct rest as [|c1 [|c2 rest2]];
            try (cbn [trim_start]; now rewrite E0, E1, E3).
          simpl in Hlen. destruct (space3 c0 c1 c2) eqn:E4; [apply IH; lia|].
          cbn [trim_start]. now rewrite E0, E1, E3, E4.
        * cbn [trim_start]. now rewrite E0, E1, E3. }
  apply (H (String.length s)). lia.
Qed.

Lemma trim_end_empty (s : string) :
  String.eqb (Text.trim_end s) "" = Text.all_spaces s.
Proof.
  destruct s as [|c rest]; [reflexivity|]. cbn [Text.trim_end].
  destruct (Text.all_spaces (String c rest)); reflexivity.
Qed.

(** [s.trim()] is empty exactly when [s] holds white space only. *)
Lemma trim_empty (s : string) :
  String.eqb (Text.trim s) "" = Text.all_spaces s.
Proof.
  unfold Text.trim.
  now rewrite trim_end_empty, !all_spaces_trim_start, trim_start_idempotent.
Qed.

Lemma validateForm_keys (fd : Form.PatientData) :
  Form.validateForm fd
  = (if Text.all_spaces (Form.fullName fd) then ["fullName"] else [])
    ++ (if ((1 <=? Form.age fd)%Z && (Form.age fd <=? 120)%Z)%bool
        then [] else ["age"])
    ++ (if Text.all_spaces (Form.phone fd) then ["phone"] else [])
    ++ (if Text.all_spaces (Form.email fd) then ["email"] else [])
    ++ (if Form.consentGiven fd then [] else ["consent"]).
Proof.
  unfold Form.validateForm. rewrite !trim_empty.
  replace ((Form.age fd =? 0)%Z || (Form.age fd <? 1)%Z
           || (120 <? Form.age fd)%Z)%bool
    with (negb ((1 <=? Form.age fd)%Z && (Form.age fd <=? 120)%Z))
    by (destruct (Z.eqb_spec (Form.age fd) 0), (Z.ltb_spec (Form.age fd) 1),
          (Z.ltb_spec 120 (Form.age fd)), (Z.leb_spec 1 (Form.age fd)),
          (Z.leb_spec (Form.age fd) 120); simpl; try reflexivity; lia).
  destruct ((1 <=? Form.age fd)%Z && (Form.age fd <=? 120)%Z)%bool,
    (Form.consentGiven fd); reflexivity.
Qed.

Lemma validateForm_In (fd : Form.PatientData) (k : string) :
  In k (Form.validateForm fd) <->
  (k = "fullName" /\ Text.all_spaces (Form.fullName fd) = true) \/
  (k = "age" /\ (Form.age fd < 1 \/ 120 < Form.age fd)%Z) \/
  (k = "phone" /\ Text.all_spaces (Form.phone fd) = true) \/
  (k = "email" /\ Text.all_spaces (Form.email fd) = true) \/
  (k = "consent" /\ Form.consentGiven fd = false).
Proof.
  rewrite validateForm_keys, !in_app_iff.
  assert (Hone : forall (b : bool) (key : string),
            In k (if b then [key] else []) <-> k = key /\ b = true).
  { intros [] key; simpl; intuition congruence. }
  assert (Hneg : forall (b : bool) (key : string),
            In k (if b then [] else [key]) <-> k = key /\ b = false).
  { intros [] key; simpl; intuition congruence. }
  rewrite !Hone, !Hneg.
  assert (Hage : ((1 <=? Form.age fd)%Z && (Form.age fd <=? 120)%Z)%bool = false
                 <-> (Form.age fd < 1 \/ 120 < Form.age fd)%Z).
  { rewrite andb_false_iff, !Z.leb_gt. tauto. }
  rewrite Hage. tauto.
Qed.

Lemma validateForm_nil (fd : Form.PatientData) :
  Form.validateForm fd = [] <->
  Text.all_spaces (Form.fullName fd) = false /\
  (1 <= Form.age fd <= 120)%Z /\
  Text.all_spaces (Form.phone fd) = false /\
  Text.all_spaces (Form.email fd) = false /\
  Form.consentGiven fd = true.
Proof.
  split.
  - intros Hnil.
    assert (Hno : forall k, ~ In k (Form.validateForm fd))
      by (intros k; rewrite Hnil; intros []).
    repeat split.
    + destruct (Text.all_spaces (Form.fullName fd)) eqn:E; [|reflexivity].
      exfalso. apply (Hno "fullName"), validateForm_In. auto.
    + destruct (Z.le_gt_cases 1 (Form.age fd)) as [H|H]; [exact H|].
      exfalso. apply (Hno "age"), validateForm_In. right. left. split; auto.
    + destruct (Z.le_gt_cases (Form.age fd) 120) as [H|H]; [exact H|].
      exfalso. apply (Hno "age"), validateForm_In. right. left. split; auto.
    + destruct (Text.all_spaces (Form.phone fd)) eqn:E; [|reflexivity].
      exfalso. apply (Hno "phone"), validateForm_In. auto.
    + destruct (Text.all_spaces (Form.email fd)) eqn:E; [|reflexivity].
      exfalso. apply (Hno "email"), validateForm_In. auto 6.
    + destruct (Form.consentGiven fd) eqn:E; [reflexivity|].
      exfalso. apply (Hno "consent"), validateForm_In. auto 6.
  - intros (Hname & Hage & Hphone & Hemail & Hconsent).
    destruct (Form.validateForm fd) as [|k rest] eqn:E; [reflexivity|].
    assert (Hin : In k (Form.validateForm fd)) by (rewrite E; now left).
    apply validateForm_In in Hin.
    destruct Hin as [[_ H]|[[_ H]|[[_ H]|[[_ H]|[_ H]]]]]; try congruence; lia.
Qed.

(** X19: the patient form saves only a complete form. [handleSubmit]
    writes the form data to the session and shows the upload step exactly
    when the name, the phone number and the e-mail address each hold a
    character that is not white space, the age is between 1 and 120 and
    consent is given; otherwise the session and the page stay as they were
    and [errors] names every field that failed, and only those. The e-mail
    address is not checked beyond that. *)
Theorem handleSubmit_saves_complete_form (f : Form.State) (a : Client.App) :
  (Text.all_spaces (Form.fullName (Form.formData f)) = false /\
   (1 <= Form.age (Form.formData f) <= 120)%Z /\
   Text.all_spaces (Form.phone (Form.formData f)) = false /\
   Text.all_spaces (Form.email (Form.formData f)) = false /\
   Form.consentGiven (Form.formData f) = true ->
   Form.errors (fst (fst (Form.handleSubmit f a))) = [] /\
   Client.patientData (Client.session (snd (fst (Form.handleSubmit f a))))
   = Some (Form.to_value (Form.formData f)) /\
   Client.location (snd (fst (Form.handleSubmit f a))) = Client.UploadScan /\
   snd (Form.handleSubmit f a) = Form.toast_success "Patient details saved") /\
  (~ (Text.all_spaces (Form.fullName (Form.formData f)) = false /\
      (1 <= Form.age (Form.formData f) <= 120)%Z /\
      Text.all_spaces (Form.phone (Form.formData f)) = false /\
      Text.all_spaces (Form.email (Form.formData f)) = false /\
      Form.consentGiven (Form.formData f) = true) ->
   snd (fst (Form.handleSubmit f a)) = a /\
   Form.errors (fst (fst (Form.handleSubmit f a))) <> [] /\
   snd (Form.handleSubmit f a)
   = Form.toast_error "Please fix the errors in the form") /\
  Form.formData (fst (fst (Form.handleSubmit f a))) = Form.formData f /\
  (In "fullName" (Form.errors (fst (fst (Form.handleSubmit f a)))) <->
   Text.all_spaces (Form.fullName (Form.formData f)) = true) /\
  (In "age" (Form.errors (fst (fst (Form.handleSubmit f a)))) <->
   (Form.age (Form.formData f) < 1 \/ 120 < Form.age (Form.formData f))%Z) /\
  (In "phone" (Form.errors (fst (fst (Form.handleSubmit f a)))) <->
   Text.all_spaces (Form.phone (Form.formData f)) = true) /\
  (In "email" (Form.errors (fst (fst (Form.handleSubmit f a)))) <->
   Text.all_spaces (Form.email (Form.formData f)) = true) /\
  (In "consent" (Form.errors (fst (fst (Form.handleSubmit f a)))) <->
   Form.consentGiven (Form.formData f) = false).
Proof.
  unfold Form.handleSubmit.
  cbv zeta.
  destruct (Form.validateForm (Form.formData f)) as [|k rest] eqn:E.
  - pose proof (proj1 (validateForm_nil _) E) as Hcomplete.
    cbn [List.length Nat.eqb fst snd Form.errors Form.formData].
    split.
    { intros _. split; [reflexivity|]. split; [now rewrite navigate_session|].
      split; [|reflexivity]. rewrite navigate_location; reflexivity || discriminate. }
    split; [intros Hnot; contradiction|]. split; [reflexivity|].
    assert (Hno : forall key, ~ In key (Form.validateForm (Form.formData f)))
      by (intros key; rewrite E; intros []).
    destruct Hcomplete as (Hname & Hage & Hphone & Hemail & Hconsent).
    repeat split; intros H; try (now destruct H); try congruence; lia.
  - cbn [List.length Nat.eqb fst snd Form.errors Form.formData].
    split.
    { intros Hcomplete. apply validateForm_nil in Hcomplete. congruence. }
    split.
    { intros _. split; [reflexivity|]. split; [discriminate | reflexivity]. }
    split; [reflexivity|]. rewrite <- E.
    repeat split; intros H;
      try (apply validateForm_In in H;
           destruct H as [[Hk H]|[[Hk H]|[[Hk H]|[[Hk H]|[Hk H]]]]];
           try discriminate Hk; exact H);
      apply validateForm_In; auto 7.
Qed.

Lemma toggle_In (t s : string) (l : list string) :
  In s (Form.toggle t l) <->
  (if string_dec t s then ~ In s l else In s l).
Proof.
  unfold Form.toggle.
  destruct (existsb (String.eqb t) l) eqn:E.
  - apply existsb_exists in E. destruct E as (x & Hx & Heq).
    apply String.eqb_eq in Heq. subst x.
    rewrite filter_In. destruct (string_dec t s) as [->|Hne].
    + rewrite String.eqb_refl. simpl. intuition discriminate.
    + destruct (String.eqb_spec s t) as [->|_]; [now elim Hne|].
      simpl. tauto.
  - assert (Hnot : ~ In t l).
    { intros Hin.
      assert (existsb (String.eqb t) l = true).
      { apply existsb_exists. exists t. split; [exact Hin|].
        apply String.eqb_refl. }
      congruence. }
    rewrite in_app_iff. simpl. destruct (string_dec t s) as [->|Hne].
    + tauto.
    + intuition congruence.
Qed.

Lemma toggle_NoDup (t : string) (l : list string) :
  NoDup l -> NoDup (Form.toggle t l).
Proof.
  intros Hnd. unfold Form.toggle.
  destruct (existsb (String.eqb t) l) eqn:E.
  - now apply NoDup_filter.
  - apply NoDup_app; [exact Hnd | repeat constructor; intros [] |].
    intros x Hx [<-|[]].
    assert (existsb (String.eqb t) l = true).
    { apply existsb_exists. exists t. split; [exact Hx|].
      apply String.eqb_refl. }
    congruence.
Qed.

Lemma toggles_symptoms (ts : list string) (fd : Form.PatientData) :
  Form.symptoms (fold_left (fun acc s => Form.handleSymptomToggle s acc) ts fd)
  = fold_left (fun l s => Form.toggle s l) ts (Form.symptoms fd).
Proof.
  revert fd. induction ts as [|t ts IH]; intros fd; [reflexivity|].
  simpl. now rewrite IH.
Qed.

Lemma toggles_In (ts : list string) (l : list string) (s : string) :
  In s (fold_left (fun l s => Form.toggle s l) ts l) <->
  (In s l <-> Nat.even (count_occ string_dec ts s) = true).
Proof.
  revert l. induction ts as [|t ts IH]; intros l.
  - simpl. tauto.
  - cbn [fold_left count_occ]. rewrite IH, toggle_In.
    destruct (string_dec t s) as [->|Hne]; [|tauto].
    rewrite Nat.even_succ, <- Nat.negb_even.
    destruct (Nat.even (count_occ string_dec ts s));
      destruct (in_dec string_dec s l); simpl; intuition discriminate.
Qed.

Lemma toggles_NoDup (ts : list string) (l : list string) :
  NoDup l -> NoDup (fold_left (fun l s => Form.toggle s l) ts l).
Proof.
  revert l. induction ts as [|t ts IH]; intros l H; [exact H|].
  simpl. now apply IH, toggle_NoDup.
Qed.

(** X20: the symptom boxes behave as check boxes. After any sequence of
    clicks on symptom boxes, starting from the empty form, the list of
    symptoms holds no symptom twice and holds a symptom exactly when its box
    was clicked an odd number of times; clicks on the nine boxes of the form
    keep the list within the nine options; and the boxes have no part in
    whether the form validates. *)
Theorem symptom_boxes_toggle (ts : list string) :
  NoDup (Form.symptoms
           (fold_left (fun acc s => Form.handleSymptomToggle s acc) ts Form.empty)) /\
  (forall s,
     In s (Form.symptoms
             (fold_left (fun acc s => Form.handleSymptomToggle s acc) ts Form.empty))
     <-> Nat.odd (count_occ string_dec ts s) = true) /\
  ((forall t, In t ts -> In t Form.symptomOptions) ->
   incl (Form.symptoms
           (fold_left (fun acc s => Form.handleSymptomToggle s acc) ts Form.empty))
        Form.symptomOptions /\
   (List.length
      (Form.symptoms
         (fold_left (fun acc s => Form.handleSymptomToggle s acc) ts Form.empty))
    <= 9)%nat) /\
  (forall fd,
     Form.validateForm
       (fold_left (fun acc s => Form.handleSymptomToggle s acc) ts fd)
     = Form.validateForm fd).
Proof.
  rewrite toggles_symptoms. cbn [Form.symptoms Form.empty].
  assert (Hin : forall s,
            In s (fold_left (fun l s => Form.toggle s l) ts [])
            <-> Nat.odd (count_occ string_dec ts s) = true).
  { intros s. rewrite toggles_In, <- Nat.negb_even. simpl.
    destruct (Nat.even (count_occ string_dec ts s)); simpl;
      intuition discriminate. }
  assert (Hnd : NoDup (fold_left (fun l s => Form.toggle s l) ts []))
    by (apply toggles_NoDup; constructor).
  split; [exact Hnd|]. split; [exact Hin|]. split.
  - intros Hopts.
    assert (Hincl : incl (fold_left (fun l s => Form.toggle s l) ts [])
                      Form.symptomOptions).
    { intros s Hs. apply Hin in Hs. apply Hopts.
      destruct (count_occ string_dec ts s) eqn:E; [discriminate Hs|].
      apply (count_occ_In string_dec). lia. }
    split; [exact Hincl|].
    change 9%nat with (List.length Form.symptomOptions).
    now apply NoDup_incl_length.
  - assert (Hkeep : forall us fd,
              Form.validateForm
                (fold_left (fun acc s => Form.handleSymptomToggle s acc) us fd)
              = Form.validateForm fd).
    { induction us as [|u us IH]; intros fd; [reflexivity|].
      simpl. now rewrite IH. }
    intros fd. apply Hkeep.
Qed.

(** ** The upload step *)

Lemma uploader_step_invariant (e : Uploader.Event) (st : Uploader.State) :
  (Uploader.uploadMethod st <> Some Client.method_camera /\
   Uploader.isCameraActive st = false /\
   Uploader.capturedImage st = None /\
   (Uploader.uploadMethod st = None <-> Uploader.selectedFile st = None) /\
   (forall f, Uploader.selectedFile st = Some f ->
      In (Client.type f) Uploader.validTypes /\
      (Client.size f <= Uploader.maxSize)%Z)) ->
  Uploader.uploadMethod (Uploader.step e st) <> Some Client.method_camera /\
  Uploader.isCameraActive (Uploader.step e st) = false /\
  Uploader.capturedImage (Uploader.step e st) = None /\
  (Uploader.uploadMethod (Uploader.step e st) = None <->
   Uploader.selectedFile (Uploader.step e st) = None) /\
  (forall f, Uploader.selectedFile (Uploader.step e st) = Some f ->
     In (Client.type f) Uploader.validTypes /\
     (Client.size f <= Uploader.maxSize)%Z).
Proof.
  intros (Hcam & Hact & Hcap & Hnone & Hfile).
  assert (Hvideo : Uploader.videoRef st = false).
  { unfold Uploader.videoRef. destruct (Uploader.uploadMethod st) as [[]|];
      [reflexivity | now elim Hcam | reflexivity]. }
  destruct e as [chosen| | | |ctx imageData| | |url]; cbn [Uploader.step].
  - unfold Uploader.handleFileSelect.
    destruct chosen as [file|]; cbn [fst]; [|tauto].
    destruct (existsb (String.eqb (Client.type file)) Uploader.validTypes) eqn:Et;
      cbn [negb fst]; [|tauto].
    destruct (Z.ltb_spec Uploader.maxSize (Client.size file)) as [Hs|Hs];
      cbn [fst]; [tauto|].
    cbn [Uploader.uploadMethod Uploader.isCameraActive Uploader.capturedImage
         Uploader.selectedFile].
    split; [discriminate|]. split; [exact Hact|]. split; [exact Hcap|].
    split; [split; discriminate|].
    intros f Hf. injection Hf as <-. split; [|exact Hs].
    apply existsb_exists in Et. destruct Et as (x & Hx & Heq).
    apply String.eqb_eq in Heq. now subst.
  - cbn. tauto.
  - unfold Uploader.cameraGranted.
    destruct (Uploader.cameraRequests st); [tauto|].
    rewrite Hvideo.
    cbn [Uploader.uploadMethod Uploader.isCameraActive Uploader.capturedImage
         Uploader.selectedFile]. tauto.
  - unfold Uploader.cameraDenied.
    destruct (Uploader.cameraRequests st); cbn; tauto.
  - unfold Uploader.capturePhoto. rewrite Hvideo. cbn [andb]. tauto.
  - cbn. tauto.
  - cbn. repeat split; try discriminate; try reflexivity.
  - unfold Uploader.readerLoaded.
    destruct (Uploader.readers st); cbn; tauto.
Qed.

Lemma uploader_run_invariant (events : list Uploader.Event) :
  Uploader.uploadMethod (Uploader.run events Uploader.initial)
  <> Some Client.method_camera /\
  Uploader.isCameraActive (Uploader.run events Uploader.initial) = false /\
  Uploader.capturedImage (Uploader.run events Uploader.initial) = None /\
  (Uploader.uploadMethod (Uploader.run events Uploader.initial) = None <->
   Uploader.selectedFile (Uploader.run events Uploader.initial) = None) /\
  (forall f,
     Uploader.selectedFile (Uploader.run events Uploader.initial) = Some f ->
     In (Client.type f) Uploader.validTypes /\
     (Client.size f <= Uploader.maxSize)%Z).
Proof.
  induction events as [|e events IH] using rev_ind.
  - cbn. repeat split; try discriminate; try reflexivity.
  - unfold Uploader.run in *. rewrite fold_left_app. cbn [fold_left].
    now apply uploader_step_invariant.
Qed.

(** X21: the upload step only ever hands on a checked file. Whatever the
    visitor and the browser do on the upload page (choosing files, asking
    for the camera, the camera being granted or denied, capturing, retaking,
    resetting, previews loading), the camera view is never entered: the
    [video] element is rendered only in camera mode, and camera mode is set
    only when the [video] element is there, so [uploadMethod] is never
    ['camera'], [isCameraActive] stays false and no image is captured. The
    "Analyze" button is enabled exactly when a file is selected; that file
    is of type JPEG, PNG, WebP or PDF and at most 20 MB (20971520 bytes);
    and the processing page that receives this scan data sends its request
    and does not fail for lack of a file. *)
Theorem uploader_hands_on_checked_file (events : list Uploader.Event) :
  Uploader.uploadMethod (Uploader.run events Uploader.initial)
  <> Some Client.method_camera /\
  Uploader.isCameraActive (Uploader.run events Uploader.initial) = false /\
  Uploader.capturedImage (Uploader.run events Uploader.initial) = None /\
  (Client.hasValidScan
     (Uploader.scanData (Uploader.run events Uploader.initial)) = true <->
   Uploader.selectedFile (Uploader.run events Uploader.initial) <> None) /\
  (Client.hasValidScan
     (Uploader.scanData (Uploader.run events Uploader.initial)) = true ->
   exists f,
     Client.file (Uploader.scanData (Uploader.run events Uploader.initial))
     = Some f /\
     In (Client.type f)
        ["image/jpeg"; "image/png"; "image/webp"; "application/pdf"] /\
     (Client.size f <= 20971520)%Z /\
     forall id,
       snd (Client.start id
              (Uploader.scanData (Uploader.run events Uploader.initial)))
       = true /\
       Client.error
         (fst (Client.start id
                 (Uploader.scanData (Uploader.run events Uploader.initial))))
       = None).
Proof.
  destruct (uploader_run_invariant events) as (Hcam & Hact & Hcap & Hnone & Hfile).
  set (st := Uploader.run events Uploader.initial) in *.
  split; [exact Hcam|]. split; [exact Hact|]. split; [exact Hcap|].
  assert (Hvalid : Client.hasValidScan (Uploader.scanData st) = true <->
                   Uploader.selectedFile st <> None).
  { unfold Client.hasValidScan, Uploader.scanData.
    cbn [Client.uploadMethod Client.file Client.capturedImage].
    destruct (Uploader.uploadMethod st) as [[]|] eqn:Em.
    - destruct (Uploader.selectedFile st) eqn:Ef; simpl.
      + split; [discriminate | reflexivity].
      + discriminate (proj2 Hnone eq_refl).
    - now elim Hcam.
    - rewrite (proj1 Hnone eq_refl). split; [discriminate | intros H; now elim H]. }
  split; [exact Hvalid|].
  intros Hv. apply Hvalid in Hv.
  destruct (Uploader.selectedFile st) as [f|] eqn:Ef; [|now elim Hv].
  exists f. cbn [Uploader.scanData Client.file]. split; [exact Ef|].
  destruct (Hfile f eq_refl) as [Ht Hs].
  split; [exact Ht|]. split; [exact Hs|].
  intros id. unfold Client.start. cbn [Uploader.scanData Client.file].
  rewrite Ef. split; reflexivity.
Qed.

(** X22: the upload step accepts what the backend refuses. A file the
    upload step has selected passes the backend's upload filter exactly when
    it is not a PDF. For a selected PDF the route answers 500 with the
    filter's message, neither calls the inference service nor stores
    anything, and [submitDiagnosis] rejects with that message, which is what
    the processing page then shows. *)
Theorem selected_pdf_is_refused (events : list Uploader.Event)
  (f : Client.File) (bytes : string) (env : option string) (w : World)
  (over_limit : bool) (patientData : option string) (n : Http.Node) :
  Uploader.selectedFile (Uploader.run events Uploader.initial) = Some f ->
  (Http.fileFilter (Client.type f) = None <->
   Client.type f <> "application/pdf") /\
  (Client.type f = "application/pdf" ->
   Api.submitDiagnosis
     (Resolved
        (fst (Http.post_diagnose env w
                (Http.FilePart (Uploader.part bytes f) over_limit)
                patientData n)))
   = Rejected "Only JPEG, PNG, or WebP images are accepted (got application/pdf)" /\
   Http.app
     (snd (Http.post_diagnose env w
             (Http.FilePart (Uploader.part bytes f) over_limit)
             patientData n))
   = Http.app n).
Proof.
  intros Hsel.
  destruct (uploader_run_invariant events) as (_ & _ & _ & _ & Hfile).
  destruct (Hfile f Hsel) as [Htype _].
  split.
  - rewrite fileFilter_None. unfold Http.allowed.
    cbn [Uploader.validTypes In] in Htype.
    destruct Htype as [H|[H|[H|[H|[]]]]]; rewrite <- H.
    + split; [intros _; discriminate | intros _; simpl; auto].
    + split; [intros _; discriminate | intros _; simpl; auto].
    + split; [intros _; discriminate | intros _; simpl; auto].
    + split; [|intros Hn; now elim Hn].
      intros Hin. simpl in Hin.
      repeat (destruct Hin as [Hin|Hin]; try discriminate Hin). destruct Hin.
  - intros Hpdf.
    assert (Hnot : ~ In (mimetype (Uploader.part bytes f))
                        ["image/jpeg"; "image/png"; "image/webp"]).
    { cbn [Uploader.part mimetype]. rewrite Hpdf. cbn [In].
      intros H. repeat (destruct H as [H|H]; try discriminate H). exact H. }
    rewrite (post_diagnose_refused_type env w (Uploader.part bytes f)
               over_limit patientData n Hnot). cbn [fst snd Http.app Uploader.part mimetype].
    rewrite Hpdf. split; reflexivity.
Qed.

Lemma selected_pdf_is_refused_witness :
  Client.hasValidScan
    (Uploader.scanData
       (Uploader.run
          [Uploader.FileChosen
             (Some {| Client.name := "report.pdf";
                      Client.type := "application/pdf";
                      Client.size := 1000 |})] Uploader.initial)) = true /\
  Api.submitDiagnosis
    (Resolved
       (fst (Http.post_diagnose None
               (Sample.world (Resolved Sample.pneumonia) (Resolved tt))
               (Http.FilePart
                  (Uploader.part "%PDF"
                     {| Client.name := "report.pdf";
                        Client.type := "application/pdf";
                        Client.size := 1000 |}) false)
               (Some "{}")
               {| Http.app := Sample.fresh; Http.errors := [] |})))
  = Rejected "Only JPEG, PNG, or WebP images are accepted (got application/pdf)".
Proof.
  split; [reflexivity|].
  exact (proj1 (proj2 (selected_pdf_is_refused
                         [Uploader.FileChosen
                            (Some {| Client.name := "report.pdf";
                                     Client.type := "application/pdf";
                                     Client.size := 1000 |})]
                         {| Client.name := "report.pdf";
                            Client.type := "application/pdf";
                            Client.size := 1000 |}
                         "%PDF" None
                         (Sample.world (Resolved Sample.pneumonia) (Resolved tt))
                         false (Some "{}")
                         {| Http.app := Sample.fresh; Http.errors := [] |}
                         eq_refl) eq_refl)).
Defined.

(** The age field keeps the number typed and reads anything else as 0,
    which the validation refuses. *)
Lemma set_age_typed (k : Z) (input : string) (fd : Form.PatientData) :
  Form.age (Form.set_age (Text.String_of_Z k) fd) = k /\
  (parseInt input = None ->
   Form.age (Form.set_age input fd) = 0%Z /\
   In "age" (Form.validateForm (Form.set_age input fd))).
Proof.
  split.
  - cbn [Form.set_age Form.age]. now rewrite parseInt_String_of_Z.
  - intros Hnan.
    assert (Hzero : Form.age (Form.set_age input fd) = 0%Z)
      by (cbn [Form.set_age Form.age]; now rewrite Hnan).
    split; [exact Hzero|].
    apply validateForm_In. right. left. split; [reflexivity|]. lia.
Qed.
